(** * CeramicFlow: the vessel geometry and CAM core

    A shallow embedding of [geometry.ts] (the surface evaluator
    [calculateVesselPoint], the mesh builder [generateVesselMesh], the
    statistics estimator [calculatePrintStats]) and of the exporters
    ([exportOBJ], [exportSTL], [exportGCODE]).

    Numbers.  A JavaScript [number] is modelled by a real number: no
    rounding and no overflow.  The integer-valued configuration
    fields ([layers], [segments], the texture [width] and [height]), the
    loop counters and every array index are modelled by [Z].  A quotient
    by zero, which JavaScript evaluates to [NaN] or to an infinity, has
    here the value of the total division of the reals; the statements
    about malformed configurations below only count evaluations and never
    depend on such a value.  The conversion of the vertex buffer to a
    [Float32Array] is the identity in this model.

    The exporters are modelled up to the numbers they compute; the
    [toFixed] rendering of the G-code is modelled on top of them:
    [exportGCODE] holds the numbers handed to [toFixed], [gcodeLines] the
    numbers that the printed lines denote.  [NaN] is modelled where the
    code can produce it from a texture read outside the buffer:
    [radiusJs] keeps it, and agrees with [calculateVesselPoint] on
    well-formed textures. *)

From Stdlib Require Import Reals ZArith List Bool Lia Lra Psatz.
From Stdlib Require Import Sorting.Sorted.
From Stdlib Require Strings.String Strings.Byte.
Import ListNotations.

Local Open Scope R_scope.

(** ** JavaScript primitives used by the sources *)

Module Js.

(** [Math.floor], as the integer it denotes. *)
Definition floor (a : R) : Z := Int_part a.

(** Rounding towards zero, the quotient of JavaScript's [%]. *)
Definition trunc (a : R) : Z :=
  if Rle_dec 0 a then Int_part a else (- Int_part (- a))%Z.

(** [a % b] on numbers: the remainder has the sign of the dividend. *)
Definition rem (a b : R) : R := a - b * IZR (trunc (a / b)).

(** [Math.min]. *)
Definition min (a b : Z) : Z := Z.min a b.

(** [Math.pow] with a small literal exponent. *)
Definition pow (a : R) (n : nat) : R := a ^ n.

(** [a || d] on numbers: [0] is the falsy number. *)
Definition or_else (a d : R) : R := if Req_dec_T a 0 then d else a.

(** [for (let i = 0; i < n; i++)]: the values taken by [i]. *)
Definition loop_lt (n : Z) : list Z := map Z.of_nat (seq 0 (Z.to_nat n)).

(** [for (let i = 0; i <= n; i++)]. *)
Definition loop_le (n : Z) : list Z := map Z.of_nat (seq 0 (Z.to_nat (n + 1))).

(** [for (let i = 1; i <= n; i++)]. *)
Definition loop_1_le (n : Z) : list Z := map Z.of_nat (seq 1 (Z.to_nat n)).

(** [for (let i = 0; i < n; i += 3)]. *)
Definition loop_lt_by3 (n : Z) : list Z :=
  map (fun k => (3 * Z.of_nat k)%Z) (seq 0 (Z.to_nat ((n + 2) / 3))).

(** A read [a[i]] of a [Uint8Array]: the sample inside the array,
    [undefined] ([None]) outside. *)
Definition u8_read (a : list Byte.byte) (i : Z) : option R :=
  if (i <? 0)%Z then None
  else match nth_error a (Z.to_nat i) with
       | Some b => Some (IZR (Z.of_N (Byte.to_N b)))
       | None => None
       end.

(** The value of a read [a[i]] inside the array.  Outside the array
    JavaScript yields [undefined], which arithmetic turns into [NaN]; this
    function yields [0] there, so that it describes the code only for
    reads inside the array: those of the surface evaluator on a well-formed
    grid with [u >= 0] and [v] in [[0,1]].  [radiusJs] below follows the
    code outside that domain. *)
Definition u8_get (a : list Byte.byte) (i : Z) : R :=
  if (i <? 0)%Z then 0
  else match nth_error a (Z.to_nat i) with
       | Some b => IZR (Z.of_N (Byte.to_N b))
       | None => 0
       end.

(** Reads of the vertex and index buffers, with the same convention. *)
Definition num_get (a : list R) (i : Z) : R :=
  if (i <? 0)%Z then 0 else nth (Z.to_nat i) a 0.

Definition idx_get (a : list Z) (i : Z) : Z :=
  if (i <? 0)%Z then 0%Z else nth (Z.to_nat i) a 0%Z.

(** [x.toFixed(digits)], as the number its text denotes.  The sign is
    set apart first; a magnitude of [10^21] or more is printed as by
    [String(x)], and denotes [x]; below, the text is the decimal
    [n / 10^digits] closest to the magnitude, the larger [n] on a tie. *)
Definition toFixed (digits : nat) (x : R) : R :=
  if Rle_dec (10 ^ 21) (Rabs x) then x
  else if Rle_dec 0 x
  then IZR (Int_part (x * 10 ^ digits + / 2)) / 10 ^ digits
  else - (IZR (Int_part (- x * 10 ^ digits + / 2)) / 10 ^ digits).

End Js.

(** ** types.ts *)

Inductive ExportFormat := obj | stl | ply | gcode.
Inductive PrinterType := marlin | wasp | potterbot.

Record VesselParams := {
  height : R;
  baseRadius : R;
  noiseScale : R;
  noiseFrequency : R;
  layers : Z;
  twist : R;
  segments : Z;
  wallThickness : R;
  exportFormat : ExportFormat;
  textureImage : option String.string;
  textureInfluence : R;
  printerType : PrinterType;
  nozzleDiameter : R;
  filamentDiameter : R;
  printSpeed : R
}.

Record TextureData := {
  tex_data : list Byte.byte;
  tex_width : Z;
  tex_height : Z
}.

Record PrintStats := {
  estimatedTime : R;
  filamentLength : R;
  filamentWeight : R;
  layerHeight : R;
  totalLayers : Z
}.

(** The object [{ x, y, z, r }] returned by the surface evaluator. *)
Record SurfacePoint := {
  sp_x : R;
  sp_y : R;
  sp_z : R;
  sp_r : R
}.

(** ** geometry.ts: the surface evaluator *)

(** The texel coordinates and the four array indices of the bilinear
    lookup (lines 39-58 of [calculateVesselPoint]). *)
Record Texel := {
  texX : R; texY : R;
  x1 : Z; y1 : Z; x2 : Z; y2 : Z;
  i11 : Z; i21 : Z; i12 : Z; i22 : Z
}.

Definition textureTexel (textureData : TextureData) (u v : R) : Texel :=
  let w := tex_width textureData in
  let h := tex_height textureData in
  let texX := Js.rem (u * IZR w) (IZR w) in
  let texY := Js.rem ((1 - v) * IZR h) (IZR h) in
  let x1 := Js.floor texX in
  let y1 := Js.floor texY in
  let x2 := Z.rem (x1 + 1) w in
  let y2 := if (y1 + 1 <? h)%Z then (y1 + 1)%Z else y1 in
  {| texX := texX; texY := texY;
     x1 := x1; y1 := y1; x2 := x2; y2 := y2;
     i11 := y1 * w + x1;
     i21 := y1 * w + x2;
     i12 := y2 * w + x1;
     i22 := y2 * w + x2 |}%Z.

(** The interpolated luminance in [0,1] (lines 52-68). *)
Definition textureValue (textureData : TextureData) (u v : R) : R :=
  let t := textureTexel textureData u v in
  let dx := texX t - IZR (x1 t) in
  let dy := texY t - IZR (y1 t) in
  let val11 := Js.u8_get (tex_data textureData) (i11 t) in
  let val21 := Js.u8_get (tex_data textureData) (i21 t) in
  let val12 := Js.u8_get (tex_data textureData) (i12 t) in
  let val22 := Js.u8_get (tex_data textureData) (i22 t) in
  ((val11 * (1 - dx) + val21 * dx) * (1 - dy) +
   (val12 * (1 - dx) + val22 * dx) * dy) / 255.0.

Definition calculateVesselPoint (params : VesselParams) (u v : R)
    (radiusOffset heightOffset heightScale : R)
    (textureData : option TextureData) : SurfacePoint :=
  let cy := (v * height params * heightScale) + heightOffset in
  let theta := u * PI * 2 in
  let twistOffset := v * twist params in
  let noiseVal :=
    sin ((theta + twistOffset) * noiseFrequency params) *
    cos (v * height params * noiseFrequency params * 0.5) in
  let r := baseRadius params +
           (noiseVal * noiseScale params * (1 - Js.pow (v - 0.5) 2 * 0.5)) in
  let r :=
    match textureData with
    | Some t =>
        if Rlt_dec 0 (textureInfluence params)
        then r + textureValue t u v * textureInfluence params
        else r
    | None => r
    end in
  let r := r + radiusOffset in
  let r := if Rlt_dec r 0.1 then 0.1 else r in
  let px := r * cos theta in
  let pz := r * sin theta in
  {| sp_x := px; sp_y := cy; sp_z := pz; sp_r := r |}.

(** *** The radius with its [NaN]

    The same computation of [r] (lines 27-79) on numbers that may be
    [NaN], written [None].  With real parameters a [NaN] can only come from
    the texture branch: from a remainder by a zero width or height, or from
    the arithmetic on an [undefined] sample read outside the buffer.  A
    [NaN] passes the additions and the clamp unchanged, [NaN < 0.1] being
    false. *)
Definition textureValueJs (textureData : TextureData) (u v : R) : option R :=
  if ((tex_width textureData =? 0) || (tex_height textureData =? 0))%Z
  then None
  else
    let t := textureTexel textureData u v in
    let dx := texX t - IZR (x1 t) in
    let dy := texY t - IZR (y1 t) in
    match Js.u8_read (tex_data textureData) (i11 t),
          Js.u8_read (tex_data textureData) (i21 t),
          Js.u8_read (tex_data textureData) (i12 t),
          Js.u8_read (tex_data textureData) (i22 t) with
    | Some val11, Some val21, Some val12, Some val22 =>
        Some (((val11 * (1 - dx) + val21 * dx) * (1 - dy) +
               (val12 * (1 - dx) + val22 * dx) * dy) / 255.0)
    | _, _, _, _ => None
    end.

Definition radiusJs (params : VesselParams) (u v : R) (radiusOffset : R)
    (textureData : option TextureData) : option R :=
  let theta := u * PI * 2 in
  let twistOffset := v * twist params in
  let noiseVal :=
    sin ((theta + twistOffset) * noiseFrequency params) *
    cos (v * height params * noiseFrequency params * 0.5) in
  let r := baseRadius params +
           (noiseVal * noiseScale params * (1 - Js.pow (v - 0.5) 2 * 0.5)) in
  let r :=
    match textureData with
    | Some t =>
        if Rlt_dec 0 (textureInfluence params)
        then option_map (fun val => r + val * textureInfluence params)
               (textureValueJs t u v)
        else Some r
    | None => Some r
    end in
  let r := option_map (fun r => r + radiusOffset) r in
  option_map (fun r => if Rlt_dec r 0.1 then 0.1 else r) r.

(** ** geometry.ts: the mesh builder *)

(** [vertices] is the flat coordinate buffer, three numbers per vertex;
    [indices] is the flat index buffer, three indices per triangle. *)
Record Mesh := {
  vertices : list R;
  indices : list Z
}.

(** [vertices.push(p.x, p.y, p.z)]. *)
Definition push3 (p : SurfacePoint) : list R := [sp_x p; sp_y p; sp_z p].

(** The surface points evaluated by one vertex loop nest
    ([for y <= layers], [for x <= segments]), in evaluation order. *)
Definition shellPoints (params : VesselParams) (textureData : option TextureData)
    (radiusOffset heightOffset heightScale : R) : list SurfacePoint :=
  flat_map (fun y =>
    let v := IZR y / IZR (layers params) in
    map (fun x =>
      let u := IZR x / IZR (segments params) in
      calculateVesselPoint params u v radiusOffset heightOffset heightScale
        textureData)
      (Js.loop_le (segments params)))
    (Js.loop_le (layers params)).

(** The helper closure [addQuad]. *)
Definition addQuad (p1 p2 p3 p4 : Z) : list Z := [p1; p2; p3] ++ [p3; p2; p4].

(** The index loop of vase mode (lines 103-112). *)
Definition vaseIndices (params : VesselParams) : list Z :=
  let segments := segments params in
  (flat_map (fun y =>
    flat_map (fun x =>
      let row1 := y * (segments + 1) in
      let row2 := (y + 1) * (segments + 1) in
      let a := row1 + x in
      let b := row1 + x + 1 in
      let c := row2 + x in
      let d := row2 + x + 1 in
      [a; c; b] ++ [b; c; d])
      (Js.loop_lt segments))
    (Js.loop_lt (layers params)))%Z.

(** Step 3 of the solid: the outer shell. *)
Definition outerShellIndices (params : VesselParams) : list Z :=
  let vertsPerRow := (segments params + 1)%Z in
  (flat_map (fun y =>
    flat_map (fun x =>
      let row1 := y * vertsPerRow in
      let row2 := (y + 1) * vertsPerRow in
      addQuad (row1 + x) (row2 + x) (row1 + x + 1) (row2 + x + 1))
      (Js.loop_lt (segments params)))
    (Js.loop_lt (layers params)))%Z.

(** Step 4 of the solid: the inner shell, with the order swapped. *)
Definition innerShellIndices (params : VesselParams) (innerOffset : Z) : list Z :=
  let vertsPerRow := (segments params + 1)%Z in
  (flat_map (fun y =>
    flat_map (fun x =>
      let row1 := innerOffset + y * vertsPerRow in
      let row2 := innerOffset + (y + 1) * vertsPerRow in
      addQuad (row1 + x + 1) (row2 + x + 1) (row1 + x) (row2 + x))
      (Js.loop_lt (segments params)))
    (Js.loop_lt (layers params)))%Z.

(** Step 5 of the solid: the top rim. *)
Definition rimIndices (params : VesselParams) (outerTopRow innerTopRow : Z) : list Z :=
  (flat_map (fun x =>
    addQuad (outerTopRow + x) (outerTopRow + x + 1)
            (innerTopRow + x) (innerTopRow + x + 1))
    (Js.loop_lt (segments params)))%Z.

(** Step 6 of the solid: the two floor fans. *)
Definition outerCapIndices (params : VesselParams) (centerBottomIndex : Z) : list Z :=
  let outerBottomRow := 0%Z in
  (flat_map (fun x => [centerBottomIndex; outerBottomRow + x + 1; outerBottomRow + x])
    (Js.loop_lt (segments params)))%Z.

Definition innerCapIndices (params : VesselParams)
    (centerFloorIndex innerBottomRow : Z) : list Z :=
  (flat_map (fun x => [centerFloorIndex; innerBottomRow + x; innerBottomRow + x + 1])
    (Js.loop_lt (segments params)))%Z.

(** [centerBottomIndex = vertices.length / 3] is an exact quotient: the
    buffer holds three numbers per vertex. *)
Definition generateVesselMesh (params : VesselParams)
    (textureData : option TextureData) : Mesh :=
  let wallThickness := wallThickness params in
  if Rle_dec wallThickness 0 then
    {| vertices := flat_map push3 (shellPoints params textureData 0 0 1);
       indices := vaseIndices params |}
  else
    let vertsPerRow := (segments params + 1)%Z in
    let numRows := (layers params + 1)%Z in
    let vertices := flat_map push3 (shellPoints params textureData 0 0 1) in
    let innerHeightScale := (height params - wallThickness) / height params in
    let vertices := vertices ++
      flat_map push3
        (shellPoints params textureData (- wallThickness) wallThickness
           innerHeightScale) in
    let indices := outerShellIndices params in
    let innerOffset := (numRows * vertsPerRow)%Z in
    let indices := indices ++ innerShellIndices params innerOffset in
    let outerTopRow := (layers params * vertsPerRow)%Z in
    let innerTopRow := (innerOffset + layers params * vertsPerRow)%Z in
    let indices := indices ++ rimIndices params outerTopRow innerTopRow in
    let centerBottomIndex := (Z.of_nat (length vertices) / 3)%Z in
    let vertices := vertices ++ [0; 0; 0] in
    let centerFloorIndex := (centerBottomIndex + 1)%Z in
    let vertices := vertices ++ [0; wallThickness; 0] in
    let indices := indices ++ outerCapIndices params centerBottomIndex in
    let innerBottomRow := innerOffset in
    let indices := indices ++ innerCapIndices params centerFloorIndex innerBottomRow in
    {| vertices := vertices; indices := indices |}.

(** The calls of [calculateVesselPoint] made by [generateVesselMesh], in
    order: one grid in vase mode, the outer then the inner grid otherwise. *)
Definition generateVesselMesh_evaluated (params : VesselParams)
    (textureData : option TextureData) : list SurfacePoint :=
  let wallThickness := wallThickness params in
  if Rle_dec wallThickness 0 then shellPoints params textureData 0 0 1
  else
    shellPoints params textureData 0 0 1 ++
    shellPoints params textureData (- wallThickness) wallThickness
      ((height params - wallThickness) / height params).

(** [vertices.length / 3] and the vertex stored at index [i], as every
    serializer reads it. *)
Definition vertexCount (m : Mesh) : Z := (Z.of_nat (length (vertices m)) / 3)%Z.

Definition vertexAt (m : Mesh) (i : Z) : R * R * R :=
  (Js.num_get (vertices m) (3 * i),
   Js.num_get (vertices m) (3 * i + 1),
   Js.num_get (vertices m) (3 * i + 2)).

(** ** geometry.ts: the statistics estimator *)

Definition sampleSteps (params : VesselParams) : Z := Js.min (segments params) 20.

(** The points visited on layer [i] by the point-to-point loop
    ([for j <= sampleSteps]). *)
Definition walkSamples (params : VesselParams) (textureData : option TextureData)
    (i : Z) : list SurfacePoint :=
  let v := IZR i / IZR (layers params) in
  map (fun j =>
    let u := IZR j / IZR (sampleSteps params) in
    calculateVesselPoint params u v 0 0 1 textureData)
    (Js.loop_le (sampleSteps params)).

(** One turn of the point-to-point loop body on the pair
    [(totalDist, prevP)]. *)
Definition walkStep (acc : R * SurfacePoint) (p : SurfacePoint) : R * SurfacePoint :=
  let '(totalDist, prevP) := acc in
  let dx := sp_x p - sp_x prevP in
  let dy := sp_y p - sp_y prevP in
  let dz := sp_z p - sp_z prevP in
  (totalDist + sqrt (dx * dx + dy * dy + dz * dz), p).

(** [totalDist] after the first loop nest; the source never reads it
    again. *)
Definition totalDist (params : VesselParams) (textureData : option TextureData) : R :=
  let prevP := calculateVesselPoint params 0 0 0 0 1 textureData in
  fst (fold_left walkStep
         (flat_map (walkSamples params textureData) (Js.loop_le (layers params)))
         (0, prevP)).

(** The four points sampled on layer [i] by the ring loop ([for k < 4]). *)
Definition ringSamples (params : VesselParams) (textureData : option TextureData)
    (i : Z) : list SurfacePoint :=
  let v := IZR i / IZR (layers params) in
  map (fun k => calculateVesselPoint params (IZR k / 4) v 0 0 1 textureData)
    (Js.loop_lt 4).

Definition avgR (params : VesselParams) (textureData : option TextureData)
    (i : Z) : R :=
  fold_left (fun avgR p => avgR + sp_r p) (ringSamples params textureData i) 0 / 4.

Definition spiralDist (params : VesselParams) (textureData : option TextureData) : R :=
  fold_left (fun spiralDist i => spiralDist + 2 * PI * avgR params textureData i)
    (Js.loop_lt (layers params)) 0.

Definition calculatePrintStats (params : VesselParams)
    (textureData : option TextureData) : PrintStats :=
  let layerHeight := height params / IZR (layers params) in
  let spiralDist := spiralDist params textureData in
  let extrudedVol := spiralDist * (nozzleDiameter params * layerHeight) in
  let filamentArea := PI * Js.pow (filamentDiameter params / 2) 2 in
  let filamentLengthMM := extrudedVol / filamentArea in
  let clayDensity := 0.0017 in
  let weight := extrudedVol * clayDensity in
  {| estimatedTime := spiralDist / printSpeed params;
     filamentLength := filamentLengthMM / 1000;
     filamentWeight := weight;
     layerHeight := layerHeight;
     totalLayers := layers params |}.

(** The calls of [calculateVesselPoint] made by [calculatePrintStats]. *)
Definition calculatePrintStats_evaluated (params : VesselParams)
    (textureData : option TextureData) : list SurfacePoint :=
  calculateVesselPoint params 0 0 0 0 1 textureData ::
  flat_map (walkSamples params textureData) (Js.loop_le (layers params)) ++
  flat_map (ringSamples params textureData) (Js.loop_lt (layers params)).

(** ** The exporters *)

(** *** OBJ: the [v] and [f] lines, as the numbers they print *)

Record ObjFile := {
  obj_v : list (R * R * R);
  obj_f : list (Z * Z * Z)
}.

Definition exportOBJ (params : VesselParams) (textureData : option TextureData)
    : ObjFile :=
  let m := generateVesselMesh params textureData in
  {| obj_v :=
       map (fun i => (Js.num_get (vertices m) i,
                      Js.num_get (vertices m) (i + 1),
                      Js.num_get (vertices m) (i + 2)))
         (Js.loop_lt_by3 (Z.of_nat (length (vertices m))));
     obj_f :=
       map (fun i => (Js.idx_get (indices m) i + 1,
                      Js.idx_get (indices m) (i + 1) + 1,
                      Js.idx_get (indices m) (i + 2) + 1))
         (Js.loop_lt_by3 (Z.of_nat (length (indices m)))) |}%Z.

(** *** STL: one facet per triangle *)

Record Vec3 := { vx : R; vy : R; vz : R }.

Record Facet := {
  facet_normal : Vec3;
  facet_v1 : Vec3;
  facet_v2 : Vec3;
  facet_v3 : Vec3
}.

(** The cross product of the two edge vectors (lines 202-206). *)
Definition faceCross (v1 v2 v3 : Vec3) : Vec3 :=
  let u := {| vx := vx v2 - vx v1; vy := vy v2 - vy v1; vz := vz v2 - vz v1 |} in
  let v := {| vx := vx v3 - vx v1; vy := vy v3 - vy v1; vz := vz v3 - vz v1 |} in
  let nx := vy u * vz v - vz u * vy v in
  let ny := vz u * vx v - vx u * vz v in
  let nz := vx u * vy v - vy u * vx v in
  {| vx := nx; vy := ny; vz := nz |}.

(** The divisor [len] of line 208. *)
Definition facetLen (v1 v2 v3 : Vec3) : R :=
  let n := faceCross v1 v2 v3 in
  let nx := vx n in
  let ny := vy n in
  let nz := vz n in
  Js.or_else (sqrt (nx * nx + ny * ny + nz * nz)) 1.

(** The numbers printed on the [facet normal] line (line 210). *)
Definition facetNormal (v1 v2 v3 : Vec3) : Vec3 :=
  let n := faceCross v1 v2 v3 in
  let nx := vx n in
  let ny := vy n in
  let nz := vz n in
  let len := facetLen v1 v2 v3 in
  {| vx := nx / len; vy := ny / len; vz := nz / len |}.

Definition exportSTL (params : VesselParams) (textureData : option TextureData)
    : list Facet :=
  let m := generateVesselMesh params textureData in
  map (fun i =>
    let i1 := (Js.idx_get (indices m) i * 3)%Z in
    let i2 := (Js.idx_get (indices m) (i + 1) * 3)%Z in
    let i3 := (Js.idx_get (indices m) (i + 2) * 3)%Z in
    let vert k := {| vx := Js.num_get (vertices m) k;
                     vy := Js.num_get (vertices m) (k + 1);
                     vz := Js.num_get (vertices m) (k + 2) |} in
    let v1 := vert i1 in
    let v2 := vert i2 in
    let v3 := vert i3 in
    {| facet_normal := facetNormal v1 v2 v3;
       facet_v1 := v1; facet_v2 := v2; facet_v3 := v3 |})
    (Js.loop_lt_by3 (Z.of_nat (length (indices m)))).

(** *** G-code: the spiral *)

(** The four numbers of a [G1 X.. Y.. Z.. E..] line. *)
Record GMove := { g_X : R; g_Y : R; g_Z : R; g_E : R }.

(** The variables carried around the spiral loop, and the lines emitted
    so far. *)
Record Spiral := {
  prevX : R;
  prevY : R;
  prevZ : R;
  currentE : R;
  emitted : list GMove
}.

(** The surface point evaluated at step [i] of the spiral. *)
Definition spiralPoint (params : VesselParams) (textureData : option TextureData)
    (i : Z) : SurfacePoint :=
  let totalSteps := (layers params * segments params)%Z in
  let v := IZR i / IZR totalSteps in
  let u := IZR i / IZR (segments params) in
  calculateVesselPoint params u v 0 0 1 textureData.

Definition ePerMM (params : VesselParams) : R :=
  let layerHeight := height params / IZR (layers params) in
  let filamentArea := PI * Js.pow (filamentDiameter params / 2) 2 in
  (nozzleDiameter params * layerHeight) / filamentArea.

(** The body of the spiral loop.  The line it emits holds [gx], [gy],
    [gz] and [currentE] themselves, the numbers handed to [toFixed];
    [printedLine] below rounds them as the text does. *)
Definition spiralStep (params : VesselParams) (textureData : option TextureData)
    (s : Spiral) (i : Z) : Spiral :=
  let p := spiralPoint params textureData i in
  let gx := sp_x p in
  let gy := sp_z p in
  let gz := sp_y p in
  let dist := sqrt (Js.pow (gx - prevX s) 2 +
                    Js.pow (gy - prevY s) 2 +
                    Js.pow (gz - prevZ s) 2) in
  let currentE := currentE s + dist * ePerMM params in
  {| prevX := gx; prevY := gy; prevZ := gz; currentE := currentE;
     emitted := emitted s ++ [{| g_X := gx; g_Y := gy; g_Z := gz; g_E := currentE |}] |}.

(** The program written by [exportGCODE], without the text of the
    printer preamble: the [G0] move to the start, the [G1] lines of the
    spiral, and the height of the final lift. *)
Record GCode := {
  gcode_start : R * R * R;
  gcode_moves : list GMove;
  gcode_lift : R
}.

Definition exportGCODE (params : VesselParams) (textureData : option TextureData)
    : GCode :=
  let layerHeight := height params / IZR (layers params) in
  let start := calculateVesselPoint params 0 0 0 0 1 textureData in
  let totalSteps := (layers params * segments params)%Z in
  let s0 := {| prevX := sp_x start; prevY := sp_z start; prevZ := layerHeight;
               currentE := 0; emitted := [] |} in
  let s := fold_left (spiralStep params textureData) (Js.loop_1_le totalSteps) s0 in
  {| gcode_start := (sp_x start, sp_z start, layerHeight);
     gcode_moves := emitted s;
     gcode_lift := height params + 20 |}.

(** A [G1] line as it is printed: [X], [Y] and [Z] with [toFixed(3)],
    [E] with [toFixed(4)]. *)
Definition printedLine (m : GMove) : GMove :=
  {| g_X := Js.toFixed 3 (g_X m);
     g_Y := Js.toFixed 3 (g_Y m);
     g_Z := Js.toFixed 3 (g_Z m);
     g_E := Js.toFixed 4 (g_E m) |}.

(** The [G1] lines of the spiral, as numbers read back from the text. *)
Definition gcodeLines (params : VesselParams) (textureData : option TextureData)
    : list GMove :=
  map printedLine (gcode_moves (exportGCODE params textureData)).

(** The height of the final lift as printed, with [toFixed(2)]. *)
Definition printedLift (params : VesselParams)
    (textureData : option TextureData) : R :=
  Js.toFixed 2 (gcode_lift (exportGCODE params textureData)).

(** The calls of [calculateVesselPoint] made by [exportGCODE]. *)
Definition exportGCODE_evaluated (params : VesselParams)
    (textureData : option TextureData) : list SurfacePoint :=
  calculateVesselPoint params 0 0 0 0 1 textureData ::
  map (spiralPoint params textureData)
    (Js.loop_1_le (layers params * segments params)).

(** ** App.tsx: the initial parameters *)

Definition INITIAL_PARAMS : VesselParams :=
  {| height := 150;
     baseRadius := 40;
     noiseScale := 10;
     noiseFrequency := 5;
     layers := 150;
     twist := 1;
     segments := 120;
     wallThickness := 2;
     exportFormat := obj;
     printerType := marlin;
     nozzleDiameter := 1.2;
     filamentDiameter := 1.75;
     printSpeed := 1200;
     textureImage := None;
     textureInfluence := 10 |}.

(** The parameters of the two worked examples of the specification; the
    fields an example leaves open are those of [INITIAL_PARAMS]. *)
Definition cylinderParams : VesselParams :=
  {| height := 150;
     baseRadius := 40;
     noiseScale := 0;
     noiseFrequency := 5;
     layers := 10;
     twist := 0;
     segments := 4;
     wallThickness := 0;
     exportFormat := obj;
     printerType := marlin;
     nozzleDiameter := 1.2;
     filamentDiameter := 1.75;
     printSpeed := 1200;
     textureImage := None;
     textureInfluence := 10 |}.

Definition floorParams : VesselParams :=
  {| height := 100;
     baseRadius := 40;
     noiseScale := 10;
     noiseFrequency := 5;
     layers := 150;
     twist := 1;
     segments := 120;
     wallThickness := 2;
     exportFormat := obj;
     printerType := marlin;
     nozzleDiameter := 1.2;
     filamentDiameter := 1.75;
     printSpeed := 1200;
     textureImage := None;
     textureInfluence := 10 |}.

(** The coordinates of a surface point, as pushed on the vertex buffer. *)
Definition xyz (p : SurfacePoint) : R * R * R := (sp_x p, sp_y p, sp_z p).

(** ** How a call ends

    A JavaScript call either returns a value or throws.  None of
    [generateVesselMesh], [calculatePrintStats] and [exportGCODE] contains a
    [throw] or a validation of its parameters, and the operations they use
    (arithmetic, [Math] functions, array pushes) do not throw: every call
    completes normally.  [evaluated] lists the surface points the call has
    computed. *)

Inductive Completion (A : Type) : Type :=
| Normal (value : A)
| Throw (error : String.string).
Arguments Normal {A} value.
Arguments Throw {A} error.

Record Run (A : Type) := {
  completion : Completion A;
  evaluated : list SurfacePoint
}.
Arguments completion {A} _.
Arguments evaluated {A} _.

Definition run_generateVesselMesh (params : VesselParams)
    (textureData : option TextureData) : Run Mesh :=
  {| completion := Normal (generateVesselMesh params textureData);
     evaluated := generateVesselMesh_evaluated params textureData |}.

Definition run_calculatePrintStats (params : VesselParams)
    (textureData : option TextureData) : Run PrintStats :=
  {| completion := Normal (calculatePrintStats params textureData);
     evaluated := calculatePrintStats_evaluated params textureData |}.

Definition run_exportGCODE (params : VesselParams)
    (textureData : option TextureData) : Run GCode :=
  {| completion := Normal (exportGCODE params textureData);
     evaluated := exportGCODE_evaluated params textureData |}.

(** A call fails fast when it throws before evaluating any surface point. *)
Definition failsFast {A : Type} (r : Run A) : Prop :=
  (exists e, completion r = Throw e) /\ evaluated r = [].

(** A call returns normally. *)
Definition returns {A : Type} (r : Run A) : Prop :=
  exists a, completion r = Normal a.

(** ** Notions used by the statements *)

(** [f 0 + f 1 + ... + f (n-1)]. *)
Fixpoint sumTo (n : nat) (f : nat -> R) : R :=
  match n with
  | O => 0
  | S k => sumTo k f + f k
  end.

(** The radius of the unmodified surface at [(u, v)]. *)
Definition radiusAt (params : VesselParams) (textureData : option TextureData)
    (u v : R) : R :=
  sp_r (calculateVesselPoint params u v 0 0 1 textureData).

(** The spiral distance in the words of the specification: the sum over
    the layers [i < layers] of [2 pi] times the mean of the radii at
    [u = 0, 1/4, 1/2, 3/4] and [v = i / layers]. *)
Definition spiralDistance_spec (params : VesselParams)
    (textureData : option TextureData) : R :=
  sumTo (Z.to_nat (layers params)) (fun i =>
    let v := INR i / IZR (layers params) in
    2 * PI * ((radiusAt params textureData 0 v +
               radiusAt params textureData (1 / 4) v +
               radiusAt params textureData (1 / 2) v +
               radiusAt params textureData (3 / 4) v) / 4)).

(** The largest element of a list of heights, [None] on the empty list. *)
Definition maxHeight (l : list R) : option R :=
  match l with
  | [] => None
  | a :: t => Some (fold_left Rmax t a)
  end.

(** The two vertex grids of solid mode, as [generateVesselMesh] evaluates
    them (steps 1 and 2): the outer shell with the evaluator's defaults,
    the inner shell with the offsets of line 147. *)
Definition outerShell (params : VesselParams) (textureData : option TextureData)
    : list SurfacePoint :=
  shellPoints params textureData 0 0 1.

Definition innerShell (params : VesselParams) (textureData : option TextureData)
    : list SurfacePoint :=
  shellPoints params textureData (- wallThickness params) (wallThickness params)
    ((height params - wallThickness params) / height params).

(** Parameters whose wall is thicker than the vessel is high. *)
Definition thickWallParams : VesselParams :=
  {| height := 10;
     baseRadius := 40;
     noiseScale := 10;
     noiseFrequency := 5;
     layers := 1;
     twist := 1;
     segments := 3;
     wallThickness := 20;
     exportFormat := obj;
     printerType := marlin;
     nozzleDiameter := 1.2;
     filamentDiameter := 1.75;
     printSpeed := 1200;
     textureImage := None;
     textureInfluence := 10 |}.

(** Parameters with no layer at all. *)
Definition zeroLayerParams : VesselParams :=
  {| height := 150;
     baseRadius := 40;
     noiseScale := 10;
     noiseFrequency := 5;
     layers := 0;
     twist := 1;
     segments := 4;
     wallThickness := 0;
     exportFormat := obj;
     printerType := marlin;
     nozzleDiameter := 1.2;
     filamentDiameter := 1.75;
     printSpeed := 1200;
     textureImage := None;
     textureInfluence := 10 |}.

(** A texture grid as the data model constrains it. *)
Definition wellFormedTexture (t : TextureData) : Prop :=
  (1 <= tex_width t)%Z /\ (1 <= tex_height t)%Z /\
  Z.of_nat (length (tex_data t)) = (tex_width t * tex_height t)%Z.

(** The Euclidean norm of a vector. *)
Definition norm (n : Vec3) : R :=
  sqrt (vx n * vx n + vy n * vy n + vz n * vz n).

(** The distance of a vertex from the y axis. *)
Definition axisDistance (p : R * R * R) : R :=
  let '(x, _, z) := p in sqrt (x * x + z * z).

(** The grid size [(layers + 1) * (segments + 1)]. *)
Definition gridSize (params : VesselParams) : Z :=
  ((layers params + 1) * (segments params + 1))%Z.

(** ** The exporters: what the claims above leave out *)

(** The counts printed in the header comment of the OBJ file
    ([# Vertices:] and [# Faces:]). *)
Definition exportOBJ_header (params : VesselParams)
    (textureData : option TextureData) : Z * Z :=
  let m := generateVesselMesh params textureData in
  (Z.of_nat (length (vertices m)) / 3, Z.of_nat (length (indices m)) / 3)%Z.

(** *** PLY: the header counts, the vertex lines and the face lines
    [3 a b c] *)

Record PlyFile := {
  ply_element_vertex : Z;
  ply_element_face : Z;
  ply_vertices : list (R * R * R);
  ply_faces : list (Z * Z * Z * Z)
}.

Definition exportPLY (params : VesselParams) (textureData : option TextureData)
    : PlyFile :=
  let m := generateVesselMesh params textureData in
  let vertexCount := (Z.of_nat (length (vertices m)) / 3)%Z in
  let faceCount := (Z.of_nat (length (indices m)) / 3)%Z in
  {| ply_element_vertex := vertexCount;
     ply_element_face := faceCount;
     ply_vertices :=
       map (fun i => (Js.num_get (vertices m) i,
                      Js.num_get (vertices m) (i + 1),
                      Js.num_get (vertices m) (i + 2)))
         (Js.loop_lt_by3 (Z.of_nat (length (vertices m))));
     ply_faces :=
       map (fun i => (3, Js.idx_get (indices m) i,
                      Js.idx_get (indices m) (i + 1),
                      Js.idx_get (indices m) (i + 2)))
         (Js.loop_lt_by3 (Z.of_nat (length (indices m)))) |}%Z.

(** *** G-code: the preamble and the postamble

    A line of the program: a comment line of the banner, or a command
    word with its lettered arguments and its trailing comment. *)
Inductive GLine :=
| Banner (text : String.string)
| BannerPrinter (p : PrinterType)
| BannerNumber (label : String.string) (value : R)
| Cmd (word : String.string) (args : list (String.string * R))
      (note : String.string).

Section Preamble.
Import Stdlib.Strings.String.
Local Open Scope string_scope.

Definition getHeader (params : VesselParams) (layerHeight : R) : list GLine :=
  let printSpeed := printSpeed params in
  let header :=
    [ Banner "CeramicFlow AI G-Code Export";
      BannerPrinter (printerType params);
      BannerNumber "Nozzle" (nozzleDiameter params);
      BannerNumber "Layer Height" layerHeight;
      BannerNumber "Speed" printSpeed;
      Cmd "G21" [] "Millimeters";
      Cmd "G90" [] "Absolute positioning";
      Cmd "M82" [] "Absolute extrusion mode" ] in
  match printerType params with
  | wasp =>
      header ++
      [ Cmd "G28" [] "Home Delta";
        Cmd "G1" [("Z", 15); ("F", printSpeed)] "Move up";
        Cmd "M204" [("S", 500)] "Low acceleration for clay" ]
  | potterbot =>
      header ++
      [ Cmd "G28" [] "Home";
        Cmd "G1" [("Z", 10)] "Lift";
        Cmd "G92" [("E", 0)] "Reset Extruder" ]
  | marlin =>
      header ++
      [ Cmd "G28" [] "Home";
        Cmd "G1" [("Z", 5); ("F", printSpeed)] "Lift nozzle" ]
  end.

(** The four lines written after the spiral (lines 346-350). *)
Definition gcodeFooter (params : VesselParams) : list GLine :=
  [ Cmd "G1" [("E", -2); ("F", 2400)] "Retract";
    Cmd "G1" [("Z", height params + 20); ("F", printSpeed params)] "Move up safety";
    Cmd "G28" [("X", 0); ("Y", 0)] "Home X Y";
    Cmd "M30" [] "End of program" ].

End Preamble.

(** The command words of a list of lines, banner lines left out. *)
Definition commandWords (l : list GLine) : list String.string :=
  flat_map (fun g => match g with Cmd w _ _ => [w] | _ => [] end) l.

(** ** imageHelper.ts: from an image to the luminance grid

    The size of the canvas: the image size, scaled down so that the larger
    side is at most [MAX_SIZE], then floored (lines 10-27). *)
Definition MAX_SIZE : R := 512.

Definition canvasSize (imgWidth imgHeight : Z) : Z * Z :=
  let width := IZR imgWidth in
  let height := IZR imgHeight in
  let '(width, height) :=
    if Rgt_dec width height then
      if Rgt_dec width MAX_SIZE
      then (MAX_SIZE, height * (MAX_SIZE / width))
      else (width, height)
    else
      if Rgt_dec height MAX_SIZE
      then (width * (MAX_SIZE / height), MAX_SIZE)
      else (width, height) in
  (Js.floor width, Js.floor height).

(** The store of a number into a [Uint8Array]: truncated, modulo 256. *)
Definition toUint8 (a : R) : Byte.byte :=
  match Byte.of_N (Z.to_N (Js.trunc a mod 256)) with
  | Some b => b
  | None => Byte.x00
  end.

(** The luminance loop (lines 44-52) over the RGBA buffer [data] read
    back from the canvas. *)
Definition luminance (data : list Byte.byte) (n : Z) : list Byte.byte :=
  map (fun i =>
    let r := Js.u8_get data (i * 4) in
    let g := Js.u8_get data (i * 4 + 1) in
    let b := Js.u8_get data (i * 4 + 2) in
    toUint8 (0.299 * r + 0.587 * g + 0.114 * b))
    (Js.loop_lt n).

(** The body of the [onload] handler of [processImageForGeometry], for
    an image that loads and a canvas that has a 2D context.
    [getImageData w h] stands for the RGBA buffer, of [4 * w * h] bytes,
    of the image drawn on a canvas of that size.  When the canvas has a
    side of zero, [ctx.getImageData] throws an [IndexSizeError]: the
    handler stops there, the promise is never resolved and no grid is
    handed to the geometry ([None]). *)
Definition processImageForGeometry (imgWidth imgHeight : Z)
    (getImageData : Z -> Z -> list Byte.byte) : option TextureData :=
  let '(canvasWidth, canvasHeight) := canvasSize imgWidth imgHeight in
  if ((canvasWidth =? 0) || (canvasHeight =? 0))%Z then None
  else
    let data := getImageData canvasWidth canvasHeight in
    Some {| tex_data := luminance data (canvasWidth * canvasHeight);
            tex_width := canvasWidth;
            tex_height := canvasHeight |}.

(** ** The viewport: the simulated nozzle and the active layer rings
    ([SimulationOverlay]) *)

(** The body of the [nozzlePos] memo; [SimulationOverlay] below
    evaluates it only past its early return. *)
Definition nozzlePos (params : VesselParams) (simProgress : R)
    (textureData : option TextureData) : R * R * R :=
  let currentU := simProgress * IZR (layers params) in
  let currentV := simProgress in
  let p := calculateVesselPoint params currentU currentV 0 0 1 textureData in
  (sp_x p, sp_y p, sp_z p).

(** One turn of the ring loop on the pair [(out, inn)]. *)
Definition ringStep (params : VesselParams) (currentV : R)
    (textureData : option TextureData) (segs : Z)
    (acc : list (R * R * R) * list (R * R * R)) (i : Z)
    : list (R * R * R) * list (R * R * R) :=
  let '(out, inn) := acc in
  let u := IZR i / IZR segs in
  let pOut := calculateVesselPoint params u currentV 0 0 1 textureData in
  let out := out ++ [(sp_x pOut, sp_y pOut, sp_z pOut)] in
  if Rgt_dec (wallThickness params) 0 then
    let pIn := calculateVesselPoint params u currentV (- wallThickness params)
                 0 1 textureData in
    (out, inn ++ [(sp_x pIn, sp_y pOut, sp_z pIn)])
  else (out, inn).

(** The body of the memo of the two rings, [(outerPoints, innerPoints)];
    it too is evaluated only past the early return. *)
Definition overlayRings (params : VesselParams) (simProgress : R)
    (textureData : option TextureData)
    : list (R * R * R) * list (R * R * R) :=
  let currentV := simProgress in
  let segs := Js.min (segments params) 128 in
  fold_left (ringStep params currentV textureData segs) (Js.loop_le segs) ([], []).

(** What the overlay draws: the nozzle and the two rings. *)
Record Overlay := {
  ov_nozzle : R * R * R;
  ov_outer : list (R * R * R);
  ov_inner : list (R * R * R)
}.

(** The component: nothing ([null]) unless the simulation is under way,
    [0.005 < simProgress < 0.995]. *)
Definition SimulationOverlay (params : VesselParams) (simProgress : R)
    (textureData : option TextureData) : option Overlay :=
  if Rge_dec simProgress 0.995 then None
  else if Rle_dec simProgress 0.005 then None
  else
    let rings := overlayRings params simProgress textureData in
    Some {| ov_nozzle := nozzlePos params simProgress textureData;
            ov_outer := fst rings;
            ov_inner := snd rings |}.

(** ** More notions used by the statements *)

(** [indices.length / 3], the number of triangles. *)
Definition triangleCount (m : Mesh) : Z := (Z.of_nat (length (indices m)) / 3)%Z.

(** The index of the grid vertex of row [y] and column [x]. *)
Definition gridIndex (params : VesselParams) (y x : Z) : Z :=
  (y * (segments params + 1) + x)%Z.

Definition dot (a b : Vec3) : R := vx a * vx b + vy a * vy b + vz a * vz b.

Definition vsub (a b : Vec3) : Vec3 :=
  {| vx := vx a - vx b; vy := vy a - vy b; vz := vz a - vz b |}.

Definition vopp (a : Vec3) : Vec3 :=
  {| vx := - vx a; vy := - vy a; vz := - vz a |}.

(** The radius of the surface before the offset and the clamp, without
    texture: the base radius plus the tapered noise. *)
Definition noiseRadius (params : VesselParams) (u v : R) : R :=
  baseRadius params +
  sin ((u * PI * 2 + v * twist params) * noiseFrequency params) *
  cos (v * height params * noiseFrequency params * 0.5) *
  noiseScale params * (1 - Js.pow (v - 0.5) 2 * 0.5).

(** Two parameter sets that differ at most in the fields the surface
    evaluator and the estimator never read. *)
Definition sameShape (p q : VesselParams) : Prop :=
  height p = height q /\ baseRadius p = baseRadius q /\
  noiseScale p = noiseScale q /\ noiseFrequency p = noiseFrequency q /\
  twist p = twist q /\ textureInfluence p = textureInfluence q.

(** The initial parameters at a coarser resolution and as an open
    surface. *)
Definition coarseParams : VesselParams :=
  {| height := 150;
     baseRadius := 40;
     noiseScale := 10;
     noiseFrequency := 5;
     layers := 150;
     twist := 1;
     segments := 30;
     wallThickness := 0;
     exportFormat := stl;
     printerType := wasp;
     nozzleDiameter := 1.2;
     filamentDiameter := 1.75;
     printSpeed := 1200;
     textureImage := None;
     textureInfluence := 10 |}.

(** The height reached at step [i] of the spiral. *)
Definition spiralHeight (params : VesselParams) (i : Z) : R :=
  IZR i / IZR (layers params * segments params) * height params.

(** A vertex of the mesh as a vector. *)
Definition vec3 (t : R * R * R) : Vec3 :=
  let '(a, b, c) := t in {| vx := a; vy := b; vz := c |}.

(** The triangles of an index buffer, three consecutive indices each. *)
Fixpoint chunk3 (l : list Z) : list (Z * Z * Z) :=
  match l with
  | a :: b :: c :: t => (a, b, c) :: chunk3 t
  | _ => []
  end.

Definition distinct3 (t : Z * Z * Z) : Prop :=
  let '(a, b, c) := t in a <> b /\ b <> c /\ a <> c.

(** A solid whose radius is clamped everywhere: a base radius of zero
    and no noise. *)
Definition clampedRimParams : VesselParams :=
  {| height := 100;
     baseRadius := 0;
     noiseScale := 0;
     noiseFrequency := 5;
     layers := 1;
     twist := 1;
     segments := 3;
     wallThickness := 2;
     exportFormat := stl;
     printerType := marlin;
     nozzleDiameter := 1.2;
     filamentDiameter := 1.75;
     printSpeed := 1200;
     textureImage := None;
     textureInfluence := 10 |}.

(** * Properties *)

(** ** Loops *)

Lemma In_loop_lt (n i : Z) : In i (Js.loop_lt n) <-> (0 <= i < n)%Z.
Proof.
  unfold Js.loop_lt. rewrite in_map_iff. split.
  - intros [k [<- Hk]]. apply in_seq in Hk. lia.
  - intros H. exists (Z.to_nat i). split; [lia|]. apply in_seq. lia.
Qed.

Lemma In_loop_le (n i : Z) : In i (Js.loop_le n) <-> (0 <= i <= n)%Z.
Proof.
  unfold Js.loop_le. rewrite in_map_iff. split.
  - intros [k [<- Hk]]. apply in_seq in Hk. lia.
  - intros H. exists (Z.to_nat i). split; [lia|]. apply in_seq. lia.
Qed.

Lemma In_loop_1_le (n i : Z) : In i (Js.loop_1_le n) <-> (1 <= i <= n)%Z.
Proof.
  unfold Js.loop_1_le. rewrite in_map_iff. split.
  - intros [k [<- Hk]]. apply in_seq in Hk. lia.
  - intros H. exists (Z.to_nat i). split; [lia|]. apply in_seq. lia.
Qed.

Lemma length_loop_lt (n : Z) : length (Js.loop_lt n) = Z.to_nat n.
Proof. unfold Js.loop_lt. now rewrite length_map, length_seq. Qed.

Lemma length_loop_le (n : Z) : length (Js.loop_le n) = Z.to_nat (n + 1).
Proof. unfold Js.loop_le. now rewrite length_map, length_seq. Qed.


(** ** The surface evaluator *)

(** The remainder of a non-negative number by a positive one. *)
Lemma rem_bounds (a b : R) : 0 <= a -> 0 < b -> 0 <= Js.rem a b < b.
Proof.
  intros Ha Hb. unfold Js.rem, Js.trunc.
  assert (Hq : 0 <= a / b) by (apply Rmult_le_pos; [lra | left; now apply Rinv_0_lt_compat]).
  destruct (Rle_dec 0 (a / b)) as [_|Hn]; [|contradiction].
  destruct (base_Int_part (a / b)) as [H1 H2].
  assert (Hab : a = b * (a / b)) by (field; lra).
  split; nra.
Qed.

Lemma floor_bounds (a : R) (n : Z) : 0 <= a < IZR n -> (0 <= Js.floor a < n)%Z.
Proof.
  intros [H0 Hn]. unfold Js.floor.
  destruct (base_Int_part a) as [H1 H2]. split.
  - assert (H : (-1 < Int_part a)%Z) by (apply lt_IZR; lra). lia.
  - apply lt_IZR. lra.
Qed.

Lemma texel_cell (t : TextureData) (u v : R) :
  (1 <= tex_width t)%Z -> (1 <= tex_height t)%Z -> 0 <= u -> 0 <= v <= 1 ->
  let c := textureTexel t u v in
  (0 <= x1 c < tex_width t /\ 0 <= y1 c < tex_height t /\
   0 <= x2 c < tex_width t /\ 0 <= y2 c < tex_height t)%Z.
Proof.
  intros Hw Hh Hu Hv. cbn.
  assert (HW : 1 <= IZR (tex_width t)) by now apply IZR_le.
  assert (HH : 1 <= IZR (tex_height t)) by now apply IZR_le.
  assert (Hx : (0 <= Js.floor (Js.rem (u * IZR (tex_width t)) (IZR (tex_width t)))
                < tex_width t)%Z).
  { apply floor_bounds, rem_bounds; nra. }
  assert (Hy : (0 <= Js.floor (Js.rem ((1 - v) * IZR (tex_height t)) (IZR (tex_height t)))
                < tex_height t)%Z).
  { apply floor_bounds, rem_bounds; nra. }
  repeat split; try lia.
  - apply Z.rem_bound_pos; lia.
  - apply Z.rem_bound_pos; lia.
  - destruct (Z.ltb_spec (Js.floor (Js.rem ((1 - v) * IZR (tex_height t))
                                      (IZR (tex_height t))) + 1) (tex_height t)); lia.
  - destruct (Z.ltb_spec (Js.floor (Js.rem ((1 - v) * IZR (tex_height t))
                                      (IZR (tex_height t))) + 1) (tex_height t)); lia.
Qed.

Lemma u8_read_get (a : list Byte.byte) (i : Z) :
  (0 <= i < Z.of_nat (length a))%Z -> Js.u8_read a i = Some (Js.u8_get a i).
Proof.
  intros Hi. unfold Js.u8_read, Js.u8_get.
  destruct (Z.ltb_spec i 0); [lia|].
  destruct (nth_error a (Z.to_nat i)) eqn:Hn; [reflexivity|].
  apply nth_error_None in Hn. lia.
Qed.

Lemma u8_read_nil (i : Z) : Js.u8_read [] i = None.
Proof.
  unfold Js.u8_read. destruct (i <? 0)%Z; [reflexivity|].
  now destruct (Z.to_nat i).
Qed.

(** On a well-formed grid the lookup reads four samples and its value is
    a number, the one [textureValue] computes. *)
Lemma textureValueJs_defined (t : TextureData) (u v : R) :
  wellFormedTexture t -> 0 <= u -> 0 <= v <= 1 ->
  textureValueJs t u v = Some (textureValue t u v).
Proof.
  intros (Hw & Hh & Hlen) Hu Hv.
  destruct (texel_cell t u v Hw Hh Hu Hv) as (Hx1 & Hy1 & Hx2 & Hy2).
  unfold textureValueJs, textureValue.
  destruct (Z.eqb_spec (tex_width t) 0); [lia|].
  destruct (Z.eqb_spec (tex_height t) 0); [lia|].
  cbn [orb]. cbv zeta.
  set (c := textureTexel t u v) in *.
  assert (Hi : forall x y, (0 <= x < tex_width t -> 0 <= y < tex_height t ->
                 0 <= y * tex_width t + x < Z.of_nat (length (tex_data t)))%Z).
  { intros x y Hx Hy. rewrite Hlen. nia. }
  change (i11 c) with (y1 c * tex_width t + x1 c)%Z.
  change (i21 c) with (y1 c * tex_width t + x2 c)%Z.
  change (i12 c) with (y2 c * tex_width t + x1 c)%Z.
  change (i22 c) with (y2 c * tex_width t + x2 c)%Z.
  rewrite !u8_read_get by now apply Hi.
  reflexivity.
Qed.

(** Whenever the radius is a number, it is the one the evaluator
    returns. *)
Lemma radiusJs_defined (params : VesselParams) (u v ro ho hs : R)
    (textureData : option TextureData) :
  0 <= u -> 0 <= v <= 1 ->
  (forall t, textureData = Some t -> wellFormedTexture t) ->
  radiusJs params u v ro textureData =
  Some (sp_r (calculateVesselPoint params u v ro ho hs textureData)).
Proof.
  intros Hu Hv Ht. unfold radiusJs, calculateVesselPoint. cbn [sp_r].
  destruct textureData as [t|]; [|reflexivity].
  destruct (Rlt_dec 0 (textureInfluence params)); [|reflexivity].
  rewrite textureValueJs_defined by (try assumption; now apply Ht).
  reflexivity.
Qed.

(** C2, as the code has it.  With no texture, or with a well-formed one
    (at least one row and one column, a buffer of [width * height]
    samples), for [u >= 0] and [v] in [[0,1]] and whatever the parameters
    and the offsets, the radius returned by the surface evaluator is a
    number and is at least 0.1: the last assignment to [r] before the
    Cartesian position is the clamp [if (r < 0.1) r = 0.1]. *)
Theorem radius_at_least_min (params : VesselParams) (u v : R)
    (radiusOffset heightOffset heightScale : R)
    (textureData : option TextureData) :
  0 <= u -> 0 <= v <= 1 ->
  (forall t, textureData = Some t -> wellFormedTexture t) ->
  let p := calculateVesselPoint params u v radiusOffset heightOffset heightScale
             textureData in
  radiusJs params u v radiusOffset textureData = Some (sp_r p) /\
  sp_r p >= 0.1.
Proof.
  intros Hu Hv Ht p. split.
  - now apply radiusJs_defined.
  - unfold p, calculateVesselPoint. cbn [sp_r].
    match goal with |- (if ?c then _ else _) >= _ => destruct c end; lra.
Qed.

Lemma radius_at_least_min_witness :
  let t := {| tex_data := [Byte.x00; Byte.x40; Byte.x80; Byte.xff];
              tex_width := 2; tex_height := 2 |} in
  let p := calculateVesselPoint INITIAL_PARAMS (1 / 4) (1 / 2) (- 100) 0 1
             (Some t) in
  radiusJs INITIAL_PARAMS (1 / 4) (1 / 2) (- 100) (Some t) = Some (sp_r p) /\
  sp_r p >= 0.1.
Proof.
  intros t. apply (radius_at_least_min INITIAL_PARAMS (1 / 4) (1 / 2)).
  - lra.
  - lra.
  - intros t' Ht. injection Ht as <-. unfold wellFormedTexture. cbn. lia.
Defined.

(** C2 as stated fails on a texture whose buffer is shorter than its
    grid: the four samples are read outside the buffer and are
    [undefined], the radius becomes [NaN], and the clamp, whose test
    [NaN < 0.1] is false, leaves it so.  The returned radius is then not a
    number at least 0.1. *)
Lemma radius_nan_counterexample :
  let t := {| tex_data := []; tex_width := 4; tex_height := 4 |} in
  0 <= 0 /\ 0 <= 0 <= 1 /\
  radiusJs INITIAL_PARAMS 0 0 0 (Some t) = None /\
  ~ (exists r, radiusJs INITIAL_PARAMS 0 0 0 (Some t) = Some r /\ r >= 0.1).
Proof.
  intros t.
  assert (Hn : radiusJs INITIAL_PARAMS 0 0 0 (Some t) = None).
  { unfold radiusJs.
    destruct (Rlt_dec 0 (textureInfluence INITIAL_PARAMS)) as [_|Hc];
      [|cbn in Hc; lra].
    unfold textureValueJs. cbn [tex_width tex_height tex_data t Z.eqb orb].
    cbv zeta. now rewrite !u8_read_nil. }
  split; [lra|]. split; [lra|]. split; [exact Hn|].
  intros [r [Hr _]]. rewrite Hn in Hr. discriminate Hr.
Qed.

(** C10.  On a texture grid of at least one row and one column whose
    buffer holds [width * height] samples, the four indices read by the
    bilinear lookup are inside the buffer for every [u >= 0] and
    [v] in [[0,1]]: the right neighbour wraps modulo the width, the lower
    neighbour stays on the last row. *)
Theorem texture_indices_in_range (t : TextureData) (u v : R) :
  (1 <= tex_width t)%Z -> (1 <= tex_height t)%Z ->
  Z.of_nat (length (tex_data t)) = (tex_width t * tex_height t)%Z ->
  0 <= u -> 0 <= v <= 1 ->
  let c := textureTexel t u v in
  let n := (tex_width t * tex_height t)%Z in
  ((0 <= i11 c < n /\ 0 <= i21 c < n /\ 0 <= i12 c < n /\ 0 <= i22 c < n) /\
   (i11 c < Z.of_nat (length (tex_data t)) /\
    i21 c < Z.of_nat (length (tex_data t)) /\
    i12 c < Z.of_nat (length (tex_data t)) /\
    i22 c < Z.of_nat (length (tex_data t))) /\
   x2 c = Z.rem (x1 c + 1) (tex_width t) /\
   y2 c = Z.min (y1 c + 1) (tex_height t - 1))%Z.
Proof.
  intros Hw Hh Hlen Hu Hv c n.
  destruct (texel_cell t u v Hw Hh Hu Hv) as (Hx1 & Hy1 & Hx2 & Hy2).
  fold c in Hx1, Hy1, Hx2, Hy2.
  assert (Hi : forall x y, (0 <= x < tex_width t -> 0 <= y < tex_height t ->
                            0 <= y * tex_width t + x < n)%Z).
  { intros x y Hx Hy. unfold n. nia. }
  assert (H11 : i11 c = (y1 c * tex_width t + x1 c)%Z) by reflexivity.
  assert (H21 : i21 c = (y1 c * tex_width t + x2 c)%Z) by reflexivity.
  assert (H12 : i12 c = (y2 c * tex_width t + x1 c)%Z) by reflexivity.
  assert (H22 : i22 c = (y2 c * tex_width t + x2 c)%Z) by reflexivity.
  rewrite H11, H21, H12, H22, Hlen. fold n.
  pose proof (Hi _ _ Hx1 Hy1). pose proof (Hi _ _ Hx2 Hy1).
  pose proof (Hi _ _ Hx1 Hy2). pose proof (Hi _ _ Hx2 Hy2).
  repeat split; try lia.
  change (y2 c) with (if (y1 c + 1 <? tex_height t)%Z then (y1 c + 1)%Z else y1 c).
  destruct (Z.ltb_spec (y1 c + 1) (tex_height t)); lia.
Qed.

Lemma texture_indices_in_range_witness :
  let t := {| tex_data := [Byte.x00; Byte.x40; Byte.x80; Byte.xff];
              tex_width := 2; tex_height := 2 |} in
  let c := textureTexel t (3 / 4) (1 / 4) in
  ((0 <= i11 c < 4 /\ 0 <= i21 c < 4 /\ 0 <= i12 c < 4 /\ 0 <= i22 c < 4) /\
   (i11 c < 4 /\ i21 c < 4 /\ i12 c < 4 /\ i22 c < 4) /\
   x2 c = Z.rem (x1 c + 1) 2 /\
   y2 c = Z.min (y1 c + 1) (2 - 1))%Z.
Proof.
  intros t c.
  apply (texture_indices_in_range t (3 / 4) (1 / 4)); cbn; try lia; try lra.
Defined.

(** ** The mesh builder: sizes of the buffers *)

Lemma length_flat_map_const {A B : Type} (f : A -> list B) (l : list A) (c : nat) :
  (forall a, length (f a) = c) -> length (flat_map f l) = (length l * c)%nat.
Proof.
  intros Hf. induction l as [|a l IH]; cbn; [reflexivity|].
  now rewrite length_app, Hf, IH.
Qed.

Lemma length_shellPoints (params : VesselParams) (textureData : option TextureData)
    (ro ho hs : R) :
  length (shellPoints params textureData ro ho hs) =
  (Z.to_nat (layers params + 1) * Z.to_nat (segments params + 1))%nat.
Proof.
  unfold shellPoints.
  rewrite (length_flat_map_const _ _ (Z.to_nat (segments params + 1))).
  - now rewrite length_loop_le.
  - intros y. now rewrite length_map, length_loop_le.
Qed.

Lemma length_push3 (l : list SurfacePoint) :
  length (flat_map push3 l) = (length l * 3)%nat.
Proof. now apply length_flat_map_const. Qed.

Lemma length_grid (params : VesselParams) (textureData : option TextureData)
    (ro ho hs : R) :
  (0 <= layers params)%Z -> (0 <= segments params)%Z ->
  Z.of_nat (length (flat_map push3 (shellPoints params textureData ro ho hs))) =
  (gridSize params * 3)%Z.
Proof.
  intros HL HS. rewrite length_push3, length_shellPoints. unfold gridSize. nia.
Qed.

Lemma vertexCount_vase (params : VesselParams) (textureData : option TextureData) :
  (0 <= layers params)%Z -> (0 <= segments params)%Z ->
  wallThickness params <= 0 ->
  vertexCount (generateVesselMesh params textureData) = gridSize params.
Proof.
  intros HL HS Hw. unfold vertexCount, generateVesselMesh.
  destruct (Rle_dec (wallThickness params) 0) as [_|Hn]; [|contradiction].
  cbn [vertices]. rewrite length_grid by assumption.
  now rewrite Z.div_mul.
Qed.

Lemma vertices_solid (params : VesselParams) (textureData : option TextureData) :
  0 < wallThickness params ->
  vertices (generateVesselMesh params textureData) =
  (flat_map push3 (shellPoints params textureData 0 0 1) ++
   flat_map push3
     (shellPoints params textureData (- wallThickness params) (wallThickness params)
        ((height params - wallThickness params) / height params))) ++
  [0; 0; 0] ++ [0; wallThickness params; 0].
Proof.
  intros Hw. unfold generateVesselMesh.
  destruct (Rle_dec (wallThickness params) 0) as [Hle|_]; [lra|].
  cbn [vertices]. now rewrite <- !app_assoc.
Qed.

Lemma vertexCount_solid (params : VesselParams) (textureData : option TextureData) :
  (0 <= layers params)%Z -> (0 <= segments params)%Z ->
  0 < wallThickness params ->
  vertexCount (generateVesselMesh params textureData) = (2 * gridSize params + 2)%Z.
Proof.
  intros HL HS Hw. unfold vertexCount. rewrite vertices_solid by assumption.
  rewrite !length_app, !Nat2Z.inj_add, !length_grid by assumption.
  cbn [length].
  replace (gridSize params * 3 + gridSize params * 3 + (Z.of_nat 3 + Z.of_nat 3))%Z
    with ((2 * gridSize params + 2) * 3)%Z by lia.
  now rewrite Z.div_mul.
Qed.

(** The apex index computed by the source, [vertices.length / 3] after the
    two grids, is twice the grid size. *)
Lemma indices_solid (params : VesselParams) (textureData : option TextureData) :
  (0 <= layers params)%Z -> (0 <= segments params)%Z ->
  0 < wallThickness params ->
  indices (generateVesselMesh params textureData) =
  outerShellIndices params ++
  innerShellIndices params (gridSize params) ++
  rimIndices params (layers params * (segments params + 1))
    (gridSize params + layers params * (segments params + 1)) ++
  outerCapIndices params (2 * gridSize params) ++
  innerCapIndices params (2 * gridSize params + 1) (gridSize params).
Proof.
  intros HL HS Hw. unfold generateVesselMesh.
  destruct (Rle_dec (wallThickness params) 0) as [Hle|_]; [lra|].
  cbn [indices]. rewrite !length_app, !Nat2Z.inj_add, !length_grid by assumption.
  replace (gridSize params * 3 + gridSize params * 3)%Z
    with ((2 * gridSize params) * 3)%Z by lia.
  rewrite Z.div_mul by lia. fold (gridSize params).
  now rewrite <- !app_assoc.
Qed.

(** ** The mesh builder: every index designates a stored vertex *)

Ltac in_loops :=
  repeat match goal with
  | H : In _ (flat_map _ _) |- _ =>
      apply in_flat_map in H; destruct H as [? [? H]]
  | H : In _ (Js.loop_lt _) |- _ => apply In_loop_lt in H
  | H : In _ (addQuad _ _ _ _) |- _ => unfold addQuad in H
  | H : In _ (_ ++ _) |- _ => apply in_app_or in H; destruct H as [H|H]
  | H : In _ (_ :: _) |- _ => destruct H as [H|H]; [symmetry in H|]
  | H : In _ [] |- _ => destruct H
  end.

Lemma vaseIndices_bound (params : VesselParams) (i : Z) :
  In i (vaseIndices params) -> (0 <= i < gridSize params)%Z.
Proof. unfold vaseIndices, gridSize. intros H. in_loops; subst; nia. Qed.

Lemma outerShellIndices_bound (params : VesselParams) (i : Z) :
  In i (outerShellIndices params) -> (0 <= i < gridSize params)%Z.
Proof. unfold outerShellIndices, gridSize. intros H. in_loops; subst; nia. Qed.

Lemma innerShellIndices_bound (params : VesselParams) (i : Z) :
  In i (innerShellIndices params (gridSize params)) ->
  (gridSize params <= i < 2 * gridSize params)%Z.
Proof. unfold innerShellIndices, gridSize. intros H. in_loops; subst; nia. Qed.

Lemma rimIndices_bound (params : VesselParams) (i : Z) :
  (0 <= layers params)%Z ->
  In i (rimIndices params (layers params * (segments params + 1))
          (gridSize params + layers params * (segments params + 1))) ->
  (0 <= i < 2 * gridSize params)%Z.
Proof. unfold rimIndices, gridSize. intros HL H. in_loops; subst; nia. Qed.

Lemma outerCapIndices_bound (params : VesselParams) (i : Z) :
  (0 <= layers params)%Z ->
  In i (outerCapIndices params (2 * gridSize params)) ->
  (0 <= i < 2 * gridSize params + 1)%Z.
Proof. unfold outerCapIndices, gridSize. intros HL H. in_loops; subst; nia. Qed.

Lemma innerCapIndices_bound (params : VesselParams) (i : Z) :
  (0 <= layers params)%Z ->
  In i (innerCapIndices params (2 * gridSize params + 1) (gridSize params)) ->
  (0 <= i < 2 * gridSize params + 2)%Z.
Proof. unfold innerCapIndices, gridSize. intros HL H. in_loops; subst; nia. Qed.

Lemma indices_bound (params : VesselParams) (textureData : option TextureData) (i : Z) :
  (0 <= layers params)%Z -> (0 <= segments params)%Z ->
  In i (indices (generateVesselMesh params textureData)) ->
  (0 <= i < vertexCount (generateVesselMesh params textureData))%Z.
Proof.
  intros HL HS Hi.
  destruct (Rle_dec (wallThickness params) 0) as [Hw|Hw].
  - rewrite vertexCount_vase by assumption.
    unfold generateVesselMesh in Hi.
    destruct (Rle_dec (wallThickness params) 0); [|contradiction].
    now apply vaseIndices_bound.
  - assert (Hw' : 0 < wallThickness params) by lra.
    rewrite vertexCount_solid by assumption.
    rewrite indices_solid in Hi by assumption.
    assert (0 <= gridSize params)%Z by (unfold gridSize; nia).
    repeat (apply in_app_or in Hi; destruct Hi as [Hi|Hi]).
    + apply outerShellIndices_bound in Hi. lia.
    + apply innerShellIndices_bound in Hi. lia.
    + apply rimIndices_bound in Hi; lia.
    + apply outerCapIndices_bound in Hi; lia.
    + apply innerCapIndices_bound in Hi; lia.
Qed.

(** The index buffer holds whole triangles. *)
Lemma length_indices (params : VesselParams) (textureData : option TextureData) :
  exists t : nat,
    length (indices (generateVesselMesh params textureData)) = (3 * t)%nat.
Proof.
  assert (Hq : forall (f : Z -> list Z) n,
             (forall x, length (f x) = 6%nat) ->
             exists t, length (flat_map f (Js.loop_lt n)) = (3 * t)%nat).
  { intros f n Hf. rewrite (length_flat_map_const _ _ 6) by assumption.
    exists (length (Js.loop_lt n) * 2)%nat. lia. }
  assert (Hc : forall (f : Z -> list Z) n,
             (forall x, length (f x) = 3%nat) ->
             exists t, length (flat_map f (Js.loop_lt n)) = (3 * t)%nat).
  { intros f n Hf. rewrite (length_flat_map_const _ _ 3) by assumption.
    exists (length (Js.loop_lt n)). lia. }
  assert (Hg : forall (f : Z -> Z -> list Z) n k,
             (forall y x, length (f y x) = 6%nat) ->
             exists t, length (flat_map (fun y => flat_map (f y) (Js.loop_lt n))
                                 (Js.loop_lt k)) = (3 * t)%nat).
  { intros f n k Hf.
    rewrite (length_flat_map_const _ _ (length (Js.loop_lt n) * 6)).
    - exists (length (Js.loop_lt k) * (length (Js.loop_lt n) * 2))%nat. lia.
    - intros y. now apply length_flat_map_const. }
  unfold generateVesselMesh.
  destruct (Rle_dec (wallThickness params) 0); cbn [indices].
  - apply Hg. reflexivity.
  - rewrite !length_app.
    destruct (Hg (fun y x =>
      addQuad (y * (segments params + 1) + x) ((y + 1) * (segments params + 1) + x)
              (y * (segments params + 1) + x + 1)
              ((y + 1) * (segments params + 1) + x + 1))%Z
      (segments params) (layers params)) as [t1 H1]; [reflexivity|].
    unfold outerShellIndices. rewrite H1.
    unfold innerShellIndices.
    match goal with |- context [length (flat_map (fun y => flat_map (@?f y) _) _)] =>
      destruct (Hg (fun y x => f y x) (segments params) (layers params))
        as [t2 H2]; [reflexivity|] end.
    cbn beta in H2. rewrite H2.
    unfold rimIndices, outerCapIndices, innerCapIndices.
    rewrite (length_flat_map_const _ _ 6) by reflexivity.
    rewrite !(length_flat_map_const _ _ 3) by reflexivity.
    exists (t1 + t2 + length (Js.loop_lt (segments params)) * 2
            + length (Js.loop_lt (segments params))
            + length (Js.loop_lt (segments params)))%nat. lia.
Qed.

Lemma idx_get_In (l : list Z) (i : Z) :
  (0 <= i < Z.of_nat (length l))%Z -> In (Js.idx_get l i) l.
Proof.
  intros H. unfold Js.idx_get.
  destruct (Z.ltb_spec i 0); [lia|]. apply nth_In. lia.
Qed.

Lemma In_loop_lt_by3 (t : nat) (i : Z) :
  In i (Js.loop_lt_by3 (Z.of_nat (3 * t))) ->
  exists k : Z, i = (3 * k)%Z /\ (0 <= k < Z.of_nat t)%Z.
Proof.
  unfold Js.loop_lt_by3. rewrite in_map_iff. intros [k [<- Hk]].
  apply in_seq in Hk. exists (Z.of_nat k). split; [reflexivity|].
  assert (Hd : ((Z.of_nat (3 * t) + 2) / 3 = Z.of_nat t)%Z).
  { symmetry. apply (Z.div_unique _ _ _ 2); lia. }
  rewrite Hd in Hk. lia.
Qed.

(** C3.  With at least one layer and three segments, every entry of the
    index buffer built by [generateVesselMesh] is a valid vertex index,
    whether the mesh is the open surface or the solid with its rim and
    floor fans; hence every index on an [f] line of [exportOBJ] lies in
    [[1, vertexCount]]. *)
Theorem mesh_indices_in_range (params : VesselParams)
    (textureData : option TextureData) :
  (1 <= layers params)%Z -> (3 <= segments params)%Z ->
  let m := generateVesselMesh params textureData in
  Forall (fun i => 0 <= i < vertexCount m)%Z (indices m) /\
  Forall (fun f => let '(a, b, c) := f in
            1 <= a <= vertexCount m /\ 1 <= b <= vertexCount m /\
            1 <= c <= vertexCount m)%Z
         (obj_f (exportOBJ params textureData)).
Proof.
  intros HL HS m.
  assert (Hb : forall i, In i (indices m) -> (0 <= i < vertexCount m)%Z).
  { intros i Hi. apply indices_bound; [lia | lia | exact Hi]. }
  split.
  - apply Forall_forall. exact Hb.
  - apply Forall_forall. intros [[a b] c] Hf.
    unfold exportOBJ in Hf. cbn [obj_f] in Hf. fold m in Hf.
    apply in_map_iff in Hf. destruct Hf as [i [Heq Hi]].
    destruct (length_indices params textureData) as [t Ht]. fold m in Ht.
    rewrite Ht in Hi. apply In_loop_lt_by3 in Hi. destruct Hi as [k [Hik Hk]].
    injection Heq as <- <- <-.
    assert (H0 : In (Js.idx_get (indices m) i) (indices m))
      by (apply idx_get_In; lia).
    assert (H1 : In (Js.idx_get (indices m) (i + 1)) (indices m))
      by (apply idx_get_In; lia).
    assert (H2 : In (Js.idx_get (indices m) (i + 2)) (indices m))
      by (apply idx_get_In; lia).
    apply Hb in H0, H1, H2. lia.
Qed.

Lemma mesh_indices_in_range_witness :
  let m := generateVesselMesh INITIAL_PARAMS None in
  Forall (fun i => 0 <= i < vertexCount m)%Z (indices m) /\
  Forall (fun f => let '(a, b, c) := f in
            1 <= a <= vertexCount m /\ 1 <= b <= vertexCount m /\
            1 <= c <= vertexCount m)%Z
         (obj_f (exportOBJ INITIAL_PARAMS None)).
Proof. apply (mesh_indices_in_range INITIAL_PARAMS None); cbn; lia. Defined.

(** ** The mesh builder: where a vertex is stored *)

Lemma nth_push3 (l : list SurfacePoint) (i : nat) (d : SurfacePoint) :
  (i < length l)%nat ->
  nth (3 * i) (flat_map push3 l) 0 = sp_x (nth i l d) /\
  nth (3 * i + 1) (flat_map push3 l) 0 = sp_y (nth i l d) /\
  nth (3 * i + 2) (flat_map push3 l) 0 = sp_z (nth i l d).
Proof.
  revert i. induction l as [|p l IH]; intros i Hi; cbn [length] in Hi; [lia|].
  destruct i as [|i].
  - cbn. auto.
  - replace (3 * S i)%nat with (S (S (S (3 * i)))) by lia.
    cbn [flat_map push3 app nth Nat.add]. apply IH. lia.
Qed.

Lemma vertexAt_grid (m : Mesh) (pts : list SurfacePoint) (rest : list R)
    (i : Z) (d : SurfacePoint) :
  vertices m = flat_map push3 pts ++ rest ->
  (0 <= i < Z.of_nat (length pts))%Z ->
  vertexAt m i = xyz (nth (Z.to_nat i) pts d).
Proof.
  intros Hv Hi. unfold vertexAt, xyz, Js.num_get. rewrite Hv.
  destruct (Z.ltb_spec (3 * i) 0); [lia|].
  destruct (Z.ltb_spec (3 * i + 1) 0); [lia|].
  destruct (Z.ltb_spec (3 * i + 2) 0); [lia|].
  assert (Hlen : (3 * Z.to_nat i + 2 < length (flat_map push3 pts))%nat)
    by (rewrite length_push3; lia).
  replace (Z.to_nat (3 * i)) with (3 * Z.to_nat i)%nat by lia.
  replace (Z.to_nat (3 * i + 1)) with (3 * Z.to_nat i + 1)%nat by lia.
  replace (Z.to_nat (3 * i + 2)) with (3 * Z.to_nat i + 2)%nat by lia.
  rewrite !app_nth1 by lia.
  destruct (nth_push3 pts (Z.to_nat i) d) as (-> & -> & ->); [lia|reflexivity].
Qed.

Lemma vertexAt_after (m : Mesh) (front : list R) (n : Z) (a b c : R) (rest : list R) :
  vertices m = front ++ [a; b; c] ++ rest ->
  Z.of_nat (length front) = (3 * n)%Z ->
  vertexAt m n = (a, b, c).
Proof.
  intros Hv Hn. unfold vertexAt, Js.num_get. rewrite Hv.
  destruct (Z.ltb_spec (3 * n) 0); [lia|].
  destruct (Z.ltb_spec (3 * n + 1) 0); [lia|].
  destruct (Z.ltb_spec (3 * n + 2) 0); [lia|].
  replace (Z.to_nat (3 * n)) with (length front + 0)%nat by lia.
  replace (Z.to_nat (3 * n + 1)) with (length front + 1)%nat by lia.
  replace (Z.to_nat (3 * n + 2)) with (length front + 2)%nat by lia.
  now rewrite !app_nth2_plus.
Qed.

(** Every grid point is a value of the surface evaluator. *)
Lemma In_shellPoints (params : VesselParams) (textureData : option TextureData)
    (ro ho hs : R) (q : SurfacePoint) :
  In q (shellPoints params textureData ro ho hs) ->
  exists x y : Z,
    (0 <= x <= segments params)%Z /\ (0 <= y <= layers params)%Z /\
    q = calculateVesselPoint params (IZR x / IZR (segments params))
          (IZR y / IZR (layers params)) ro ho hs textureData.
Proof.
  unfold shellPoints. intros H.
  apply in_flat_map in H. destruct H as [y [Hy H]].
  apply in_map_iff in H. destruct H as [x [<- Hx]].
  apply In_loop_le in Hy. apply In_loop_le in Hx.
  exists x, y. auto.
Qed.

(** A surface point lies at distance [r] from the y axis. *)
Lemma axisDistance_point (params : VesselParams) (u v ro ho hs : R)
    (textureData : option TextureData) :
  let q := calculateVesselPoint params u v ro ho hs textureData in
  axisDistance (xyz q) = sp_r q.
Proof.
  intros q.
  assert (Hr : sp_r q >= 0.1).
  { unfold q, calculateVesselPoint. cbn [sp_r].
    match goal with |- (if ?c then _ else _) >= _ => destruct c end; lra. }
  assert (Hx : sp_x q = sp_r q * cos (u * PI * 2)) by reflexivity.
  assert (Hz : sp_z q = sp_r q * sin (u * PI * 2)) by reflexivity.
  unfold axisDistance, xyz. rewrite Hx, Hz.
  pose proof (sin2_cos2 (u * PI * 2)) as Hsc. unfold Rsqr in Hsc.
  replace (sp_r q * cos (u * PI * 2) * (sp_r q * cos (u * PI * 2)) +
           sp_r q * sin (u * PI * 2) * (sp_r q * sin (u * PI * 2)))
    with (sp_r q * sp_r q *
          (sin (u * PI * 2) * sin (u * PI * 2) + cos (u * PI * 2) * cos (u * PI * 2)))
    by ring.
  rewrite Hsc, Rmult_1_r. apply sqrt_square. lra.
Qed.

Lemma length_vaseIndices (params : VesselParams) :
  length (vaseIndices params) =
  (Z.to_nat (layers params) * (Z.to_nat (segments params) * 6))%nat.
Proof.
  unfold vaseIndices.
  rewrite (length_flat_map_const _ _ (Z.to_nat (segments params) * 6)).
  - now rewrite length_loop_lt.
  - intros y. rewrite (length_flat_map_const _ _ 6) by reflexivity.
    now rewrite length_loop_lt.
Qed.

(** C7.  With height 150, base radius 40, no noise, no twist, 10 layers,
    4 segments, no wall thickness and no texture, the mesh has 55 vertices
    and 80 triangles, and every vertex is at distance 40 from the y axis. *)
Theorem cylinder_example (params : VesselParams) :
  height params = 150 -> baseRadius params = 40 -> noiseScale params = 0 ->
  twist params = 0 -> layers params = 10%Z -> segments params = 4%Z ->
  wallThickness params = 0 ->
  let m := generateVesselMesh params None in
  vertexCount m = 55%Z /\
  length (vertices m) = (3 * 55)%nat /\
  length (indices m) = (3 * 80)%nat /\
  forall i, (0 <= i < 55)%Z -> axisDistance (vertexAt m i) = 40.
Proof.
  intros Hh Hb Hn Ht HL HS Hw m.
  assert (Hm : m = {| vertices := flat_map push3 (shellPoints params None 0 0 1);
                      indices := vaseIndices params |}).
  { unfold m, generateVesselMesh.
    destruct (Rle_dec (wallThickness params) 0) as [_|Hc]; [reflexivity|lra]. }
  assert (Hlen : length (shellPoints params None 0 0 1) = 55%nat).
  { rewrite length_shellPoints, HL, HS. reflexivity. }
  repeat split.
  - unfold m. rewrite vertexCount_vase; try lia; try lra.
    unfold gridSize. rewrite HL, HS. reflexivity.
  - rewrite Hm. cbn [vertices]. rewrite length_push3, Hlen. reflexivity.
  - rewrite Hm. cbn [indices]. rewrite length_vaseIndices, HL, HS. reflexivity.
  - intros i Hi.
    set (d := calculateVesselPoint params 0 0 0 0 1 None).
    rewrite (vertexAt_grid m (shellPoints params None 0 0 1) [] i d).
    + assert (Hin : In (nth (Z.to_nat i) (shellPoints params None 0 0 1) d)
                      (shellPoints params None 0 0 1))
        by (apply nth_In; lia).
      apply In_shellPoints in Hin. destruct Hin as (x & y & _ & _ & ->).
      rewrite axisDistance_point.
      unfold calculateVesselPoint. cbn [sp_r]. rewrite Hb, Hn.
      match goal with |- (if ?c then _ else _) = _ => destruct c end; lra.
    + rewrite Hm. cbn [vertices]. now rewrite app_nil_r.
    + lia.
Qed.

Lemma cylinder_example_witness :
  let m := generateVesselMesh cylinderParams None in
  vertexCount m = 55%Z /\
  length (vertices m) = (3 * 55)%nat /\
  length (indices m) = (3 * 80)%nat /\
  forall i, (0 <= i < 55)%Z -> axisDistance (vertexAt m i) = 40.
Proof. apply (cylinder_example cylinderParams); reflexivity. Defined.

(** C8.  In solid mode the vertex buffer is the outer grid, the inner
    grid and then exactly two more vertices, the apexes of the two floor
    fans: the outer one at [(0, 0, 0)] and the inner one at
    [(0, wallThickness, 0)]; the fans are the last triangles of the index
    buffer and start at these two vertices. *)
Theorem floor_apex_vertices (params : VesselParams)
    (textureData : option TextureData) :
  (1 <= layers params)%Z -> (3 <= segments params)%Z ->
  0 < wallThickness params ->
  let m := generateVesselMesh params textureData in
  let g := gridSize params in
  vertexCount m = (2 * g + 2)%Z /\
  vertexAt m (2 * g) = (0, 0, 0) /\
  vertexAt m (2 * g + 1) = (0, wallThickness params, 0) /\
  (exists grids shells,
     Z.of_nat (length grids) = (3 * (2 * g))%Z /\
     vertices m = grids ++ [0; 0; 0] ++ [0; wallThickness params; 0] /\
     indices m = shells ++ outerCapIndices params (2 * g) ++
                 innerCapIndices params (2 * g + 1) g).
Proof.
  intros HL HS Hw m g.
  assert (HL0 : (0 <= layers params)%Z) by lia.
  assert (HS0 : (0 <= segments params)%Z) by lia.
  pose proof (vertices_solid params textureData Hw) as Hv. fold m in Hv.
  set (grids := flat_map push3 (shellPoints params textureData 0 0 1) ++
                flat_map push3
                  (shellPoints params textureData (- wallThickness params)
                     (wallThickness params)
                     ((height params - wallThickness params) / height params)))
    in Hv.
  assert (Hg : Z.of_nat (length grids) = (3 * (2 * g))%Z).
  { unfold grids. rewrite length_app, Nat2Z.inj_add, !length_grid by assumption.
    fold g. lia. }
  split; [|split; [|split]].
  - unfold m. now rewrite vertexCount_solid.
  - apply (vertexAt_after m grids (2 * g) 0 0 0 [0; wallThickness params; 0]);
      assumption.
  - apply (vertexAt_after m (grids ++ [0; 0; 0]) (2 * g + 1)
             0 (wallThickness params) 0 []).
    + rewrite Hv. now rewrite <- app_assoc.
    + rewrite length_app, Nat2Z.inj_add, Hg. cbn [length]. lia.
  - exists grids.
    exists (outerShellIndices params ++ innerShellIndices params g ++
            rimIndices params (layers params * (segments params + 1))
              (g + layers params * (segments params + 1))).
    split; [exact Hg|]. split; [exact Hv|].
    unfold m. rewrite indices_solid by assumption. fold g.
    now rewrite <- !app_assoc.
Qed.

Lemma floor_apex_vertices_witness :
  let m := generateVesselMesh floorParams None in
  let g := gridSize floorParams in
  vertexCount m = (2 * g + 2)%Z /\
  vertexAt m (2 * g) = (0, 0, 0) /\
  vertexAt m (2 * g + 1) = (0, 2, 0) /\
  (exists grids shells,
     Z.of_nat (length grids) = (3 * (2 * g))%Z /\
     vertices m = grids ++ [0; 0; 0] ++ [0; 2; 0] /\
     indices m = shells ++ outerCapIndices floorParams (2 * g) ++
                 innerCapIndices floorParams (2 * g + 1) g).
Proof.
  apply (floor_apex_vertices floorParams None); cbn; try lia; lra.
Defined.

(** ** The mesh builder: heights of the two shells *)

Lemma fold_left_Rmax (l : list R) (a : R) :
  a <= fold_left Rmax l a /\
  (forall x, In x l -> x <= fold_left Rmax l a) /\
  In (fold_left Rmax l a) (a :: l).
Proof.
  revert a. induction l as [|b l IH]; intros a; cbn [fold_left].
  - repeat split; [lra | intros x [] | now left].
  - destruct (IH (Rmax a b)) as (H1 & H2 & H3).
    pose proof (Rmax_l a b). pose proof (Rmax_r a b).
    repeat split.
    + lra.
    + intros x [<-|Hx]; [lra | now apply H2].
    + destruct H3 as [H3|H3]; [|now right; right].
      rewrite <- H3. unfold Rmax. destruct (Rle_dec a b); [right|]; now left.
Qed.

Lemma maxHeight_spec (l : list R) (m : R) :
  In m l -> (forall x, In x l -> x <= m) -> maxHeight l = Some m.
Proof.
  destruct l as [|a l]; intros Hin Hub; [destruct Hin|].
  cbn [maxHeight]. f_equal.
  destruct (fold_left_Rmax l a) as (H1 & H2 & H3).
  apply Rle_antisym.
  - now apply Hub.
  - destruct Hin as [<-|Hin]; [exact H1 | now apply H2].
Qed.

Lemma shellPoints_In (params : VesselParams) (textureData : option TextureData)
    (ro ho hs : R) (x y : Z) :
  (0 <= x <= segments params)%Z -> (0 <= y <= layers params)%Z ->
  In (calculateVesselPoint params (IZR x / IZR (segments params))
        (IZR y / IZR (layers params)) ro ho hs textureData)
     (shellPoints params textureData ro ho hs).
Proof.
  intros Hx Hy. unfold shellPoints. apply in_flat_map. exists y. split.
  - now apply In_loop_le.
  - apply in_map_iff. exists x. split; [reflexivity | now apply In_loop_le].
Qed.

(** The height fraction of a grid row lies in [[0, 1]]. *)
Lemma row_fraction (n y : Z) :
  (1 <= n)%Z -> (0 <= y <= n)%Z -> 0 <= IZR y / IZR n <= 1.
Proof.
  intros Hn Hy.
  assert (H1 : 1 <= IZR n) by now apply IZR_le.
  assert (H2 : 0 <= IZR y) by now apply IZR_le.
  assert (H3 : IZR y <= IZR n) by now apply IZR_le.
  split.
  - apply Rmult_le_pos; [lra | left; apply Rinv_0_lt_compat; lra].
  - apply Rmult_le_reg_r with (IZR n); [lra|].
    unfold Rdiv. rewrite Rmult_assoc, Rinv_l by lra. lra.
Qed.

(** The largest height of a shell whose heights grow with the row. *)
Lemma maxHeight_shell (params : VesselParams) (textureData : option TextureData)
    (ro ho hs : R) :
  (1 <= layers params)%Z -> (0 <= segments params)%Z ->
  0 <= height params * hs ->
  maxHeight (map sp_y (shellPoints params textureData ro ho hs)) =
  Some (height params * hs + ho).
Proof.
  intros HL HS Hpos. apply maxHeight_spec.
  - apply in_map_iff.
    exists (calculateVesselPoint params (IZR 0 / IZR (segments params))
              (IZR (layers params) / IZR (layers params)) ro ho hs textureData).
    split.
    + cbn [calculateVesselPoint sp_y].
      assert (H1 : 1 <= IZR (layers params)) by now apply IZR_le.
      field. lra.
    + apply shellPoints_In; lia.
  - intros h Hh. apply in_map_iff in Hh. destruct Hh as [q [<- Hq]].
    apply In_shellPoints in Hq. destruct Hq as (x & y & _ & Hy & ->).
    cbn [calculateVesselPoint sp_y].
    pose proof (row_fraction (layers params) y HL Hy) as Hv.
    nra.
Qed.

(** The top row of both shells is at the height of the vessel. *)
Lemma top_rows_meet (params : VesselParams) (textureData : option TextureData)
    (u : R) :
  (1 <= layers params)%Z -> height params <> 0 ->
  let v := IZR (layers params) / IZR (layers params) in
  sp_y (calculateVesselPoint params u v 0 0 1 textureData) = height params /\
  sp_y (calculateVesselPoint params u v (- wallThickness params)
          (wallThickness params)
          ((height params - wallThickness params) / height params) textureData)
  = height params.
Proof.
  intros HL Hh v. cbn [calculateVesselPoint sp_y]. unfold v.
  assert (H1 : 1 <= IZR (layers params)) by now apply IZR_le.
  split; field; lra.
Qed.

(** C5, as the code has it.  In solid mode the inner shell is evaluated
    with [radiusOffset = - wallThickness], [heightOffset = wallThickness]
    and [heightScale = (height - wallThickness) / height]; when the wall
    is not thicker than the vessel is high, the largest height of the inner
    grid and the largest height of the outer grid are both [height], so the
    rim closes without a gap. *)
Theorem rim_closes (params : VesselParams) (textureData : option TextureData) :
  (1 <= layers params)%Z -> (3 <= segments params)%Z ->
  0 < height params ->
  0 < wallThickness params -> wallThickness params <= height params ->
  let m := generateVesselMesh params textureData in
  vertices m =
    (flat_map push3 (outerShell params textureData) ++
     flat_map push3
       (shellPoints params textureData (- wallThickness params)
          (wallThickness params)
          ((height params - wallThickness params) / height params))) ++
    [0; 0; 0] ++ [0; wallThickness params; 0] /\
  maxHeight (map sp_y (innerShell params textureData)) = Some (height params) /\
  maxHeight (map sp_y (outerShell params textureData)) = Some (height params).
Proof.
  intros HL HS Hh Hw Hwh m. split; [|split].
  - unfold m, outerShell. now apply vertices_solid.
  - unfold innerShell. rewrite maxHeight_shell; try lia.
    + f_equal. field. lra.
    + replace (height params *
               ((height params - wallThickness params) / height params))
        with (height params - wallThickness params) by (field; lra).
      lra.
  - unfold outerShell. rewrite maxHeight_shell; try lia.
    + f_equal. lra.
    + lra.
Qed.

Lemma rim_closes_witness :
  let m := generateVesselMesh INITIAL_PARAMS None in
  vertices m =
    (flat_map push3 (outerShell INITIAL_PARAMS None) ++
     flat_map push3
       (shellPoints INITIAL_PARAMS None (- 2) 2 ((150 - 2) / 150))) ++
    [0; 0; 0] ++ [0; 2; 0] /\
  maxHeight (map sp_y (innerShell INITIAL_PARAMS None)) = Some 150 /\
  maxHeight (map sp_y (outerShell INITIAL_PARAMS None)) = Some 150.
Proof.
  apply (rim_closes INITIAL_PARAMS None); cbn; try lia; lra.
Defined.

(** C5 as stated fails when the wall is thicker than the vessel is high:
    with height 10 and wall thickness 20 the inner grid starts at height 20
    and descends to 10, so its largest height is 20 while the outer grid
    culminates at 10. *)
Lemma rim_closes_counterexample :
  (1 <= layers thickWallParams)%Z /\ (3 <= segments thickWallParams)%Z /\
  0 < height thickWallParams /\ 0 < wallThickness thickWallParams /\
  maxHeight (map sp_y (innerShell thickWallParams None)) = Some 20 /\
  maxHeight (map sp_y (outerShell thickWallParams None)) = Some 10 /\
  maxHeight (map sp_y (innerShell thickWallParams None)) <>
  maxHeight (map sp_y (outerShell thickWallParams None)).
Proof.
  assert (Hin : maxHeight (map sp_y (innerShell thickWallParams None)) = Some 20).
  { apply maxHeight_spec.
    - apply in_map_iff.
      exists (calculateVesselPoint thickWallParams
                (IZR 0 / IZR (segments thickWallParams))
                (IZR 0 / IZR (layers thickWallParams))
                (- wallThickness thickWallParams) (wallThickness thickWallParams)
                ((height thickWallParams - wallThickness thickWallParams) /
                 height thickWallParams) None).
      split.
      + cbn [calculateVesselPoint sp_y thickWallParams height wallThickness layers].
        field.
      + apply shellPoints_In; cbn; lia.
    - intros h Hh. apply in_map_iff in Hh. destruct Hh as [q [<- Hq]].
      apply In_shellPoints in Hq. destruct Hq as (x & y & _ & Hy & ->).
      pose proof (row_fraction (layers thickWallParams) y ltac:(cbn; lia) Hy) as Hv.
      cbn [calculateVesselPoint sp_y thickWallParams height wallThickness layers] in *.
      replace ((10 - 20) / 10) with (-1) by field. nra. }
  assert (Hout : maxHeight (map sp_y (outerShell thickWallParams None)) = Some 10).
  { unfold outerShell. rewrite maxHeight_shell; cbn; try lia; try lra.
    f_equal. lra. }
  split; [cbn; lia|]. split; [cbn; lia|]. split; [cbn; lra|]. split; [cbn; lra|].
  split; [exact Hin|]. split; [exact Hout|].
  rewrite Hin, Hout. intros H. injection H as H. lra.
Qed.

(** ** The G-code spiral *)


Lemma ePerMM_pos (params : VesselParams) :
  0 < height params -> (1 <= layers params)%Z ->
  0 < nozzleDiameter params -> 0 < filamentDiameter params ->
  0 < ePerMM params.
Proof.
  intros Hh HL Hn Hf. unfold ePerMM, Js.pow.
  assert (H1 : 1 <= IZR (layers params)) by now apply IZR_le.
  pose proof PI_RGT_0 as Hpi.
  apply Rdiv_lt_0_compat.
  - apply Rmult_lt_0_compat; [assumption|].
    apply Rdiv_lt_0_compat; lra.
  - apply Rmult_lt_0_compat; [lra|]. nra.
Qed.

(** One turn of the loop never lowers [currentE] and appends one line
    carrying the new value. *)
Lemma spiralStep_spec (params : VesselParams) (textureData : option TextureData)
    (s : Spiral) (i : Z) :
  0 <= ePerMM params ->
  let s' := spiralStep params textureData s i in
  currentE s <= currentE s' /\
  map g_E (emitted s') = map g_E (emitted s) ++ [currentE s'].
Proof.
  intros He s'. split.
  - unfold s', spiralStep. cbn [currentE].
    match goal with |- _ <= _ + sqrt ?a * _ => pose proof (sqrt_pos a) end.
    nra.
  - unfold s', spiralStep. cbn [emitted currentE]. now rewrite map_app.
Qed.




(** ** The statistics estimator *)

Lemma fold_left_sumTo (f : Z -> R) (n : nat) :
  fold_left (fun a i => a + f i) (map Z.of_nat (seq 0 n)) 0 =
  sumTo n (fun k => f (Z.of_nat k)).
Proof.
  induction n as [|n IH]; [reflexivity|].
  rewrite seq_S, map_app, fold_left_app, IH. reflexivity.
Qed.

Lemma avgR_mean (params : VesselParams) (textureData : option TextureData) (i : Z) :
  let v := IZR i / IZR (layers params) in
  avgR params textureData i =
  (radiusAt params textureData 0 v + radiusAt params textureData (1 / 4) v +
   radiusAt params textureData (1 / 2) v + radiusAt params textureData (3 / 4) v) / 4.
Proof.
  intros v. unfold avgR, ringSamples, radiusAt. fold v.
  change (Js.loop_lt 4) with [0%Z; 1%Z; 2%Z; 3%Z].
  cbn [map fold_left].
  replace (0 / 4) with 0 by lra.
  replace (2 / 4) with (1 / 2) by lra.
  lra.
Qed.

Lemma spiralDist_spec (params : VesselParams) (textureData : option TextureData) :
  spiralDist params textureData = spiralDistance_spec params textureData.
Proof.
  unfold spiralDist, spiralDistance_spec, Js.loop_lt.
  rewrite (fold_left_sumTo (fun i => 2 * PI * avgR params textureData i)).
  assert (Hext : forall n f g, (forall k, f k = g k) -> sumTo n f = sumTo n g).
  { intros n f g Hfg. induction n as [|n IH]; cbn; [reflexivity|].
    now rewrite IH, Hfg. }
  apply Hext. intros k. rewrite avgR_mean. now rewrite INR_IZR_INZ.
Qed.

Lemma length_walkSamples (params : VesselParams) (textureData : option TextureData)
    (i : Z) :
  length (walkSamples params textureData i) =
  Z.to_nat (Z.min (segments params) 20 + 1).
Proof.
  unfold walkSamples. now rewrite length_map, length_loop_le.
Qed.

(** C9, as the code has it.  The estimated time is the spiral distance
    divided by the print speed, the spiral distance being the sum over the
    layers of [2 pi] times the mean radius at [u = 0, 1/4, 1/2, 3/4]; the
    point-to-point loop runs [j] from [0] to [min(segments, 20)]
    inclusive, hence evaluates [min(segments, 20) + 1] points per layer, at
    most 21 whatever [segments] is. *)
Theorem print_stats_estimate (params : VesselParams)
    (textureData : option TextureData) :
  estimatedTime (calculatePrintStats params textureData) =
    spiralDistance_spec params textureData / printSpeed params /\
  (sampleSteps params <= 20)%Z /\
  forall i : Z,
    length (walkSamples params textureData i) =
      Z.to_nat (Z.min (segments params) 20 + 1) /\
    (length (walkSamples params textureData i) <= 21)%nat.
Proof.
  split; [|split].
  - unfold calculatePrintStats. cbn [estimatedTime]. now rewrite spiralDist_spec.
  - unfold sampleSteps, Js.min. lia.
  - intros i. rewrite length_walkSamples. split; [reflexivity | lia].
Qed.

(** C9 as stated fails on the number of samples: with the initial
    parameters (120 segments) the point-to-point loop evaluates 21 points
    on a layer, not at most 20. *)
Lemma print_stats_samples_counterexample :
  length (walkSamples INITIAL_PARAMS None 0) = 21%nat /\
  ~ (length (walkSamples INITIAL_PARAMS None 0) <= 20)%nat.
Proof.
  rewrite length_walkSamples. cbn. split; [reflexivity | lia].
Qed.

(** ** The STL facet normal *)

Lemma facetLen_nonzero (v1 v2 v3 : Vec3) : facetLen v1 v2 v3 <> 0.
Proof.
  unfold facetLen, Js.or_else.
  match goal with |- (if ?c then _ else _) <> _ => destruct c end; lra.
Qed.

Lemma facetNormal_degenerate (v1 v2 v3 : Vec3) :
  norm (faceCross v1 v2 v3) = 0 ->
  facetLen v1 v2 v3 = 1 /\
  facetNormal v1 v2 v3 = {| vx := 0; vy := 0; vz := 0 |}.
Proof.
  set (n := faceCross v1 v2 v3).
  assert (Hsq : 0 <= vx n * vx n + vy n * vy n + vz n * vz n) by nra.
  intros H0. unfold norm in H0.
  assert (Hlen : facetLen v1 v2 v3 = 1).
  { unfold facetLen, Js.or_else. fold n.
    destruct (Req_dec_T _ 0) as [_|Hc]; [reflexivity | contradiction]. }
  split; [exact Hlen|].
  apply sqrt_eq_0 in H0; [|exact Hsq].
  assert (Hx : vx n = 0) by nra.
  assert (Hy : vy n = 0) by nra.
  assert (Hz : vz n = 0) by nra.
  unfold facetNormal. fold n. rewrite Hlen, Hx, Hy, Hz.
  f_equal; lra.
Qed.

(** C4, as the code has it.  The divisor [len] of the facet normal is
    never zero, so no component is the undefined quotient [0/0]; on a
    degenerate triangle (zero cross product) the divisor falls back to 1
    and the emitted normal is the zero vector [(0, 0, 0)]; on every other
    triangle the emitted normal has Euclidean length 1. *)
Theorem facet_normal_unit_or_zero (v1 v2 v3 : Vec3) :
  facetLen v1 v2 v3 <> 0 /\
  (norm (faceCross v1 v2 v3) = 0 ->
   facetLen v1 v2 v3 = 1 /\
   facetNormal v1 v2 v3 = {| vx := 0; vy := 0; vz := 0 |}) /\
  (norm (faceCross v1 v2 v3) <> 0 ->
   norm (facetNormal v1 v2 v3) = 1) /\
  (forall params textureData f,
     In f (exportSTL params textureData) ->
     facet_normal f = facetNormal (facet_v1 f) (facet_v2 f) (facet_v3 f)).
Proof.
  split; [apply facetLen_nonzero|].
  set (n := faceCross v1 v2 v3).
  assert (Hsq : 0 <= vx n * vx n + vy n * vy n + vz n * vz n) by nra.
  split; [|split].
  - apply facetNormal_degenerate.
  - intros Hn. unfold norm in Hn.
    assert (Hlen : facetLen v1 v2 v3 =
                   sqrt (vx n * vx n + vy n * vy n + vz n * vz n)).
    { unfold facetLen, Js.or_else. fold n.
      destruct (Req_dec_T _ 0) as [Hc|_]; [contradiction | reflexivity]. }
    pose proof (sqrt_pos (vx n * vx n + vy n * vy n + vz n * vz n)) as Hp.
    pose proof (sqrt_sqrt _ Hsq) as Hss.
    unfold norm, facetNormal. fold n. cbn [vx vy vz]. rewrite Hlen.
    set (len := sqrt (vx n * vx n + vy n * vy n + vz n * vz n)) in *.
    replace (vx n / len * (vx n / len) + vy n / len * (vy n / len) +
             vz n / len * (vz n / len))
      with ((vx n * vx n + vy n * vy n + vz n * vz n) / (len * len))
      by (field; exact Hn).
    rewrite <- Hss. unfold Rdiv. rewrite Rinv_r by nra.
    apply sqrt_1.
  - intros params textureData f Hf. unfold exportSTL in Hf.
    apply in_map_iff in Hf. destruct Hf as [i [<- _]]. reflexivity.
Qed.

Lemma facet_normal_unit_or_zero_witness :
  let o := {| vx := 0; vy := 0; vz := 0 |} in
  let a := {| vx := 1; vy := 0; vz := 0 |} in
  let b := {| vx := 0; vy := 1; vz := 0 |} in
  facetNormal o o o = {| vx := 0; vy := 0; vz := 0 |} /\
  norm (facetNormal o a b) = 1.
Proof.
  intros o a b. split.
  - apply (facet_normal_unit_or_zero o o o). unfold norm. cbn.
    replace (_ + _) with 0 by ring. apply sqrt_0.
  - apply (facet_normal_unit_or_zero o a b). unfold norm. cbn.
    replace (_ + _) with 1 by ring. rewrite sqrt_1. lra.
Defined.

(** ** Malformed configurations *)

Lemma length_generateVesselMesh_evaluated (params : VesselParams)
    (textureData : option TextureData) :
  length (generateVesselMesh_evaluated params textureData) =
  ((if Rle_dec (wallThickness params) 0 then 1 else 2) *
   (Z.to_nat (layers params + 1) * Z.to_nat (segments params + 1)))%nat.
Proof.
  unfold generateVesselMesh_evaluated.
  destruct (Rle_dec (wallThickness params) 0).
  - rewrite length_shellPoints. lia.
  - rewrite length_app, !length_shellPoints. lia.
Qed.

(** C1, as the code has it.  The three generators hold no check of
    [layers] or [segments]: on every parameter set, malformed or not, each
    of them returns normally; the mesh builder evaluates one surface point
    per grid position, [(layers + 1) * (segments + 1)] of them per shell
    (hence [segments + 1] points when [layers = 0]), and the estimator and
    the G-code generator evaluate the point at [u = 0], [v = 0] before
    entering any loop. *)
Theorem no_configuration_check (params : VesselParams)
    (textureData : option TextureData) :
  returns (run_generateVesselMesh params textureData) /\
  returns (run_calculatePrintStats params textureData) /\
  returns (run_exportGCODE params textureData) /\
  length (evaluated (run_generateVesselMesh params textureData)) =
    ((if Rle_dec (wallThickness params) 0 then 1 else 2) *
     (Z.to_nat (layers params + 1) * Z.to_nat (segments params + 1)))%nat /\
  (exists rest,
     evaluated (run_calculatePrintStats params textureData) =
     calculateVesselPoint params 0 0 0 0 1 textureData :: rest) /\
  (exists rest,
     evaluated (run_exportGCODE params textureData) =
     calculateVesselPoint params 0 0 0 0 1 textureData :: rest).
Proof.
  repeat split.
  - now exists (generateVesselMesh params textureData).
  - now exists (calculatePrintStats params textureData).
  - now exists (exportGCODE params textureData).
  - apply length_generateVesselMesh_evaluated.
  - cbn [run_calculatePrintStats evaluated]. unfold calculatePrintStats_evaluated.
    eexists. reflexivity.
  - cbn [run_exportGCODE evaluated]. unfold exportGCODE_evaluated.
    eexists. reflexivity.
Qed.

(** C1 as stated fails: with [layers = 0] none of the three generators
    fails fast; the mesh builder returns a mesh after evaluating five
    surface points. *)
Lemma fail_fast_counterexample :
  (layers zeroLayerParams <= 0)%Z /\
  ~ failsFast (run_generateVesselMesh zeroLayerParams None) /\
  ~ failsFast (run_calculatePrintStats zeroLayerParams None) /\
  ~ failsFast (run_exportGCODE zeroLayerParams None) /\
  length (evaluated (run_generateVesselMesh zeroLayerParams None)) = 5%nat /\
  length (vertices (generateVesselMesh zeroLayerParams None)) = 15%nat.
Proof.
  split; [cbn; lia|].
  split; [intros [[e He] _]; discriminate He|].
  split; [intros [[e He] _]; discriminate He|].
  split; [intros [[e He] _]; discriminate He|].
  split.
  - cbn [run_generateVesselMesh evaluated].
    rewrite length_generateVesselMesh_evaluated.
    destruct (Rle_dec (wallThickness zeroLayerParams) 0) as [_|Hc];
      [reflexivity | cbn in Hc; lra].
  - unfold generateVesselMesh.
    destruct (Rle_dec (wallThickness zeroLayerParams) 0) as [_|Hc];
      [|cbn in Hc; lra].
    cbn [vertices]. rewrite length_push3, length_shellPoints. reflexivity.
Qed.

(** ** The evaluated points are those the results are built from *)

(** The vertex buffer is the list of evaluated points, followed in solid
    mode by the two apexes, which are not evaluated. *)
Lemma vertices_of_evaluated (params : VesselParams)
    (textureData : option TextureData) :
  vertices (generateVesselMesh params textureData) =
  flat_map push3 (generateVesselMesh_evaluated params textureData) ++
  (if Rle_dec (wallThickness params) 0 then []
   else [0; 0; 0; 0; wallThickness params; 0]).
Proof.
  unfold generateVesselMesh, generateVesselMesh_evaluated.
  destruct (Rle_dec (wallThickness params) 0); cbn [vertices].
  - now rewrite app_nil_r.
  - rewrite flat_map_app, <- !app_assoc. reflexivity.
Qed.

(** The [G1] lines visit the evaluated spiral points, with the mesh axes
    y and z exchanged. *)
Lemma spiral_fold_positions (params : VesselParams)
    (textureData : option TextureData) (l : list Z) (s : Spiral) :
  map (fun m => (g_X m, g_Y m, g_Z m))
      (emitted (fold_left (spiralStep params textureData) l s)) =
  map (fun m => (g_X m, g_Y m, g_Z m)) (emitted s) ++
  map (fun i => let p := spiralPoint params textureData i in
                (sp_x p, sp_z p, sp_y p)) l.
Proof.
  revert s. induction l as [|i l IH]; intros s; cbn [fold_left map].
  - now rewrite app_nil_r.
  - rewrite IH.
    assert (He : emitted (spiralStep params textureData s i) =
                 emitted s ++
                 [{| g_X := sp_x (spiralPoint params textureData i);
                     g_Y := sp_z (spiralPoint params textureData i);
                     g_Z := sp_y (spiralPoint params textureData i);
                     g_E := currentE (spiralStep params textureData s i) |}])
      by reflexivity.
    rewrite He, map_app, <- app_assoc. reflexivity.
Qed.

Lemma gcode_moves_positions (params : VesselParams)
    (textureData : option TextureData) :
  map (fun m => (g_X m, g_Y m, g_Z m))
      (gcode_moves (exportGCODE params textureData)) =
  map (fun p => (sp_x p, sp_z p, sp_y p))
      (tl (exportGCODE_evaluated params textureData)).
Proof.
  unfold exportGCODE, exportGCODE_evaluated. cbn [gcode_moves tl].
  rewrite spiral_fold_positions. cbn [emitted map app].
  now rewrite map_map.
Qed.

(** * Further properties of the code *)

(** ** Sizes of the mesh *)

Lemma length_quads (f : Z -> Z -> list Z) (k n : Z) :
  (0 <= k)%Z -> (0 <= n)%Z -> (forall y x, length (f y x) = 6%nat) ->
  Z.of_nat (length (flat_map (fun y => flat_map (f y) (Js.loop_lt n))
                      (Js.loop_lt k))) = (6 * k * n)%Z.
Proof.
  intros Hk Hn Hf.
  rewrite (length_flat_map_const _ _ (Z.to_nat n * 6)).
  - rewrite length_loop_lt. nia.
  - intros y. rewrite (length_flat_map_const _ _ 6) by apply Hf.
    now rewrite length_loop_lt.
Qed.

Lemma length_fan (f : Z -> list Z) (n : Z) (c : nat) :
  (0 <= n)%Z -> (forall x, length (f x) = c) ->
  Z.of_nat (length (flat_map f (Js.loop_lt n))) = (Z.of_nat c * n)%Z.
Proof.
  intros Hn Hf. rewrite (length_flat_map_const _ _ c) by apply Hf.
  rewrite length_loop_lt. nia.
Qed.

(** X1.  The number of vertices and of triangles of the mesh, in both
    modes, for any non-negative resolution. *)
Theorem mesh_counts (params : VesselParams) (textureData : option TextureData) :
  (0 <= layers params)%Z -> (0 <= segments params)%Z ->
  let m := generateVesselMesh params textureData in
  let L := layers params in
  let S := segments params in
  (wallThickness params <= 0 ->
   vertexCount m = ((L + 1) * (S + 1))%Z /\ triangleCount m = (2 * L * S)%Z) /\
  (0 < wallThickness params ->
   vertexCount m = (2 * ((L + 1) * (S + 1)) + 2)%Z /\
   triangleCount m = (4 * L * S + 4 * S)%Z).
Proof.
  intros HL HS m L S. split; intros Hw.
  - split; [now apply vertexCount_vase|].
    unfold triangleCount, m, generateVesselMesh.
    destruct (Rle_dec (wallThickness params) 0) as [_|Hc]; [|contradiction].
    cbn [indices]. unfold vaseIndices.
    rewrite length_quads by (try assumption; reflexivity).
    replace (6 * layers params * segments params)%Z with ((2 * L * S) * 3)%Z
      by (unfold L, S; lia).
    now rewrite Z.div_mul.
  - split; [now apply vertexCount_solid|].
    unfold triangleCount, m. rewrite indices_solid by assumption.
    rewrite !length_app, !Nat2Z.inj_add.
    unfold outerShellIndices, innerShellIndices, rimIndices,
      outerCapIndices, innerCapIndices.
    rewrite !length_quads by (try assumption; reflexivity).
    rewrite (length_fan _ _ 6), !(length_fan _ _ 3)
      by (try assumption; reflexivity).
    replace (6 * layers params * segments params +
             (6 * layers params * segments params +
              (Z.of_nat 6 * segments params +
               (Z.of_nat 3 * segments params + Z.of_nat 3 * segments params))))%Z
      with ((4 * L * S + 4 * S) * 3)%Z by (unfold L, S; lia).
    now rewrite Z.div_mul.
Qed.

Lemma mesh_counts_witness :
  let m := generateVesselMesh INITIAL_PARAMS None in
  (2 <= 0 -> vertexCount m = ((150 + 1) * (120 + 1))%Z /\
             triangleCount m = (2 * 150 * 120)%Z) /\
  (0 < 2 -> vertexCount m = (2 * ((150 + 1) * (120 + 1)) + 2)%Z /\
            triangleCount m = (4 * 150 * 120 + 4 * 120)%Z).
Proof. apply (mesh_counts INITIAL_PARAMS None); cbn; lia. Defined.

(** ** Where a grid vertex is stored *)

Lemma nth_grid {A : Type} (f : Z -> Z -> A) (cols rows s y x : nat) (d : A) :
  (y < rows)%nat -> (x < cols)%nat ->
  nth (y * cols + x)
    (flat_map (fun r => map (f r) (map Z.of_nat (seq 0 cols)))
       (map Z.of_nat (seq s rows))) d =
  f (Z.of_nat (s + y)) (Z.of_nat x).
Proof.
  revert s y. induction rows as [|rows IH]; intros s y Hy Hx; [lia|].
  cbn [seq map flat_map].
  assert (Hlen : length (map (f (Z.of_nat s)) (map Z.of_nat (seq 0 cols))) = cols)
    by now rewrite !length_map, length_seq.
  destruct y as [|y].
  - rewrite app_nth1 by (rewrite Hlen; lia).
    cbn [Nat.mul Nat.add]. rewrite Nat.add_0_r.
    rewrite (nth_indep _ d (f (Z.of_nat s) (Z.of_nat 0)))
      by (rewrite Hlen; lia).
    rewrite map_map.
    rewrite (map_nth (fun k => f (Z.of_nat s) (Z.of_nat k)) (seq 0 cols) 0%nat x).
    now rewrite seq_nth.
  - rewrite app_nth2 by (rewrite Hlen; lia).
    rewrite Hlen.
    replace (S y * cols + x - cols)%nat with (y * cols + x)%nat by lia.
    rewrite IH by lia. f_equal. lia.
Qed.

Lemma nth_shellPoints (params : VesselParams) (textureData : option TextureData)
    (ro ho hs : R) (y x : Z) (d : SurfacePoint) :
  (0 <= y <= layers params)%Z -> (0 <= x <= segments params)%Z ->
  nth (Z.to_nat (gridIndex params y x))
      (shellPoints params textureData ro ho hs) d =
  calculateVesselPoint params (IZR x / IZR (segments params))
    (IZR y / IZR (layers params)) ro ho hs textureData.
Proof.
  intros Hy Hx. unfold shellPoints, Js.loop_le, gridIndex.
  replace (Z.to_nat (y * (segments params + 1) + x))
    with (Z.to_nat y * Z.to_nat (segments params + 1) + Z.to_nat x)%nat by nia.
  rewrite (nth_grid (fun r c =>
             calculateVesselPoint params (IZR c / IZR (segments params))
               (IZR r / IZR (layers params)) ro ho hs textureData)) by lia.
  cbn [Nat.add]. now rewrite !Z2Nat.id by lia.
Qed.

Lemma gridIndex_bound (params : VesselParams) (y x : Z) :
  (0 <= y <= layers params)%Z -> (0 <= x <= segments params)%Z ->
  (0 <= gridIndex params y x < gridSize params)%Z.
Proof. unfold gridIndex, gridSize. nia. Qed.

Lemma vertices_outer_first (params : VesselParams)
    (textureData : option TextureData) :
  exists rest,
    vertices (generateVesselMesh params textureData) =
    flat_map push3 (shellPoints params textureData 0 0 1) ++ rest.
Proof.
  unfold generateVesselMesh.
  destruct (Rle_dec (wallThickness params) 0); cbn [vertices].
  - exists []. now rewrite app_nil_r.
  - eexists. rewrite <- !app_assoc. reflexivity.
Qed.

Lemma length_shellPoints_Z (params : VesselParams)
    (textureData : option TextureData) (ro ho hs : R) :
  (0 <= layers params)%Z -> (0 <= segments params)%Z ->
  Z.of_nat (length (shellPoints params textureData ro ho hs)) = gridSize params.
Proof. intros HL HS. rewrite length_shellPoints. unfold gridSize. nia. Qed.

Lemma outer_vertex (params : VesselParams) (textureData : option TextureData)
    (y x : Z) :
  (0 <= y <= layers params)%Z -> (0 <= x <= segments params)%Z ->
  vertexAt (generateVesselMesh params textureData) (gridIndex params y x) =
  xyz (calculateVesselPoint params (IZR x / IZR (segments params))
         (IZR y / IZR (layers params)) 0 0 1 textureData).
Proof.
  intros Hy Hx.
  destruct (vertices_outer_first params textureData) as [rest Hv].
  pose proof (gridIndex_bound params y x Hy Hx) as Hb.
  rewrite (vertexAt_grid _ _ rest _
             (calculateVesselPoint params 0 0 0 0 1 textureData) Hv).
  - now rewrite nth_shellPoints.
  - rewrite length_shellPoints_Z by lia. exact Hb.
Qed.

Lemma inner_vertex (params : VesselParams) (textureData : option TextureData)
    (y x : Z) :
  0 < wallThickness params ->
  (0 <= y <= layers params)%Z -> (0 <= x <= segments params)%Z ->
  vertexAt (generateVesselMesh params textureData)
    (gridSize params + gridIndex params y x) =
  xyz (calculateVesselPoint params (IZR x / IZR (segments params))
         (IZR y / IZR (layers params)) (- wallThickness params)
         (wallThickness params)
         ((height params - wallThickness params) / height params) textureData).
Proof.
  intros Hw Hy Hx.
  pose proof (gridIndex_bound params y x Hy Hx) as Hb.
  pose proof (vertices_solid params textureData Hw) as Hv.
  set (inner := shellPoints params textureData (- wallThickness params)
                  (wallThickness params)
                  ((height params - wallThickness params) / height params)) in *.
  set (outer := shellPoints params textureData 0 0 1) in *.
  set (d := calculateVesselPoint params 0 0 0 0 1 textureData).
  assert (Hlo : Z.of_nat (length (flat_map push3 outer)) = (3 * gridSize params)%Z).
  { rewrite length_push3. unfold outer. rewrite length_shellPoints.
    unfold gridSize. nia. }
  assert (Hli : Z.of_nat (length inner) = gridSize params)
    by (unfold inner; apply length_shellPoints_Z; lia).
  assert (Hn : forall j, (0 <= j <= 2)%Z ->
            Js.num_get (vertices (generateVesselMesh params textureData))
              (3 * (gridSize params + gridIndex params y x) + j) =
            nth (3 * Z.to_nat (gridIndex params y x) + Z.to_nat j)
              (flat_map push3 inner) 0).
  { intros j Hj. unfold Js.num_get. rewrite Hv.
    destruct (Z.ltb_spec (3 * (gridSize params + gridIndex params y x) + j) 0);
      [lia|].
    rewrite <- app_assoc.
    replace (Z.to_nat (3 * (gridSize params + gridIndex params y x) + j))
      with (length (flat_map push3 outer) +
            (3 * Z.to_nat (gridIndex params y x) + Z.to_nat j))%nat by lia.
    rewrite app_nth2_plus. apply app_nth1. rewrite length_push3. lia. }
  destruct (nth_push3 inner (Z.to_nat (gridIndex params y x)) d) as (H0 & H1 & H2);
    [lia|].
  pose proof (Hn 0%Z ltac:(lia)) as E0.
  pose proof (Hn 1%Z ltac:(lia)) as E1.
  pose proof (Hn 2%Z ltac:(lia)) as E2.
  change (Z.to_nat 0) with 0%nat in E0. change (Z.to_nat 1) with 1%nat in E1.
  change (Z.to_nat 2) with 2%nat in E2.
  rewrite Nat.add_0_r, H0 in E0. rewrite H1 in E1. rewrite H2 in E2.
  rewrite Z.add_0_r in E0.
  unfold vertexAt. rewrite E0, E1, E2.
  unfold inner. now rewrite nth_shellPoints.
Qed.

(** X2.  The grid vertex of row [y] and column [x] is stored at index
    [y * (segments + 1) + x] and is the surface point at
    [u = x / segments], [v = y / layers]; in solid mode the inner grid
    follows the outer one and holds at the same position the point
    evaluated with the inner offsets. *)
Theorem grid_vertex_location (params : VesselParams)
    (textureData : option TextureData) (y x : Z) :
  (0 <= y <= layers params)%Z -> (0 <= x <= segments params)%Z ->
  let m := generateVesselMesh params textureData in
  let u := IZR x / IZR (segments params) in
  let v := IZR y / IZR (layers params) in
  vertexAt m (gridIndex params y x) =
    xyz (calculateVesselPoint params u v 0 0 1 textureData) /\
  (0 < wallThickness params ->
   vertexAt m (gridSize params + gridIndex params y x) =
     xyz (calculateVesselPoint params u v (- wallThickness params)
            (wallThickness params)
            ((height params - wallThickness params) / height params)
            textureData)).
Proof.
  intros Hy Hx m u v. split.
  - now apply outer_vertex.
  - intros Hw. now apply inner_vertex.
Qed.

Lemma grid_vertex_location_witness :
  let m := generateVesselMesh INITIAL_PARAMS None in
  vertexAt m (gridIndex INITIAL_PARAMS 75 30) =
    xyz (calculateVesselPoint INITIAL_PARAMS (30 / 120) (75 / 150) 0 0 1 None) /\
  (0 < 2 ->
   vertexAt m (gridSize INITIAL_PARAMS + gridIndex INITIAL_PARAMS 75 30) =
     xyz (calculateVesselPoint INITIAL_PARAMS (30 / 120) (75 / 150) (- 2) 2
            ((150 - 2) / 150) None)).
Proof. apply (grid_vertex_location INITIAL_PARAMS None 75 30); cbn; lia. Defined.

(** ** One more turn around the axis *)

Lemma Int_part_succ (q : R) : Int_part (q + 1) = (Int_part q + 1)%Z.
Proof.
  symmetry. apply Int_part_spec.
  destruct (base_Int_part q) as [H1 H2]. rewrite plus_IZR. split; lra.
Qed.

Lemma rem_add_period (a b : R) : 0 <= a -> 0 < b -> Js.rem (a + b) b = Js.rem a b.
Proof.
  intros Ha Hb. unfold Js.rem, Js.trunc.
  assert (Hq : 0 <= a / b)
    by (apply Rmult_le_pos; [lra | left; now apply Rinv_0_lt_compat]).
  replace ((a + b) / b) with (a / b + 1) by (field; lra).
  destruct (Rle_dec 0 (a / b + 1)) as [_|Hn]; [|lra].
  destruct (Rle_dec 0 (a / b)) as [_|Hn]; [|contradiction].
  rewrite Int_part_succ, plus_IZR. ring.
Qed.

Lemma textureTexel_period (t : TextureData) (u v : R) :
  (1 <= tex_width t)%Z -> 0 <= u ->
  textureTexel t (u + 1) v = textureTexel t u v.
Proof.
  intros Hw Hu.
  assert (HW : 1 <= IZR (tex_width t)) by now apply IZR_le.
  assert (Hr : Js.rem ((u + 1) * IZR (tex_width t)) (IZR (tex_width t)) =
               Js.rem (u * IZR (tex_width t)) (IZR (tex_width t))).
  { replace ((u + 1) * IZR (tex_width t))
      with (u * IZR (tex_width t) + IZR (tex_width t)) by ring.
    apply rem_add_period; nra. }
  unfold textureTexel. now rewrite Hr.
Qed.

Lemma point_period (params : VesselParams) (k : nat) (u v ro ho hs : R)
    (textureData : option TextureData) :
  noiseFrequency params = INR k -> 0 <= u ->
  (forall t, textureData = Some t -> (1 <= tex_width t)%Z) ->
  calculateVesselPoint params (u + 1) v ro ho hs textureData =
  calculateVesselPoint params u v ro ho hs textureData.
Proof.
  intros Hf Hu Ht. unfold calculateVesselPoint.
  assert (Hc : cos ((u + 1) * PI * 2) = cos (u * PI * 2)).
  { replace ((u + 1) * PI * 2) with (u * PI * 2 + 2 * INR 1 * PI)
      by (cbn [INR]; ring).
    apply cos_period. }
  assert (Hs : sin ((u + 1) * PI * 2) = sin (u * PI * 2)).
  { replace ((u + 1) * PI * 2) with (u * PI * 2 + 2 * INR 1 * PI)
      by (cbn [INR]; ring).
    apply sin_period. }
  assert (Hn : sin (((u + 1) * PI * 2 + v * twist params) * noiseFrequency params) =
               sin ((u * PI * 2 + v * twist params) * noiseFrequency params)).
  { rewrite Hf.
    replace (((u + 1) * PI * 2 + v * twist params) * INR k)
      with ((u * PI * 2 + v * twist params) * INR k + 2 * INR k * PI) by ring.
    apply sin_period. }
  assert (Hx : match textureData with
               | Some t => textureValue t (u + 1) v = textureValue t u v
               | None => True
               end).
  { destruct textureData as [t|]; [|exact I].
    unfold textureValue. rewrite textureTexel_period; [reflexivity | | exact Hu].
    now apply Ht. }
  rewrite Hc, Hs, Hn.
  destruct textureData as [t|]; [rewrite Hx|]; reflexivity.
Qed.

(** X3.  When the noise frequency is a whole number, the surface point
    is the same after one more turn, [u + 1] against [u], for every
    [u >= 0]: the angle, the noise and the texture column all wrap. *)
Theorem surface_point_periodic (params : VesselParams) (k : nat)
    (u v radiusOffset heightOffset heightScale : R)
    (textureData : option TextureData) :
  noiseFrequency params = INR k -> 0 <= u ->
  (forall t, textureData = Some t -> (1 <= tex_width t)%Z) ->
  calculateVesselPoint params (u + 1) v radiusOffset heightOffset heightScale
    textureData =
  calculateVesselPoint params u v radiusOffset heightOffset heightScale
    textureData.
Proof. apply point_period. Qed.

Lemma surface_point_periodic_witness :
  calculateVesselPoint INITIAL_PARAMS (1 / 4 + 1) (1 / 2) 0 0 1 None =
  calculateVesselPoint INITIAL_PARAMS (1 / 4) (1 / 2) 0 0 1 None.
Proof.
  apply (surface_point_periodic INITIAL_PARAMS 5).
  - cbn. lra.
  - lra.
  - intros t Ht. discriminate Ht.
Defined.

(** X4.  With a whole noise frequency and at least one segment, the
    first and the last vertex of every grid row coincide: the seam of the
    outer surface is closed, and so is the seam of the inner shell. *)
Theorem seam_closed (params : VesselParams) (k : nat)
    (textureData : option TextureData) (y : Z) :
  noiseFrequency params = INR k ->
  (1 <= segments params)%Z -> (0 <= y <= layers params)%Z ->
  (forall t, textureData = Some t -> (1 <= tex_width t)%Z) ->
  let m := generateVesselMesh params textureData in
  vertexAt m (gridIndex params y (segments params)) =
    vertexAt m (gridIndex params y 0) /\
  (0 < wallThickness params ->
   vertexAt m (gridSize params + gridIndex params y (segments params)) =
     vertexAt m (gridSize params + gridIndex params y 0)).
Proof.
  intros Hf HS Hy Ht m.
  assert (H1 : IZR (segments params) / IZR (segments params) = 0 + 1).
  { assert (1 <= IZR (segments params)) by now apply IZR_le. field. lra. }
  assert (H0 : IZR 0 / IZR (segments params) = 0) by (unfold Rdiv; ring).
  split.
  - unfold m. rewrite !outer_vertex by lia.
    rewrite H1, H0. rewrite (point_period params k) by (try assumption; lra).
    reflexivity.
  - intros Hw. unfold m. rewrite !inner_vertex by (try assumption; lia).
    rewrite H1, H0. rewrite (point_period params k) by (try assumption; lra).
    reflexivity.
Qed.

Lemma seam_closed_witness :
  let m := generateVesselMesh INITIAL_PARAMS None in
  vertexAt m (gridIndex INITIAL_PARAMS 10 120) =
    vertexAt m (gridIndex INITIAL_PARAMS 10 0) /\
  (0 < 2 ->
   vertexAt m (gridSize INITIAL_PARAMS + gridIndex INITIAL_PARAMS 10 120) =
     vertexAt m (gridSize INITIAL_PARAMS + gridIndex INITIAL_PARAMS 10 0)).
Proof.
  apply (seam_closed INITIAL_PARAMS 5 None 10).
  - cbn. lra.
  - cbn. lia.
  - cbn. lia.
  - intros t Ht. discriminate Ht.
Defined.

(** ** The texture lookup *)

Lemma u8_get_range (a : list Byte.byte) (i : Z) : 0 <= Js.u8_get a i <= 255.
Proof.
  unfold Js.u8_get. destruct (i <? 0)%Z; [lra|].
  destruct (nth_error a (Z.to_nat i)) as [b|]; [|lra].
  pose proof (Byte.to_N_bounded b) as Hb.
  split.
  - apply IZR_le. lia.
  - apply IZR_le. lia.
Qed.

Lemma frac_range (a : R) : 0 <= a - IZR (Js.floor a) < 1.
Proof. unfold Js.floor. destruct (base_Int_part a). lra. Qed.

Lemma bilinear_range (a b c d dx dy lo hi : R) :
  lo <= a <= hi -> lo <= b <= hi -> lo <= c <= hi -> lo <= d <= hi ->
  0 <= dx <= 1 -> 0 <= dy <= 1 ->
  lo <= (a * (1 - dx) + b * dx) * (1 - dy) + (c * (1 - dx) + d * dx) * dy <= hi.
Proof.
  intros Ha Hb Hc Hd Hx Hy.
  assert (H1 : lo <= a * (1 - dx) + b * dx <= hi) by nra.
  assert (H2 : lo <= c * (1 - dx) + d * dx <= hi) by nra.
  nra.
Qed.

Lemma textureValue_range (t : TextureData) (u v : R) :
  0 <= textureValue t u v <= 1.
Proof.
  unfold textureValue.
  set (c := textureTexel t u v).
  pose proof (frac_range (texX c)) as Hx.
  pose proof (frac_range (texY c)) as Hy.
  change (Js.floor (texX c)) with (x1 c) in Hx.
  change (Js.floor (texY c)) with (y1 c) in Hy.
  pose proof (bilinear_range
                (Js.u8_get (tex_data t) (i11 c)) (Js.u8_get (tex_data t) (i21 c))
                (Js.u8_get (tex_data t) (i12 c)) (Js.u8_get (tex_data t) (i22 c))
                (texX c - IZR (x1 c)) (texY c - IZR (y1 c)) 0 255
                (u8_get_range _ _) (u8_get_range _ _)
                (u8_get_range _ _) (u8_get_range _ _)) as Hb.
  assert (H255 : 255.0 = 255) by lra. rewrite H255.
  split.
  - apply Rmult_le_pos; [apply Hb; lra | lra].
  - apply Rmult_le_reg_r with 255; [lra|].
    unfold Rdiv. rewrite Rmult_assoc, Rinv_l, Rmult_1_r by lra.
    rewrite Rmult_1_l. apply Hb; lra.
Qed.

(** X5.  On a well-formed grid, for [u >= 0] and [v] in [[0,1]], the
    interpolated luminance lies in [[0, 1]]: the texture moves the radius
    outwards by at most [textureInfluence], and never inwards. *)
Theorem texture_value_normalized (t : TextureData) (u v : R) :
  wellFormedTexture t -> 0 <= u -> 0 <= v <= 1 ->
  0 <= textureValue t u v <= 1.
Proof. intros _ _ _. apply textureValue_range. Qed.

Lemma texture_value_normalized_witness :
  let t := {| tex_data := [Byte.x00; Byte.x40; Byte.x80; Byte.xff];
              tex_width := 2; tex_height := 2 |} in
  0 <= textureValue t (3 / 4) (1 / 4) <= 1.
Proof.
  intros t. apply (texture_value_normalized t (3 / 4) (1 / 4)).
  - unfold wellFormedTexture. cbn. lia.
  - lra.
  - lra.
Defined.

Lemma u8_get_const (a : list Byte.byte) (c : Byte.byte) (i : Z) :
  Forall (eq c) a -> (0 <= i < Z.of_nat (length a))%Z ->
  Js.u8_get a i = IZR (Z.of_N (Byte.to_N c)).
Proof.
  intros Hall Hi. unfold Js.u8_get.
  destruct (Z.ltb_spec i 0); [lia|].
  destruct (nth_error a (Z.to_nat i)) as [b|] eqn:Hn.
  - apply nth_error_In in Hn. rewrite Forall_forall in Hall.
    now rewrite (Hall b Hn).
  - apply nth_error_None in Hn. lia.
Qed.

(** X6.  A uniform grid, every sample equal to [c], is read back as
    [c / 255] at every position: black displaces by nothing, white by the
    full [textureInfluence]. *)
Theorem uniform_texture_value (t : TextureData) (c : Byte.byte) (u v : R) :
  wellFormedTexture t -> Forall (eq c) (tex_data t) ->
  0 <= u -> 0 <= v <= 1 ->
  textureValue t u v = IZR (Z.of_N (Byte.to_N c)) / 255.
Proof.
  intros (Hw & Hh & Hlen) Hall Hu Hv.
  destruct (texel_cell t u v Hw Hh Hu Hv) as (Hx1 & Hy1 & Hx2 & Hy2).
  set (cell := textureTexel t u v) in *.
  assert (Hi : forall x y, (0 <= x < tex_width t -> 0 <= y < tex_height t ->
                 0 <= y * tex_width t + x < Z.of_nat (length (tex_data t)))%Z).
  { intros x y Hx Hy. rewrite Hlen. nia. }
  unfold textureValue. fold cell.
  change (i11 cell) with (y1 cell * tex_width t + x1 cell)%Z.
  change (i21 cell) with (y1 cell * tex_width t + x2 cell)%Z.
  change (i12 cell) with (y2 cell * tex_width t + x1 cell)%Z.
  change (i22 cell) with (y2 cell * tex_width t + x2 cell)%Z.
  rewrite !(u8_get_const _ c) by (try assumption; now apply Hi).
  assert (H255 : 255.0 = 255) by lra. rewrite H255.
  unfold Rdiv. ring.
Qed.

Lemma uniform_texture_value_witness :
  let t := {| tex_data := [Byte.xff; Byte.xff; Byte.xff; Byte.xff];
              tex_width := 2; tex_height := 2 |} in
  textureValue t (3 / 4) (1 / 4) = 255 / 255.
Proof.
  intros t. apply (uniform_texture_value t Byte.xff (3 / 4) (1 / 4)).
  - unfold wellFormedTexture. cbn. lia.
  - cbn. repeat constructor.
  - lra.
  - lra.
Defined.

(** ** The envelope of the surface *)

Lemma taper_range (v : R) : 0 <= v <= 1 -> 0 <= 1 - Js.pow (v - 0.5) 2 * 0.5 <= 1.
Proof.
  intros Hv. unfold Js.pow.
  replace ((v - 0.5) ^ 2) with ((v - 0.5) * (v - 0.5)) by ring.
  assert (H1 : 0 <= (v - 0.5) * (v - 0.5)) by apply Rle_0_sqr.
  assert (H2 : 0 <= v * (1 - v)) by (apply Rmult_le_pos; lra).
  assert (H3 : (v - 0.5) * (v - 0.5) = 0.25 - v * (1 - v)) by (field_simplify; lra).
  rewrite H3 in *. lra.
Qed.

Lemma noiseRadius_range (params : VesselParams) (u v : R) :
  0 <= v <= 1 ->
  baseRadius params - Rabs (noiseScale params) <= noiseRadius params u v
    <= baseRadius params + Rabs (noiseScale params).
Proof.
  intros Hv. unfold noiseRadius.
  pose proof (taper_range v Hv) as Ht.
  set (tp := 1 - Js.pow (v - 0.5) 2 * 0.5) in *.
  pose proof (SIN_bound ((u * PI * 2 + v * twist params) * noiseFrequency params))
    as Hs.
  pose proof (COS_bound (v * height params * noiseFrequency params * 0.5)) as Hc.
  set (s := sin _) in *. set (c := cos _) in *.
  assert (Hsc : -1 <= s * c <= 1) by nra.
  assert (Hsct : -1 <= s * c * tp <= 1) by nra.
  replace (s * c * noiseScale params * tp) with (noiseScale params * (s * c * tp))
    by ring.
  unfold Rabs. destruct (Rcase_abs (noiseScale params)); nra.
Qed.

(** The radius is the clamp of the noise radius, the texture
    displacement and the offset. *)
Lemma radius_formula (params : VesselParams) (u v ro ho hs : R)
    (textureData : option TextureData) :
  sp_r (calculateVesselPoint params u v ro ho hs textureData) =
  Rmax 0.1
    (noiseRadius params u v +
     match textureData with
     | Some t => if Rlt_dec 0 (textureInfluence params)
                 then textureValue t u v * textureInfluence params else 0
     | None => 0
     end + ro).
Proof.
  unfold calculateVesselPoint, noiseRadius. cbn [sp_r].
  destruct textureData as [t|];
    [destruct (Rlt_dec 0 (textureInfluence params))|];
    match goal with |- (if ?c then _ else _) = _ => destruct c end;
    unfold Rmax;
    match goal with |- _ = (if ?c then _ else _) => destruct c end; lra.
Qed.

(** X7.  For [v] in [[0,1]] the radius stays within the clamped envelope
    [max(0.1, baseRadius +- |noiseScale| + radiusOffset)], widened
    outwards by [textureInfluence] when a texture is applied. *)
Theorem radius_envelope (params : VesselParams) (u v ro ho hs : R)
    (textureData : option TextureData) :
  0 <= u -> 0 <= v <= 1 ->
  (forall t, textureData = Some t -> wellFormedTexture t) ->
  let r := sp_r (calculateVesselPoint params u v ro ho hs textureData) in
  Rmax 0.1 (baseRadius params - Rabs (noiseScale params) + ro) <= r /\
  r <= Rmax 0.1 (baseRadius params + Rabs (noiseScale params) +
                 Rmax 0 (textureInfluence params) + ro).
Proof.
  intros Hu Hv _ r. unfold r. rewrite radius_formula.
  pose proof (noiseRadius_range params u v Hv) as Hn.
  assert (Hd : 0 <= match textureData with
                    | Some t => if Rlt_dec 0 (textureInfluence params)
                                then textureValue t u v * textureInfluence params
                                else 0
                    | None => 0
                    end <= Rmax 0 (textureInfluence params)).
  { pose proof (Rmax_l 0 (textureInfluence params)).
    pose proof (Rmax_r 0 (textureInfluence params)).
    destruct textureData as [t|]; [|lra].
    destruct (Rlt_dec 0 (textureInfluence params)); [|lra].
    pose proof (textureValue_range t u v). nra. }
  split; apply Rle_max_compat_l; lra.
Qed.

Lemma radius_envelope_witness :
  let r := sp_r (calculateVesselPoint INITIAL_PARAMS (1 / 4) (1 / 2) 0 0 1 None) in
  Rmax 0.1 (40 - Rabs 10 + 0) <= r /\
  r <= Rmax 0.1 (40 + Rabs 10 + Rmax 0 10 + 0).
Proof.
  apply (radius_envelope INITIAL_PARAMS (1 / 4) (1 / 2) 0 0 1 None).
  - lra.
  - lra.
  - intros t Ht. discriminate Ht.
Defined.

(** ** The wall between the two shells *)



(** ** The statistics estimator: what its result depends on *)

Lemma sumTo_ge (n : nat) (f : nat -> R) (c : R) :
  (forall k, c <= f k) -> INR n * c <= sumTo n f.
Proof.
  intros Hf. induction n as [|n IH].
  - cbn. lra.
  - rewrite S_INR. cbn [sumTo]. pose proof (Hf n). lra.
Qed.

Lemma radiusAt_min (params : VesselParams) (textureData : option TextureData)
    (u v : R) : 0.1 <= radiusAt params textureData u v.
Proof.
  unfold radiusAt. rewrite radius_formula. apply Rmax_l.
Qed.

Lemma spiralDist_min (params : VesselParams) (textureData : option TextureData) :
  (0 <= layers params)%Z ->
  2 * PI * 0.1 * IZR (layers params) <= spiralDist params textureData.
Proof.
  intros HL. rewrite spiralDist_spec. unfold spiralDistance_spec.
  pose proof PI_RGT_0 as Hpi.
  assert (Hn : INR (Z.to_nat (layers params)) = IZR (layers params))
    by (rewrite INR_IZR_INZ, Z2Nat.id by lia; reflexivity).
  apply Rle_trans with (INR (Z.to_nat (layers params)) * (2 * PI * 0.1));
    [rewrite Hn; lra|].
  apply sumTo_ge. intros k. cbv zeta.
  set (v := INR k / IZR (layers params)).
  pose proof (radiusAt_min params textureData 0 v).
  pose proof (radiusAt_min params textureData (1 / 4) v).
  pose proof (radiusAt_min params textureData (1 / 2) v).
  pose proof (radiusAt_min params textureData (3 / 4) v).
  apply Rmult_le_compat_l; lra.
Qed.

(** X9.  With at least one layer, positive height, nozzle diameter,
    filament diameter and print speed, and no texture or a well-formed
    one (so that every sampled radius is a number), every estimate is
    positive; the estimated time is at least the time of [layers] rings of
    the minimal radius 0.1. *)
Theorem print_stats_positive (params : VesselParams)
    (textureData : option TextureData) :
  (1 <= layers params)%Z -> 0 < height params ->
  0 < nozzleDiameter params -> 0 < filamentDiameter params ->
  0 < printSpeed params ->
  (forall t, textureData = Some t -> wellFormedTexture t) ->
  let s := calculatePrintStats params textureData in
  2 * PI * 0.1 * IZR (layers params) / printSpeed params <= estimatedTime s /\
  0 < estimatedTime s /\ 0 < filamentLength s /\ 0 < filamentWeight s /\
  0 < layerHeight s.
Proof.
  intros HL Hh Hn Hf Hp _ s.
  pose proof PI_RGT_0 as Hpi.
  assert (H1 : 1 <= IZR (layers params)) by now apply IZR_le.
  pose proof (spiralDist_min params textureData ltac:(lia)) as Hmin.
  assert (Hsd : 0 < spiralDist params textureData) by nra.
  assert (Hlh : 0 < height params / IZR (layers params))
    by (apply Rdiv_lt_0_compat; lra).
  assert (Hvol : 0 < spiralDist params textureData *
                     (nozzleDiameter params * (height params / IZR (layers params)))).
  { apply Rmult_lt_0_compat; [assumption|]. now apply Rmult_lt_0_compat. }
  assert (Harea : 0 < PI * Js.pow (filamentDiameter params / 2) 2).
  { unfold Js.pow. apply Rmult_lt_0_compat; [assumption|].
    apply pow_lt. lra. }
  unfold s, calculatePrintStats.
  cbn [estimatedTime filamentLength filamentWeight layerHeight].
  split; [|split; [|split; [|split]]].
  - unfold Rdiv. apply Rmult_le_compat_r; [|exact Hmin].
    left. now apply Rinv_0_lt_compat.
  - now apply Rdiv_lt_0_compat.
  - apply Rdiv_lt_0_compat; [|lra]. now apply Rdiv_lt_0_compat.
  - apply Rmult_lt_0_compat; [assumption | lra].
  - exact Hlh.
Qed.

Lemma print_stats_positive_witness :
  let s := calculatePrintStats INITIAL_PARAMS None in
  2 * PI * 0.1 * 150 / 1200 <= estimatedTime s /\
  0 < estimatedTime s /\ 0 < filamentLength s /\ 0 < filamentWeight s /\
  0 < layerHeight s.
Proof.
  apply (print_stats_positive INITIAL_PARAMS None);
    try (intros t Ht; discriminate Ht); cbn; try lia; lra.
Defined.

Lemma point_sameShape (p q : VesselParams) (u v ro ho hs : R)
    (textureData : option TextureData) :
  sameShape p q ->
  calculateVesselPoint p u v ro ho hs textureData =
  calculateVesselPoint q u v ro ho hs textureData.
Proof.
  intros (H1 & H2 & H3 & H4 & H5 & H6). unfold calculateVesselPoint.
  now rewrite H1, H2, H3, H4, H5, H6.
Qed.

Lemma fold_left_ext {A B : Type} (f g : A -> B -> A) (l : list B) (a : A) :
  (forall x y, f x y = g x y) -> fold_left f l a = fold_left g l a.
Proof.
  intros H. revert a. induction l as [|b l IH]; intros a; cbn; [reflexivity|].
  now rewrite H, IH.
Qed.

(** X10.  The estimate does not depend on [segments], on
    [wallThickness], nor on the export and printer type: two parameter
    sets that agree on the shape, on [layers] and on the nozzle, filament
    and speed settings get the same statistics. *)
Theorem print_stats_ignore_resolution (p q : VesselParams)
    (textureData : option TextureData) :
  sameShape p q -> layers p = layers q ->
  nozzleDiameter p = nozzleDiameter q ->
  filamentDiameter p = filamentDiameter q ->
  printSpeed p = printSpeed q ->
  calculatePrintStats p textureData = calculatePrintStats q textureData.
Proof.
  intros Hs HL Hn Hf Hp.
  assert (Ha : forall i, avgR p textureData i = avgR q textureData i).
  { intros i. unfold avgR, ringSamples. rewrite HL. f_equal. f_equal.
    apply map_ext. intros k. now apply point_sameShape. }
  assert (Hd : spiralDist p textureData = spiralDist q textureData).
  { unfold spiralDist. rewrite HL. apply fold_left_ext.
    intros x i. now rewrite Ha. }
  unfold calculatePrintStats.
  destruct Hs as (Hh & _). now rewrite Hd, HL, Hn, Hf, Hp, Hh.
Qed.

Lemma print_stats_ignore_resolution_witness :
  calculatePrintStats INITIAL_PARAMS None = calculatePrintStats coarseParams None.
Proof.
  apply (print_stats_ignore_resolution INITIAL_PARAMS coarseParams None);
    try reflexivity.
  unfold sameShape. repeat split; reflexivity.
Defined.

(** X11.  The outputs of the estimator are consistent with each other:
    the layer height times the number of layers is the height, and the
    weight is 1.7 g per metre and per square millimetre of filament
    section. *)
Theorem print_stats_consistent (params : VesselParams)
    (textureData : option TextureData) :
  (layers params <> 0)%Z -> filamentDiameter params <> 0 ->
  let s := calculatePrintStats params textureData in
  layerHeight s * IZR (totalLayers s) = height params /\
  filamentWeight s =
    1.7 * (PI * (filamentDiameter params / 2) ^ 2) * filamentLength s.
Proof.
  intros HL Hf s.
  assert (HL' : IZR (layers params) <> 0) by (now apply not_0_IZR).
  pose proof PI_RGT_0 as Hpi.
  unfold s, calculatePrintStats.
  cbn [layerHeight totalLayers filamentWeight filamentLength].
  unfold Js.pow.
  split.
  - field. exact HL'.
  - replace 0.0017 with (17 / 10000) by lra.
    replace 1.7 with (17 / 10) by lra.
    field. repeat split; try assumption; lra.
Qed.

Lemma print_stats_consistent_witness :
  let s := calculatePrintStats INITIAL_PARAMS None in
  layerHeight s * IZR (totalLayers s) = 150 /\
  filamentWeight s = 1.7 * (PI * (1.75 / 2) ^ 2) * filamentLength s.
Proof.
  apply (print_stats_consistent INITIAL_PARAMS None); cbn; try lia; lra.
Defined.

(** ** The G-code spiral: where it goes *)

Lemma loop_1_le_last (n : nat) :
  Js.loop_1_le (Z.of_nat (S n)) = Js.loop_1_le (Z.of_nat n) ++ [Z.of_nat (S n)].
Proof.
  unfold Js.loop_1_le. rewrite !Nat2Z.id, seq_S, map_app. reflexivity.
Qed.

Lemma spiralHeight_range (params : VesselParams) (i : Z) :
  (1 <= layers params)%Z -> (1 <= segments params)%Z -> 0 < height params ->
  (1 <= i <= layers params * segments params)%Z ->
  0 < spiralHeight params i <= height params.
Proof.
  intros HL HS Hh Hi. unfold spiralHeight.
  assert (HN : (1 <= layers params * segments params)%Z) by nia.
  pose proof (row_fraction _ i HN ltac:(lia)) as Hf.
  assert (Hpos : 0 < IZR i / IZR (layers params * segments params)).
  { apply Rdiv_lt_0_compat; apply IZR_lt; lia. }
  split; nra.
Qed.

Lemma spiralHeight_sorted (params : VesselParams) (n a : nat) :
  (1 <= layers params * segments params)%Z -> 0 < height params ->
  StronglySorted Rlt
    (map (fun x : nat => spiralHeight params (Z.of_nat x)) (seq a n)).
Proof.
  intros HN Hh. revert a.
  induction n as [|n IH]; intros a; cbn [seq map]; constructor.
  - apply IH.
  - apply Forall_forall. intros z Hz. apply in_map_iff in Hz.
    destruct Hz as [k [<- Hk]]. apply in_seq in Hk.
    unfold spiralHeight.
    assert (Hlt : IZR (Z.of_nat a) < IZR (Z.of_nat k)) by (apply IZR_lt; lia).
    assert (Hd : 0 < / IZR (layers params * segments params))
      by (apply Rinv_0_lt_compat, IZR_lt; lia).
    unfold Rdiv. rewrite !Rmult_assoc.
    apply Rmult_lt_compat_r; [now apply Rmult_lt_0_compat | exact Hlt].
Qed.

(** ** Rounding to a fixed number of decimals *)

Lemma pow10_pos (d : nat) : 0 < 10 ^ d.
Proof. apply pow_lt. lra. Qed.

Lemma Int_part_le (a b : R) : a <= b -> (Int_part a <= Int_part b)%Z.
Proof.
  intros Hab.
  destruct (base_Int_part a) as [Ha _]. destruct (base_Int_part b) as [_ Hb].
  assert (H : IZR (Int_part a) < IZR (Int_part b + 1)) by (rewrite plus_IZR; lra).
  apply lt_IZR in H. lia.
Qed.

(** Rounding to the nearest multiple of [1 / 10^d] moves a number by at
    most half of it. *)
Lemma round_error (d : nat) (y : R) :
  y - / 2 / 10 ^ d <= IZR (Int_part (y * 10 ^ d + / 2)) / 10 ^ d <= y + / 2 / 10 ^ d.
Proof.
  pose proof (pow10_pos d) as Hp.
  destruct (base_Int_part (y * 10 ^ d + / 2)) as [H1 H2].
  set (n := IZR (Int_part (y * 10 ^ d + / 2))) in *.
  assert (Hy : y = y * 10 ^ d / 10 ^ d) by (field; lra).
  assert (Hi : 0 < / 10 ^ d) by now apply Rinv_0_lt_compat.
  unfold Rdiv in *. split.
  - apply Rle_trans with ((y * 10 ^ d - / 2) * / 10 ^ d).
    + right. field. lra.
    + apply Rmult_le_compat_r; lra.
  - apply Rle_trans with ((y * 10 ^ d + / 2) * / 10 ^ d).
    + apply Rmult_le_compat_r; lra.
    + right. field. lra.
Qed.

Lemma toFixed_error (d : nat) (x : R) :
  x - / 2 / 10 ^ d <= Js.toFixed d x <= x + / 2 / 10 ^ d.
Proof.
  pose proof (pow10_pos d) as Hp.
  assert (Hh : 0 < / 2 / 10 ^ d) by (apply Rdiv_lt_0_compat; lra).
  unfold Js.toFixed.
  destruct (Rle_dec (10 ^ 21) (Rabs x)); [lra|].
  destruct (Rle_dec 0 x).
  - apply round_error.
  - pose proof (round_error d (- x)). lra.
Qed.

Lemma toFixed_nonneg (d : nat) (x : R) : 0 <= x -> 0 <= Js.toFixed d x.
Proof.
  intros Hx. pose proof (pow10_pos d) as Hp. unfold Js.toFixed.
  destruct (Rle_dec (10 ^ 21) (Rabs x)); [exact Hx|].
  destruct (Rle_dec 0 x); [|contradiction].
  apply Rmult_le_pos; [|left; now apply Rinv_0_lt_compat].
  assert (H0 : Int_part 0 = 0%Z) by (symmetry; apply Int_part_spec; cbn; lra).
  assert (Hx0 : 0 <= x * 10 ^ d) by (apply Rmult_le_pos; lra).
  pose proof (Int_part_le 0 (x * 10 ^ d + / 2) ltac:(lra)) as Hle.
  rewrite H0 in Hle. now apply IZR_le.
Qed.

Lemma toFixed_le (d : nat) (x y : R) :
  0 <= x -> x <= y -> Js.toFixed d x <= Js.toFixed d y.
Proof.
  intros Hx Hxy. pose proof (pow10_pos d) as Hp.
  assert (Hi : 0 < / 10 ^ d) by now apply Rinv_0_lt_compat.
  unfold Js.toFixed. rewrite !Rabs_pos_eq by lra.
  destruct (Rle_dec (10 ^ 21) x) as [Hbx|Hbx];
    destruct (Rle_dec (10 ^ 21) y) as [Hby|Hby]; try lra.
  - destruct (Rle_dec 0 x); [|contradiction].
    apply Rle_trans with (10 ^ 21); [|exact Hby].
    assert (HN : IZR (10 ^ Z.of_nat (21 + d)) = 10 ^ 21 * 10 ^ d)
      by (now rewrite <- pow_IZR, pow_add).
    destruct (base_Int_part (x * 10 ^ d + / 2)) as [H1 _].
    assert (Hlt : x * 10 ^ d < 10 ^ 21 * 10 ^ d)
      by (apply Rmult_lt_compat_r; [exact Hp | lra]).
    assert (H : IZR (Int_part (x * 10 ^ d + / 2)) <
                IZR (10 ^ Z.of_nat (21 + d) + 1))
      by (rewrite plus_IZR, HN; lra).
    apply lt_IZR in H.
    assert (H' : IZR (Int_part (x * 10 ^ d + / 2)) <= 10 ^ 21 * 10 ^ d)
      by (rewrite <- HN; apply IZR_le; lia).
    apply Rmult_le_reg_r with (10 ^ d); [exact Hp|].
    unfold Rdiv. rewrite Rmult_assoc, Rinv_l, Rmult_1_r by lra. exact H'.
  - destruct (Rle_dec 0 x); [|contradiction].
    destruct (Rle_dec 0 y); [|lra].
    unfold Rdiv. apply Rmult_le_compat_r; [lra|].
    apply IZR_le, Int_part_le.
    assert (x * 10 ^ d <= y * 10 ^ d) by (apply Rmult_le_compat_r; lra). lra.
Qed.

Lemma StronglySorted_toFixed (d : nat) (l : list R) :
  Forall (fun e => 0 <= e) l -> StronglySorted Rlt l ->
  StronglySorted Rle (map (Js.toFixed d) l).
Proof.
  intros Hpos Hs. induction Hs as [|a l Hs IH Ha]; cbn [map]; constructor.
  - apply IH. now inversion Hpos.
  - apply Forall_forall. intros z Hz. apply in_map_iff in Hz.
    destruct Hz as [e [<- He]].
    rewrite Forall_forall in Ha. specialize (Ha e He).
    apply toFixed_le; [now inversion Hpos | lra].
Qed.

(** A point at least 0.1 away from the origin stays at least 0.099 away
    when each coordinate moves by at most 0.0005. *)
Lemma distance_rounded (a b a' b' : R) :
  0.1 <= sqrt (a * a + b * b) ->
  a - 0.0005 <= a' <= a + 0.0005 -> b - 0.0005 <= b' <= b + 0.0005 ->
  0.099 <= sqrt (a' * a' + b' * b').
Proof.
  intros Hr Ha Hb.
  assert (H0 : 0 <= a * a + b * b) by nra.
  assert (Hsq : 0.01 <= a * a + b * b).
  { rewrite <- (sqrt_sqrt _ H0). nra. }
  set (da := a' - a). set (db := b' - b).
  assert (Hda : da * da <= 0.0005 * 0.0005) by (unfold da; nra).
  assert (Hdb : db * db <= 0.0005 * 0.0005) by (unfold db; nra).
  pose proof (Rle_0_sqr (0.1 * a + 10 * da)) as Hqa.
  pose proof (Rle_0_sqr (0.1 * b + 10 * db)) as Hqb.
  unfold Rsqr in Hqa, Hqb.
  assert (Hgoal : 0.099 * 0.099 <= a' * a' + b' * b').
  { replace a' with (a + da) by (unfold da; ring).
    replace b' with (b + db) by (unfold db; ring). nra. }
  rewrite <- (sqrt_square 0.099) by lra.
  now apply sqrt_le_1_alt.
Qed.

Lemma gcode_moves_heights (params : VesselParams)
    (textureData : option TextureData) :
  map g_Z (gcode_moves (exportGCODE params textureData)) =
  map (spiralHeight params) (Js.loop_1_le (layers params * segments params)).
Proof.
  pose proof (gcode_moves_positions params textureData) as Hp.
  apply (f_equal (map (fun t : R * R * R => snd t))) in Hp.
  rewrite !map_map in Hp. cbn [snd] in Hp.
  rewrite (map_ext _ g_Z) in Hp by reflexivity. rewrite Hp.
  unfold exportGCODE_evaluated. cbn [tl]. rewrite map_map.
  apply map_ext. intros i. unfold spiralPoint, spiralHeight.
  cbn [calculateVesselPoint sp_y]. ring.
Qed.

(** X12.  With positive height and at least one layer and one segment,
    the [G1] line of step [i] carries the height
    [i * height / (layers * segments)] rounded to three decimals.  The
    printed heights never fall from one line to the next (they can repeat,
    when a step rises by less than the rounding), they lie between 0 and
    the rounded [height], which is the height of the last line, and the
    final lift of the postamble, [height + 20] printed with two decimals,
    is above every line. *)
Theorem spiral_heights (params : VesselParams) (textureData : option TextureData) :
  (1 <= layers params)%Z -> (1 <= segments params)%Z -> 0 < height params ->
  let zs := map g_Z (gcodeLines params textureData) in
  zs = map (fun i => Js.toFixed 3 (spiralHeight params i))
         (Js.loop_1_le (layers params * segments params)) /\
  StronglySorted Rle zs /\
  Forall (fun z => 0 <= z <= Js.toFixed 3 (height params) /\
                   z < printedLift params textureData) zs /\
  last zs 0 = Js.toFixed 3 (height params).
Proof.
  intros HL HS Hh zs.
  assert (Hzs : zs = map (Js.toFixed 3)
                       (map (spiralHeight params)
                          (Js.loop_1_le (layers params * segments params)))).
  { unfold zs, gcodeLines.
    rewrite <- (gcode_moves_heights params textureData), !map_map.
    reflexivity. }
  assert (HN : (1 <= layers params * segments params)%Z) by nia.
  assert (Hnat : (layers params * segments params =
                  Z.of_nat (Z.to_nat (layers params * segments params)))%Z) by lia.
  split; [rewrite Hzs; now rewrite map_map|].
  split; [|split].
  - rewrite Hzs. apply StronglySorted_toFixed.
    + apply Forall_forall. intros z Hz. apply in_map_iff in Hz.
      destruct Hz as [i [<- Hi]]. apply In_loop_1_le in Hi.
      pose proof (spiralHeight_range params i HL HS Hh Hi). lra.
    + unfold Js.loop_1_le. rewrite map_map.
      apply spiralHeight_sorted; [lia | exact Hh].
  - rewrite Hzs, map_map.
    apply Forall_forall. intros z Hz. apply in_map_iff in Hz.
    destruct Hz as [i [<- Hi]]. apply In_loop_1_le in Hi.
    pose proof (spiralHeight_range params i HL HS Hh Hi) as Hr.
    pose proof (toFixed_nonneg 3 (spiralHeight params i) ltac:(lra)) as H0.
    pose proof (toFixed_le 3 (spiralHeight params i) (height params)
                  ltac:(lra) ltac:(lra)) as Hle.
    pose proof (toFixed_error 3 (height params)) as H3.
    pose proof (toFixed_error 2 (height params + 20)) as H2.
    unfold printedLift, exportGCODE. cbn [gcode_lift].
    cbn [pow] in H3, H2. lra.
  - rewrite Hzs, Hnat.
    destruct (Z.to_nat (layers params * segments params)) as [|n]; [lia|].
    rewrite loop_1_le_last, !map_app. cbn [map]. rewrite last_last.
    rewrite <- Hnat. f_equal. unfold spiralHeight.
    assert (1 <= IZR (layers params * segments params)) by now apply IZR_le.
    field. lra.
Qed.

Lemma spiral_heights_witness :
  let zs := map g_Z (gcodeLines INITIAL_PARAMS None) in
  zs = map (fun i => Js.toFixed 3 (spiralHeight INITIAL_PARAMS i))
         (Js.loop_1_le (150 * 120)) /\
  StronglySorted Rle zs /\
  Forall (fun z => 0 <= z <= Js.toFixed 3 150 /\
                   z < printedLift INITIAL_PARAMS None) zs /\
  last zs 0 = Js.toFixed 3 150.
Proof. apply (spiral_heights INITIAL_PARAMS None); cbn; try lia; lra. Defined.

Lemma StronglySorted_snoc_lt (l : list R) (a : R) :
  StronglySorted Rlt l -> Forall (fun e => e < a) l ->
  StronglySorted Rlt (l ++ [a]).
Proof.
  induction 1 as [|b l Hs IH Hb]; intros Ha; cbn.
  - constructor; constructor.
  - inversion Ha as [|? ? Hba Hla]; subst. constructor.
    + now apply IH.
    + apply Forall_app. split; [assumption | now constructor].
Qed.

Lemma spiralPoint_height (params : VesselParams) (textureData : option TextureData)
    (i : Z) :
  sp_y (spiralPoint params textureData i) = spiralHeight params i.
Proof. unfold spiralPoint, spiralHeight. cbn [calculateVesselPoint sp_y]. ring. Qed.

Lemma spiralStep_strict (params : VesselParams) (textureData : option TextureData)
    (s : Spiral) (i : Z) :
  0 < ePerMM params -> prevZ s <> spiralHeight params i ->
  currentE s < currentE (spiralStep params textureData s i).
Proof.
  intros He Hz. unfold spiralStep. cbn [currentE]. unfold Js.pow.
  rewrite spiralPoint_height.
  set (dx := sp_x _ - prevX s). set (dy := sp_z _ - prevY s).
  set (dz := spiralHeight params i - prevZ s).
  assert (Hdz : 0 < dz ^ 2).
  { rewrite <- Rsqr_pow2. apply Rsqr_pos_lt. unfold dz. lra. }
  pose proof (pow2_ge_0 dx). pose proof (pow2_ge_0 dy).
  assert (Hd : 0 < sqrt (dx ^ 2 + dy ^ 2 + dz ^ 2)) by (apply sqrt_lt_R0; lra).
  nra.
Qed.

Lemma spiral_fold_strict (params : VesselParams)
    (textureData : option TextureData) (lo : R) (n : nat) :
  0 < ePerMM params ->
  (forall k : nat, spiralHeight params (Z.of_nat k) <>
                   spiralHeight params (Z.of_nat (S k))) ->
  forall (a : nat) (s : Spiral),
  prevZ s <> spiralHeight params (Z.of_nat a) ->
  lo <= currentE s ->
  StronglySorted Rlt (map g_E (emitted s)) ->
  Forall (fun e => lo < e <= currentE s) (map g_E (emitted s)) ->
  let s' := fold_left (spiralStep params textureData)
              (map Z.of_nat (seq a n)) s in
  StronglySorted Rlt (map g_E (emitted s')) /\
  Forall (fun e => lo < e <= currentE s') (map g_E (emitted s')).
Proof.
  intros He Hh. induction n as [|n IH]; intros a s Hz Hlo Hs Hf;
    cbn [seq map fold_left].
  - split; assumption.
  - pose proof (spiralStep_strict params textureData s (Z.of_nat a)
                  He Hz) as Hlt.
    destruct (spiralStep_spec params textureData s (Z.of_nat a)
                ltac:(lra)) as [_ Hmap].
    set (s1 := spiralStep params textureData s (Z.of_nat a)) in *.
    apply (IH (S a) s1).
    + change (prevZ s1) with (sp_y (spiralPoint params textureData (Z.of_nat a))).
      rewrite spiralPoint_height. apply Hh.
    + lra.
    + rewrite Hmap. apply StronglySorted_snoc_lt; [assumption|].
      eapply Forall_impl; [|exact Hf]. cbv beta. intros e H. lra.
    + rewrite Hmap. apply Forall_app. split.
      * eapply Forall_impl; [|exact Hf]. cbv beta. intros e H. lra.
      * constructor; [lra | constructor].
Qed.

(** X13.  With at least two segments, at least one layer, positive
    height, nozzle and filament diameter, and no texture or a well-formed
    one, every step of the spiral extrudes: the running total [currentE]
    is positive and grows strictly from one step to the next.  The [E]
    words of the [G1] lines are these totals rounded to four decimals:
    they are not negative and never fall from one line to the next (two
    lines can print the same [E], when a step extrudes less than the
    rounding). *)
Theorem extrusion_strictly_increasing (params : VesselParams)
    (textureData : option TextureData) :
  0 < height params -> (1 <= layers params)%Z -> (2 <= segments params)%Z ->
  0 < nozzleDiameter params -> 0 < filamentDiameter params ->
  (forall t, textureData = Some t -> wellFormedTexture t) ->
  let totals := map g_E (gcode_moves (exportGCODE params textureData)) in
  let es := map g_E (gcodeLines params textureData) in
  StronglySorted Rlt totals /\ Forall (fun e => 0 < e) totals /\
  es = map (Js.toFixed 4) totals /\
  StronglySorted Rle es /\ Forall (fun e => 0 <= e) es.
Proof.
  intros Hh HL HS Hn Hf _ totals es.
  assert (Hes : es = map (Js.toFixed 4) totals)
    by (unfold es, totals, gcodeLines; rewrite !map_map; reflexivity).
  assert (Htot : StronglySorted Rlt totals /\ Forall (fun e => 0 < e) totals);
    [|destruct Htot as [Hs Hpos];
      assert (Hpos' : Forall (fun e => 0 <= e) totals)
        by (eapply Forall_impl; [|exact Hpos]; cbv beta; intros e He; lra);
      repeat split; try assumption;
      [ rewrite Hes; now apply StronglySorted_toFixed
      | rewrite Hes; apply Forall_forall; intros z Hz;
        apply in_map_iff in Hz; destruct Hz as [e [<- He]];
        rewrite Forall_forall in Hpos'; apply toFixed_nonneg; now apply Hpos' ]].
  pose proof (ePerMM_pos params Hh HL Hn Hf) as He.
  assert (HN : (1 <= layers params * segments params)%Z) by nia.
  assert (HNr : 1 <= IZR (layers params * segments params)) by now apply IZR_le.
  assert (Hdist : forall k : nat, spiralHeight params (Z.of_nat k) <>
                                  spiralHeight params (Z.of_nat (S k))).
  { intros k. unfold spiralHeight. rewrite Nat2Z.inj_succ, succ_IZR.
    intros Heq.
    assert (Hd : 0 < / IZR (layers params * segments params))
      by (apply Rinv_0_lt_compat; lra).
    unfold Rdiv in Heq. nra. }
  unfold totals, exportGCODE. cbn [gcode_moves]. unfold Js.loop_1_le.
  set (s0 := {| prevX := sp_x (calculateVesselPoint params 0 0 0 0 1 textureData);
                prevY := sp_z (calculateVesselPoint params 0 0 0 0 1 textureData);
                prevZ := height params / IZR (layers params);
                currentE := 0; emitted := [] |}).
  pose proof (spiral_fold_strict params textureData 0
                (Z.to_nat (layers params * segments params)) He Hdist 1%nat s0)
      as Hfold.
  cbv zeta in Hfold. destruct Hfold as [H1 H2].
  - unfold s0. cbn [prevZ]. unfold spiralHeight. rewrite mult_IZR.
    assert (H1 : 1 <= IZR (layers params)) by now apply IZR_le.
    assert (H2 : 2 <= IZR (segments params)) by now apply IZR_le.
    intros Heq.
    change (Z.of_nat 1) with 1%Z in Heq.
    assert (Ha : height params / IZR (layers params) *
                 (IZR (layers params) * IZR (segments params)) =
                 height params * IZR (segments params)) by (field; lra).
    assert (Hb : 1 / (IZR (layers params) * IZR (segments params)) * height params *
                 (IZR (layers params) * IZR (segments params)) = height params)
      by (field; lra).
    rewrite Heq, Hb in Ha.
    assert (Hc : 2 * height params <= height params * IZR (segments params))
      by nra.
    lra.
  - cbn. lra.
  - cbn. constructor.
  - cbn. constructor.
  - split; [exact H1|].
    eapply Forall_impl; [|exact H2]. cbv beta. intros e H. lra.
Qed.

Lemma extrusion_strictly_increasing_witness :
  let totals := map g_E (gcode_moves (exportGCODE INITIAL_PARAMS None)) in
  let es := map g_E (gcodeLines INITIAL_PARAMS None) in
  StronglySorted Rlt totals /\ Forall (fun e => 0 < e) totals /\
  es = map (Js.toFixed 4) totals /\
  StronglySorted Rle es /\ Forall (fun e => 0 <= e) es.
Proof.
  apply (extrusion_strictly_increasing INITIAL_PARAMS None);
    try (intros t Ht; discriminate Ht); cbn; try lia; lra.
Defined.

Lemma In_gcode_moves (params : VesselParams) (textureData : option TextureData)
    (m : GMove) :
  In m (gcode_moves (exportGCODE params textureData)) ->
  exists i, (g_X m, g_Y m, g_Z m) =
            (sp_x (spiralPoint params textureData i),
             sp_z (spiralPoint params textureData i),
             sp_y (spiralPoint params textureData i)).
Proof.
  intros Hm.
  apply (in_map (fun m => (g_X m, g_Y m, g_Z m))) in Hm.
  rewrite gcode_moves_positions in Hm. unfold exportGCODE_evaluated in Hm.
  cbn [tl] in Hm. rewrite map_map in Hm. apply in_map_iff in Hm.
  destruct Hm as [i [Hi _]]. exists i. now symmetry.
Qed.

(** X14.  With at least one layer and one segment, and no texture or a
    well-formed one, every position that the spiral loop computes has a
    radius that is a number and keeps a horizontal distance of at least
    0.1 from the machine's Z axis; the [G1] lines, which print it rounded
    to three decimals, keep a distance of at least 0.099: the nozzle never
    crosses the axis of the vessel. *)
Theorem spiral_clear_of_axis (params : VesselParams)
    (textureData : option TextureData) :
  (1 <= layers params)%Z -> (1 <= segments params)%Z ->
  (forall t, textureData = Some t -> wellFormedTexture t) ->
  Forall (fun i =>
            exists r,
              radiusJs params (IZR i / IZR (segments params))
                (IZR i / IZR (layers params * segments params)) 0 textureData =
              Some r /\ 0.1 <= r)
    (Js.loop_1_le (layers params * segments params)) /\
  Forall (fun m => 0.1 <= sqrt (g_X m * g_X m + g_Y m * g_Y m))
    (gcode_moves (exportGCODE params textureData)) /\
  Forall (fun l => 0.099 <= sqrt (g_X l * g_X l + g_Y l * g_Y l))
    (gcodeLines params textureData).
Proof.
  intros HL HS Ht.
  assert (Hmoves : Forall (fun m => 0.1 <= sqrt (g_X m * g_X m + g_Y m * g_Y m))
                     (gcode_moves (exportGCODE params textureData))).
  { apply Forall_forall. intros m Hm.
    apply In_gcode_moves in Hm. destruct Hm as [i Hi].
    pose proof (f_equal (fun t : R * R * R => fst (fst t)) Hi) as Hx.
    pose proof (f_equal (fun t : R * R * R => snd (fst t)) Hi) as Hy.
    cbn [fst snd] in Hx, Hy. rewrite Hx, Hy. unfold spiralPoint. cbv zeta.
    match goal with |- context [calculateVesselPoint ?p ?u ?v ?a ?b ?c ?t] =>
      pose proof (axisDistance_point p u v a b c t) as Hd;
      pose proof (radius_formula p u v a b c t) as Hr
    end.
    cbv zeta in Hd. unfold axisDistance, xyz in Hd. rewrite Hd, Hr.
    apply Rmax_l. }
  split; [|split; [exact Hmoves|]].
  - apply Forall_forall. intros i Hi. apply In_loop_1_le in Hi.
    assert (HN : (1 <= layers params * segments params)%Z) by nia.
    assert (H1 : 1 <= IZR (segments params)) by now apply IZR_le.
    assert (H2 : 1 <= IZR i) by (apply IZR_le; lia).
    assert (Hu : 0 <= IZR i / IZR (segments params)).
    { apply Rmult_le_pos; [lra|]. left. apply Rinv_0_lt_compat. lra. }
    assert (Hv : 0 <= IZR i / IZR (layers params * segments params) <= 1)
      by (apply row_fraction; lia).
    eexists. split.
    + apply (radiusJs_defined params _ _ 0 0 1 textureData Hu Hv Ht).
    + rewrite radius_formula. apply Rmax_l.
  - unfold gcodeLines. apply Forall_forall. intros l Hl.
    apply in_map_iff in Hl. destruct Hl as [m [<- Hm]].
    rewrite Forall_forall in Hmoves. specialize (Hmoves m Hm).
    cbn [printedLine g_X g_Y].
    pose proof (toFixed_error 3 (g_X m)) as Hx.
    pose proof (toFixed_error 3 (g_Y m)) as Hy.
    cbn [pow] in Hx, Hy.
    apply (distance_rounded (g_X m) (g_Y m)); [exact Hmoves | lra | lra].
Qed.

Lemma spiral_clear_of_axis_witness :
  Forall (fun i =>
            exists r,
              radiusJs INITIAL_PARAMS (IZR i / IZR 120)
                (IZR i / IZR (150 * 120)) 0 None = Some r /\ 0.1 <= r)
    (Js.loop_1_le (150 * 120)) /\
  Forall (fun m => 0.1 <= sqrt (g_X m * g_X m + g_Y m * g_Y m))
    (gcode_moves (exportGCODE INITIAL_PARAMS None)) /\
  Forall (fun l => 0.099 <= sqrt (g_X l * g_X l + g_Y l * g_Y l))
    (gcodeLines INITIAL_PARAMS None).
Proof.
  apply (spiral_clear_of_axis INITIAL_PARAMS None);
    try (intros t Ht; discriminate Ht); cbn; lia.
Defined.

Lemma nth_gcode_move (params : VesselParams) (textureData : option TextureData)
    (k : nat) :
  (k < Z.to_nat (layers params * segments params))%nat ->
  exists m,
    nth_error (gcode_moves (exportGCODE params textureData)) k = Some m /\
    (g_X m, g_Y m, g_Z m) =
    (sp_x (spiralPoint params textureData (Z.of_nat (S k))),
     sp_z (spiralPoint params textureData (Z.of_nat (S k))),
     sp_y (spiralPoint params textureData (Z.of_nat (S k)))).
Proof.
  intros Hk.
  pose proof (gcode_moves_positions params textureData) as Hp.
  apply (f_equal (fun l => nth_error l k)) in Hp.
  unfold exportGCODE_evaluated in Hp. cbn [tl] in Hp.
  unfold Js.loop_1_le in Hp.
  rewrite !nth_error_map, nth_error_seq in Hp.
  destruct (Nat.ltb_spec k (Z.to_nat (layers params * segments params)));
    [|lia].
  cbn [option_map] in Hp.
  destruct (nth_error (gcode_moves (exportGCODE params textureData)) k)
    as [m|]; [|discriminate Hp].
  exists m. split; [reflexivity|].
  cbn [option_map] in Hp.
  apply (f_equal (fun o : option (R * R * R) =>
                    match o with Some t => t | None => (0, 0, 0) end)) in Hp.
  exact Hp.
Qed.

(** X15.  While the overlay is shown, the simulated nozzle of the
    viewport follows the G-code spiral.  With at least one layer and one
    segment and no texture or a well-formed one, at a progress
    [i / (layers * segments)] strictly between 0.005 and 0.995 the overlay
    is drawn, and the [i]-th [G1] line prints the position of its nozzle
    rounded to three decimals, the machine axes Y and Z exchanged. *)
Theorem nozzle_follows_spiral (params : VesselParams)
    (textureData : option TextureData) (i : Z) :
  (1 <= layers params)%Z -> (1 <= segments params)%Z ->
  (forall t, textureData = Some t -> wellFormedTexture t) ->
  (1 <= i <= layers params * segments params)%Z ->
  let s := IZR i / IZR (layers params * segments params) in
  0.005 < s < 0.995 ->
  exists ov l,
    SimulationOverlay params s textureData = Some ov /\
    nth_error (gcodeLines params textureData) (Z.to_nat (i - 1)) = Some l /\
    g_X l = Js.toFixed 3 (fst (fst (ov_nozzle ov))) /\
    g_Y l = Js.toFixed 3 (snd (ov_nozzle ov)) /\
    g_Z l = Js.toFixed 3 (snd (fst (ov_nozzle ov))).
Proof.
  intros HL HS _ Hi s Hs.
  destruct (nth_gcode_move params textureData (Z.to_nat (i - 1)) ltac:(lia))
    as [m [Hm Hpos]].
  replace (Z.of_nat (S (Z.to_nat (i - 1)))) with i in Hpos by lia.
  pose proof (f_equal (fun t : R * R * R => fst (fst t)) Hpos) as Hx.
  pose proof (f_equal (fun t : R * R * R => snd (fst t)) Hpos) as Hy.
  pose proof (f_equal (fun t : R * R * R => snd t) Hpos) as Hz.
  cbn [fst snd] in Hx, Hy, Hz.
  assert (H1 : 1 <= IZR (layers params)) by now apply IZR_le.
  assert (H2 : 1 <= IZR (segments params)) by now apply IZR_le.
  assert (Hu : s * IZR (layers params) = IZR i / IZR (segments params))
    by (unfold s; rewrite mult_IZR; field; lra).
  unfold SimulationOverlay.
  destruct (Rge_dec s 0.995); [lra|]. destruct (Rle_dec s 0.005); [lra|].
  eexists. exists (printedLine m). split; [reflexivity|].
  split; [unfold gcodeLines; now rewrite nth_error_map, Hm|].
  cbn [ov_nozzle printedLine g_X g_Y g_Z]. unfold nozzlePos. cbv zeta.
  rewrite Hu. cbn [fst snd]. rewrite Hx, Hy, Hz. unfold spiralPoint. cbv zeta.
  fold s. repeat split; reflexivity.
Qed.

Lemma nozzle_follows_spiral_witness :
  exists ov l,
    SimulationOverlay INITIAL_PARAMS (IZR 9000 / IZR (150 * 120)) None =
      Some ov /\
    nth_error (gcodeLines INITIAL_PARAMS None) (Z.to_nat (9000 - 1)) = Some l /\
    g_X l = Js.toFixed 3 (fst (fst (ov_nozzle ov))) /\
    g_Y l = Js.toFixed 3 (snd (ov_nozzle ov)) /\
    g_Z l = Js.toFixed 3 (snd (fst (ov_nozzle ov))).
Proof.
  apply (nozzle_follows_spiral INITIAL_PARAMS None 9000);
    try (intros t Ht; discriminate Ht); cbn; try lia; lra.
Defined.

(** ** The mesh files *)

Lemma loop_lt_by3_triples (k : nat) :
  Js.loop_lt_by3 (Z.of_nat (3 * k)) = map (fun i => (3 * i)%Z) (Js.loop_lt (Z.of_nat k)).
Proof.
  unfold Js.loop_lt_by3, Js.loop_lt. rewrite map_map.
  assert (Hd : ((Z.of_nat (3 * k) + 2) / 3 = Z.of_nat k)%Z).
  { symmetry. apply (Z.div_unique _ _ _ 2); lia. }
  now rewrite Hd.
Qed.

Lemma length_vertices (params : VesselParams) (textureData : option TextureData) :
  exists k : nat,
    length (vertices (generateVesselMesh params textureData)) = (3 * k)%nat.
Proof.
  rewrite vertices_of_evaluated, length_app, length_push3.
  destruct (Rle_dec (wallThickness params) 0); cbn [length].
  - exists (length (generateVesselMesh_evaluated params textureData)). lia.
  - exists (length (generateVesselMesh_evaluated params textureData) + 2)%nat. lia.
Qed.

Lemma div3 (k : nat) : (Z.of_nat (3 * k) / 3 = Z.of_nat k)%Z.
Proof.
  rewrite Nat2Z.inj_mul, Z.mul_comm. apply Z.div_mul. lia.
Qed.

(** X16.  The PLY header declares exactly the vertex and face lines that
    follow; every face line starts with 3, and for a non-negative
    resolution names three declared vertices, counted from 0. *)
Theorem ply_well_formed (params : VesselParams) (textureData : option TextureData) :
  (0 <= layers params)%Z -> (0 <= segments params)%Z ->
  let f := exportPLY params textureData in
  ply_element_vertex f = Z.of_nat (length (ply_vertices f)) /\
  ply_element_face f = Z.of_nat (length (ply_faces f)) /\
  Forall (fun face => let '(n, a, b, c) := face in
            n = 3 /\ 0 <= a < ply_element_vertex f /\
            0 <= b < ply_element_vertex f /\ 0 <= c < ply_element_vertex f)%Z
         (ply_faces f).
Proof.
  intros HL HS f.
  destruct (length_vertices params textureData) as [kv Hkv].
  destruct (length_indices params textureData) as [kf Hkf].
  unfold f, exportPLY.
  cbn [ply_element_vertex ply_element_face ply_vertices ply_faces].
  set (m := generateVesselMesh params textureData) in *.
  rewrite !length_map, Hkv, Hkf, !loop_lt_by3_triples, !length_map,
    !length_loop_lt, !div3, !Nat2Z.id.
  split; [reflexivity|]. split; [reflexivity|].
  apply Forall_forall. intros [[[n a] b] c] Hf.
  apply in_map_iff in Hf. destruct Hf as [i [Heq Hi]].
  apply in_map_iff in Hi. destruct Hi as [t [Hit Ht]].
  apply In_loop_lt in Ht.
  assert (Hb : forall j, In j (indices m) -> (0 <= j < Z.of_nat kv)%Z).
  { intros j Hj. apply (indices_bound params textureData j HL HS) in Hj.
    fold m in Hj. unfold vertexCount in Hj. now rewrite Hkv, div3 in Hj. }
  assert (H0 : In (Js.idx_get (indices m) i) (indices m))
    by (apply idx_get_In; lia).
  assert (H1 : In (Js.idx_get (indices m) (i + 1)) (indices m))
    by (apply idx_get_In; lia).
  assert (H2 : In (Js.idx_get (indices m) (i + 2)) (indices m))
    by (apply idx_get_In; lia).
  apply Hb in H0, H1, H2.
  assert (En : n = 3%Z) by congruence.
  assert (Ea : a = Js.idx_get (indices m) i) by congruence.
  assert (Eb : b = Js.idx_get (indices m) (i + 1)) by congruence.
  assert (Ec : c = Js.idx_get (indices m) (i + 2)) by congruence.
  rewrite En, Ea, Eb, Ec. repeat split; lia.
Qed.

Lemma ply_well_formed_witness :
  let f := exportPLY INITIAL_PARAMS None in
  ply_element_vertex f = Z.of_nat (length (ply_vertices f)) /\
  ply_element_face f = Z.of_nat (length (ply_faces f)) /\
  Forall (fun face => let '(n, a, b, c) := face in
            n = 3 /\ 0 <= a < ply_element_vertex f /\
            0 <= b < ply_element_vertex f /\ 0 <= c < ply_element_vertex f)%Z
         (ply_faces f).
Proof. apply (ply_well_formed INITIAL_PARAMS None); cbn; lia. Defined.

(** X17.  The OBJ and the PLY file describe the same mesh: the same
    vertex lines, one per vertex of the buffer and in its order, and the
    same faces, the OBJ indices being the PLY indices plus one; the counts
    of the OBJ header comment are the numbers of [v] and [f] lines. *)
Theorem obj_ply_agree (params : VesselParams) (textureData : option TextureData) :
  let m := generateVesselMesh params textureData in
  let o := exportOBJ params textureData in
  let p := exportPLY params textureData in
  obj_v o = ply_vertices p /\
  obj_v o = map (vertexAt m) (Js.loop_lt (vertexCount m)) /\
  obj_f o = map (fun face => let '(_, a, b, c) := face in
                   (a + 1, b + 1, c + 1)%Z) (ply_faces p) /\
  exportOBJ_header params textureData =
    (Z.of_nat (length (obj_v o)), Z.of_nat (length (obj_f o))).
Proof.
  intros m o p.
  destruct (length_vertices params textureData) as [kv Hkv].
  destruct (length_indices params textureData) as [kf Hkf].
  fold m in Hkv, Hkf.
  split; [reflexivity|]. split; [|split].
  - unfold o, exportOBJ. cbn [obj_v]. fold m.
    unfold vertexCount. rewrite Hkv, div3, loop_lt_by3_triples, map_map.
    apply map_ext. intros i. unfold vertexAt. reflexivity.
  - unfold o, p, exportOBJ, exportPLY. cbn [obj_f ply_faces]. fold m.
    rewrite map_map. apply map_ext. intros i. reflexivity.
  - unfold exportOBJ_header, o, exportOBJ. cbn [obj_v obj_f]. fold m.
    rewrite !length_map, Hkv, Hkf, !loop_lt_by3_triples, !length_map,
      !length_loop_lt, !div3, !Nat2Z.id.
    reflexivity.
Qed.


(** ** The facet normal *)

Lemma faceCross_swap (v1 v2 v3 : Vec3) :
  faceCross v1 v3 v2 = vopp (faceCross v1 v2 v3).
Proof. unfold faceCross, vopp. cbn [vx vy vz]. f_equal; ring. Qed.

Lemma facetLen_swap (v1 v2 v3 : Vec3) : facetLen v1 v3 v2 = facetLen v1 v2 v3.
Proof.
  unfold facetLen. rewrite faceCross_swap. unfold vopp. cbn [vx vy vz].
  f_equal. f_equal. ring.
Qed.

(** X19.  The normal printed for a facet is perpendicular to the two
    edges it is computed from. *)
Theorem facet_normal_perpendicular (v1 v2 v3 : Vec3) :
  dot (facetNormal v1 v2 v3) (vsub v2 v1) = 0 /\
  dot (facetNormal v1 v2 v3) (vsub v3 v1) = 0.
Proof.
  pose proof (facetLen_nonzero v1 v2 v3) as Hl.
  unfold facetNormal, dot, vsub. cbn [vx vy vz].
  set (len := facetLen v1 v2 v3) in *.
  unfold faceCross. cbn [vx vy vz].
  split; field; exact Hl.
Qed.

(** X20.  Exchanging two corners of a triangle reverses the printed
    normal: the orientation of a facet follows the winding of its
    triangle. *)
Theorem facet_normal_winding (v1 v2 v3 : Vec3) :
  facetNormal v1 v3 v2 = vopp (facetNormal v1 v2 v3).
Proof.
  unfold facetNormal. rewrite facetLen_swap, faceCross_swap.
  unfold vopp. cbn [vx vy vz]. f_equal; unfold Rdiv; ring.
Qed.

(** ** The printer preamble *)

Section PreambleFacts.
Import Stdlib.Strings.String.
Local Open Scope string_scope.

(** X21.  Whatever the printer, the preamble selects millimetres,
    absolute positioning and absolute extrusion, then homes and lifts the
    head, in this order; only the [wasp] profile lowers the acceleration
    ([M204]) and only the [potterbot] profile resets the extruder position
    ([G92]). *)
Theorem preamble_commands (params : VesselParams) (layerHeight : R) :
  exists tail,
    commandWords (getHeader params layerHeight) =
      (["G21"; "G90"; "M82"; "G28"; "G1"] ++ tail)%list /\
    (In "M204" tail <-> printerType params = wasp) /\
    (In "G92" tail <-> printerType params = potterbot).
Proof.
  unfold getHeader. destruct (printerType params).
  - exists []. split; [reflexivity|].
    split; split; intros H; [destruct H | discriminate H | destruct H | discriminate H].
  - exists ["M204"]. split; [reflexivity|]. split; split; intros H.
    + reflexivity.
    + now left.
    + destruct H as [H|[]]. discriminate H.
    + discriminate H.
  - exists ["G92"]. split; [reflexivity|]. split; split; intros H.
    + destruct H as [H|[]]. discriminate H.
    + discriminate H.
    + reflexivity.
    + now left.
Qed.

End PreambleFacts.

(** ** From an image to the luminance grid *)

Lemma floor_IZR (z : Z) : Js.floor (IZR z) = z.
Proof. unfold Js.floor. symmetry. apply Int_part_spec. lra. Qed.

Lemma floor_scaled (a b : Z) :
  (1 <= a)%Z -> (a <= b)%Z ->
  (0 <= Js.floor (IZR a * (MAX_SIZE / IZR b)) <= 512)%Z /\
  ((b < 512 * a)%Z -> (1 <= Js.floor (IZR a * (MAX_SIZE / IZR b)))%Z) /\
  ((512 * a < b)%Z -> Js.floor (IZR a * (MAX_SIZE / IZR b)) = 0%Z).
Proof.
  intros Ha Hab. unfold MAX_SIZE.
  assert (Ha' : 1 <= IZR a) by now apply IZR_le.
  assert (Hab' : IZR a <= IZR b) by now apply IZR_le.
  set (q := IZR a * (512 / IZR b)).
  assert (Hq : q * IZR b = 512 * IZR a) by (unfold q; field; lra).
  assert (Hq0 : 0 <= q <= 512).
  { split.
    - unfold q. apply Rmult_le_pos; [lra|].
      apply Rmult_le_pos; [lra | left; apply Rinv_0_lt_compat; lra].
    - apply Rmult_le_reg_r with (IZR b); [lra|]. rewrite Hq. nra. }
  unfold Js.floor. destruct (base_Int_part q) as [Hb1 Hb2].
  split; [|split].
  - split.
    + assert (-1 < Int_part q)%Z by (apply lt_IZR; lra). lia.
    + apply le_IZR. lra.
  - intros Hlt. assert (Hlt' : IZR b < 512 * IZR a).
    { replace 512 with (IZR 512) by reflexivity. rewrite <- mult_IZR.
      now apply IZR_lt. }
    assert (H1 : 1 <= q) by (apply Rmult_le_reg_r with (IZR b); [lra | nra]).
    assert (0 < Int_part q)%Z by (apply lt_IZR; lra). lia.
  - intros Hgt. assert (Hgt' : 512 * IZR a < IZR b).
    { replace 512 with (IZR 512) by reflexivity. rewrite <- mult_IZR.
      now apply IZR_lt. }
    assert (H1 : q < 1) by (apply Rmult_lt_reg_r with (IZR b); [lra | nra]).
    symmetry. apply Int_part_spec. cbn. lra.
Qed.

Lemma length_luminance (data : list Byte.byte) (n : Z) :
  length (luminance data n) = Z.to_nat n.
Proof. unfold luminance. now rewrite length_map, length_loop_lt. Qed.

(** X22.  For an image of at least one pixel whose sides differ by a
    factor below 512, a grid is handed to the geometry and it is well
    formed: both sides are between 1 and 512 and the buffer holds
    [width * height] samples; an image that fits in 512 x 512 keeps its
    size. *)
Theorem image_texture_well_formed (imgWidth imgHeight : Z)
    (getImageData : Z -> Z -> list Byte.byte) :
  (1 <= imgWidth)%Z -> (1 <= imgHeight)%Z ->
  (imgWidth < 512 * imgHeight)%Z -> (imgHeight < 512 * imgWidth)%Z ->
  exists t,
  processImageForGeometry imgWidth imgHeight getImageData = Some t /\
  wellFormedTexture t /\
  (tex_width t <= 512)%Z /\ (tex_height t <= 512)%Z /\
  ((imgWidth <= 512)%Z -> (imgHeight <= 512)%Z ->
   tex_width t = imgWidth /\ tex_height t = imgHeight).
Proof.
  intros Hw Hh Hwh Hhw.
  assert (Hsz : exists W H, canvasSize imgWidth imgHeight = (W, H) /\
            (1 <= W <= 512)%Z /\ (1 <= H <= 512)%Z /\
            ((imgWidth <= 512)%Z -> (imgHeight <= 512)%Z ->
             W = imgWidth /\ H = imgHeight)).
  { assert (Hm : Js.floor MAX_SIZE = 512%Z) by apply (floor_IZR 512).
    unfold canvasSize.
    destruct (Rgt_dec (IZR imgWidth) (IZR imgHeight)) as [Hgt|Hle].
    - apply lt_IZR in Hgt.
      destruct (Rgt_dec (IZR imgWidth) MAX_SIZE) as [Hbig|Hsmall].
      + destruct (floor_scaled imgHeight imgWidth Hh ltac:(lia)) as (H1 & H2 & _).
        specialize (H2 Hwh).
        unfold MAX_SIZE in Hbig. apply lt_IZR in Hbig.
        rewrite Hm. do 2 eexists. split; [reflexivity|].
        repeat split; lia.
      + assert (imgWidth <= 512)%Z by (apply le_IZR; unfold MAX_SIZE in Hsmall; lra).
        rewrite !floor_IZR. do 2 eexists. split; [reflexivity|].
        repeat split; lia.
    - assert (imgWidth <= imgHeight)%Z by (apply le_IZR; lra).
      destruct (Rgt_dec (IZR imgHeight) MAX_SIZE) as [Hbig|Hsmall].
      + destruct (floor_scaled imgWidth imgHeight Hw ltac:(lia)) as (H1 & H2 & _).
        specialize (H2 Hhw).
        unfold MAX_SIZE in Hbig. apply lt_IZR in Hbig.
        rewrite Hm. do 2 eexists. split; [reflexivity|].
        repeat split; lia.
      + assert (imgHeight <= 512)%Z by (apply le_IZR; unfold MAX_SIZE in Hsmall; lra).
        rewrite !floor_IZR. do 2 eexists. split; [reflexivity|].
        repeat split; lia. }
  destruct Hsz as (W & H & Hc & HW & HH & Hkeep).
  unfold processImageForGeometry. rewrite Hc.
  destruct (Z.eqb_spec W 0); [lia|]. destruct (Z.eqb_spec H 0); [lia|].
  cbn [orb]. eexists. split; [reflexivity|].
  unfold wellFormedTexture. cbn [tex_width tex_height tex_data].
  rewrite length_luminance.
  repeat split; try lia; try (apply Hkeep; assumption).
Qed.

Lemma image_texture_well_formed_witness :
  exists t,
  processImageForGeometry 1024 768
    (fun w h => repeat Byte.x80 (Z.to_nat (4 * w * h))) = Some t /\
  wellFormedTexture t /\
  (tex_width t <= 512)%Z /\ (tex_height t <= 512)%Z /\
  ((1024 <= 512)%Z -> (768 <= 512)%Z ->
   tex_width t = 1024%Z /\ tex_height t = 768%Z).
Proof.
  apply (image_texture_well_formed 1024 768
           (fun w h => repeat Byte.x80 (Z.to_nat (4 * w * h)))); lia.
Defined.

(** X23.  A landscape image more than 512 times wider than high is
    scaled to a canvas of width 512 and height 0.  Reading the pixels of
    that canvas throws, so the promise is never resolved: no grid, and in
    particular no grid of height 0, is handed to the geometry. *)
Theorem image_texture_degenerate (imgWidth imgHeight : Z)
    (getImageData : Z -> Z -> list Byte.byte) :
  (1 <= imgHeight)%Z -> (512 * imgHeight < imgWidth)%Z ->
  canvasSize imgWidth imgHeight = (512, 0)%Z /\
  processImageForGeometry imgWidth imgHeight getImageData = None.
Proof.
  intros Hh Hwh.
  assert (Hc : canvasSize imgWidth imgHeight = (512, 0)%Z).
  { unfold canvasSize.
    destruct (Rgt_dec (IZR imgWidth) (IZR imgHeight)) as [Hgt|Hle].
    - destruct (Rgt_dec (IZR imgWidth) MAX_SIZE) as [Hbig|Hsmall].
      + destruct (floor_scaled imgHeight imgWidth Hh ltac:(lia)) as (_ & _ & H0).
        rewrite (H0 Hwh). change MAX_SIZE with (IZR 512) at 1.
        now rewrite floor_IZR.
      + exfalso. apply Hsmall. unfold MAX_SIZE. apply Rlt_gt.
        replace 512 with (IZR 512) by reflexivity. apply IZR_lt. lia.
    - exfalso. apply Hle. apply Rlt_gt, IZR_lt. lia. }
  split; [exact Hc|].
  unfold processImageForGeometry. rewrite Hc. reflexivity.
Qed.

Lemma image_texture_degenerate_witness :
  canvasSize 1000 1 = (512, 0)%Z /\
  processImageForGeometry 1000 1 (fun w h => repeat Byte.x80 (Z.to_nat (4 * w * h))) = None.
Proof.
  apply (image_texture_degenerate 1000 1
           (fun w h => repeat Byte.x80 (Z.to_nat (4 * w * h)))); lia.
Defined.

(** ** The active layer rings of the viewport *)

Lemma ring_fold (params : VesselParams) (v : R) (textureData : option TextureData)
    (segs : Z) (l : list Z) (out inn : list (R * R * R)) :
  fold_left (ringStep params v textureData segs) l (out, inn) =
  (out ++ map (fun i => xyz (calculateVesselPoint params (IZR i / IZR segs) v
                               0 0 1 textureData)) l,
   inn ++ (if Rgt_dec (wallThickness params) 0
           then map (fun i =>
                  (sp_x (calculateVesselPoint params (IZR i / IZR segs) v
                           (- wallThickness params) 0 1 textureData),
                   sp_y (calculateVesselPoint params (IZR i / IZR segs) v
                           0 0 1 textureData),
                   sp_z (calculateVesselPoint params (IZR i / IZR segs) v
                           (- wallThickness params) 0 1 textureData))) l
           else [])).
Proof.
  revert out inn. induction l as [|i l IH]; intros out inn; cbn [fold_left map].
  - destruct (Rgt_dec (wallThickness params) 0); now rewrite !app_nil_r.
  - unfold ringStep at 2.
    destruct (Rgt_dec (wallThickness params) 0) as [Hw|Hw].
    + rewrite IH. destruct (Rgt_dec (wallThickness params) 0); [|contradiction].
      now rewrite <- !app_assoc.
    + rewrite IH. destruct (Rgt_dec (wallThickness params) 0); [contradiction|].
      now rewrite <- !app_assoc.
Qed.

(** X24.  The overlay is drawn exactly while the progress is strictly
    between 0.005 and 0.995.  Then the outer ring of the active layer has
    [min(segments, 128) + 1] points; the inner ring has as many when
    [wallThickness > 0] and none otherwise; every point of both rings, and
    the simulated nozzle, are at the height [simProgress * height].  At a
    progress of 0.005 or less, or of 0.995 or more, nothing is drawn. *)
Theorem overlay_rings_level (params : VesselParams) (simProgress : R)
    (textureData : option TextureData) :
  let level (q : R * R * R) := snd (fst q) = simProgress * height params in
  (0.005 < simProgress < 0.995 ->
   exists ov,
     SimulationOverlay params simProgress textureData = Some ov /\
     length (ov_outer ov) = Z.to_nat (Z.min (segments params) 128 + 1) /\
     length (ov_inner ov) =
       (if Rgt_dec (wallThickness params) 0
        then length (ov_outer ov) else 0%nat) /\
     Forall level (ov_outer ov) /\ Forall level (ov_inner ov) /\
     level (ov_nozzle ov)) /\
  (simProgress <= 0.005 \/ 0.995 <= simProgress ->
   SimulationOverlay params simProgress textureData = None).
Proof.
  intros level. unfold SimulationOverlay. split.
  - intros Hs.
    destruct (Rge_dec simProgress 0.995); [lra|].
    destruct (Rle_dec simProgress 0.005); [lra|].
    eexists. split; [reflexivity|]. cbn [ov_outer ov_inner ov_nozzle].
    unfold overlayRings. rewrite ring_fold. cbn [fst snd app].
    assert (Hy : forall u ro, sp_y (calculateVesselPoint params u simProgress
                                      ro 0 1 textureData) =
                              simProgress * height params).
    { intros u ro. cbn [calculateVesselPoint sp_y]. ring. }
    split; [|split; [|split; [|split]]].
    + now rewrite length_map, length_loop_le.
    + destruct (Rgt_dec (wallThickness params) 0); [|reflexivity].
      now rewrite !length_map.
    + apply Forall_forall. intros q Hq. apply in_map_iff in Hq.
      destruct Hq as [i [<- _]]. unfold level, xyz. cbn [fst snd]. apply Hy.
    + destruct (Rgt_dec (wallThickness params) 0); [|constructor].
      apply Forall_forall. intros q Hq. apply in_map_iff in Hq.
      destruct Hq as [i [<- _]]. unfold level. cbn [fst snd]. apply Hy.
    + unfold level, nozzlePos. cbn [fst snd]. apply Hy.
  - intros Hs.
    destruct (Rge_dec simProgress 0.995); [reflexivity|].
    destruct (Rle_dec simProgress 0.005); [reflexivity|]. lra.
Qed.

Lemma overlay_rings_level_witness :
  exists ov,
    SimulationOverlay INITIAL_PARAMS 0.5 None = Some ov /\
    length (ov_outer ov) = Z.to_nat (Z.min 120 128 + 1) /\
    length (ov_inner ov) =
      (if Rgt_dec 2 0 then length (ov_outer ov) else 0%nat) /\
    Forall (fun q => snd (fst q) = 0.5 * 150) (ov_outer ov) /\
    Forall (fun q => snd (fst q) = 0.5 * 150) (ov_inner ov) /\
    snd (fst (ov_nozzle ov)) = 0.5 * 150.
Proof.
  apply (proj1 (overlay_rings_level INITIAL_PARAMS 0.5 None)). lra.
Defined.

(** ** The triangles of the mesh *)

Lemma chunk3_app (l1 l2 : list Z) (k : nat) :
  length l1 = (3 * k)%nat -> chunk3 (l1 ++ l2) = chunk3 l1 ++ chunk3 l2.
Proof.
  revert l1. induction k as [|k IH]; intros l1 Hl.
  - destruct l1; [reflexivity | discriminate].
  - destruct l1 as [|a [|b [|c l1]]]; try (cbn in Hl; lia).
    cbn [app chunk3]. rewrite IH by (cbn in Hl; lia). reflexivity.
Qed.

Lemma idx_get_cons3 (a b c : Z) (l : list Z) (i : Z) :
  (0 <= i)%Z -> Js.idx_get (a :: b :: c :: l) (3 + i) = Js.idx_get l i.
Proof.
  intros Hi. unfold Js.idx_get.
  destruct (Z.ltb_spec (3 + i) 0); [lia|]. destruct (Z.ltb_spec i 0); [lia|].
  replace (Z.to_nat (3 + i)) with (S (S (S (Z.to_nat i)))) by lia. reflexivity.
Qed.

Lemma read_triangles_seq (k : nat) (l : list Z) :
  length l = (3 * k)%nat ->
  map (fun n : nat =>
         (Js.idx_get l (3 * Z.of_nat n), Js.idx_get l (3 * Z.of_nat n + 1),
          Js.idx_get l (3 * Z.of_nat n + 2))) (seq 0 k) = chunk3 l.
Proof.
  revert l. induction k as [|k IH]; intros l Hl.
  - destruct l; [reflexivity | discriminate].
  - destruct l as [|a [|b [|c l]]]; try (cbn in Hl; lia).
    cbn [chunk3]. rewrite <- cons_seq, <- seq_shift. cbn [map]. rewrite map_map.
    f_equal. rewrite <- (IH l) by (cbn in Hl; lia).
    apply map_ext. intros n.
    replace (3 * Z.of_nat (S n))%Z with (3 + 3 * Z.of_nat n)%Z by lia.
    rewrite <- !Z.add_assoc, !idx_get_cons3 by lia. reflexivity.
Qed.

(** Reading the buffer three indices at a time, as the exporters do,
    yields its triangles. *)
Lemma read_triangles (l : list Z) (k : nat) :
  length l = (3 * k)%nat ->
  map (fun i => (Js.idx_get l i, Js.idx_get l (i + 1), Js.idx_get l (i + 2)))
      (Js.loop_lt_by3 (Z.of_nat (length l))) = chunk3 l.
Proof.
  intros Hl. rewrite Hl, loop_lt_by3_triples, map_map. unfold Js.loop_lt.
  rewrite Nat2Z.id, map_map. now apply read_triangles_seq.
Qed.

Lemma Forall_chunk3_flat_map {A : Type} (P : Z * Z * Z -> Prop)
    (f : A -> list Z) (xs : list A) (k : nat) :
  (forall x, In x xs -> length (f x) = (3 * k)%nat /\ Forall P (chunk3 (f x))) ->
  Forall P (chunk3 (flat_map f xs)).
Proof.
  induction xs as [|x xs IH]; intros H; cbn [flat_map].
  - constructor.
  - destruct (H x (or_introl eq_refl)) as [Hl Hp].
    rewrite (chunk3_app _ _ k Hl). apply Forall_app. split; [exact Hp|].
    apply IH. intros y Hy. apply H. now right.
Qed.

Lemma length_flat_map_3 (f : Z -> list Z) (n : Z) (c : nat) :
  (forall x, length (f x) = (3 * c)%nat) ->
  length (flat_map f (Js.loop_lt n)) = (3 * (c * Z.to_nat n))%nat.
Proof.
  intros Hf. rewrite (length_flat_map_const _ _ (3 * c)) by apply Hf.
  rewrite length_loop_lt. lia.
Qed.

Lemma Forall_chunk3_app (P : Z * Z * Z -> Prop) (l1 l2 : list Z) (k : nat) :
  length l1 = (3 * k)%nat -> Forall P (chunk3 l1) -> Forall P (chunk3 l2) ->
  Forall P (chunk3 (l1 ++ l2)).
Proof.
  intros Hl H1 H2. rewrite (chunk3_app _ _ k Hl). apply Forall_app. now split.
Qed.

Lemma quads_distinct (f : Z -> Z -> list Z) (k n : Z) :
  (forall y x, (0 <= y < k)%Z -> (0 <= x < n)%Z ->
     length (f y x) = 6%nat /\ Forall distinct3 (chunk3 (f y x))) ->
  Forall distinct3
    (chunk3 (flat_map (fun y => flat_map (f y) (Js.loop_lt n)) (Js.loop_lt k))) /\
  length (flat_map (fun y => flat_map (f y) (Js.loop_lt n)) (Js.loop_lt k)) =
    (3 * (2 * Z.to_nat n * Z.to_nat k))%nat.
Proof.
  intros H. split.
  - apply (Forall_chunk3_flat_map _ _ _ (2 * Z.to_nat n)).
    intros y Hy. apply In_loop_lt in Hy. split.
    + assert (Hlen : forall l, (forall x, In x l -> (0 <= x < n)%Z) ->
                length (flat_map (f y) l) = (length l * 6)%nat).
      { induction l as [|x l IH]; intros Hl; cbn [flat_map length]; [reflexivity|].
        rewrite length_app, IH by (intros z Hz; apply Hl; now right).
        destruct (H y x Hy (Hl x (or_introl eq_refl))) as [-> _]. lia. }
      rewrite Hlen by (intros x Hx; now apply In_loop_lt).
      rewrite length_loop_lt. lia.
    + apply (Forall_chunk3_flat_map _ _ _ 2).
      intros x Hx. apply In_loop_lt in Hx. destruct (H y x Hy Hx) as [Hl Hp].
      split; [rewrite Hl; reflexivity | exact Hp].
  - assert (Hlen : forall ys, (forall y, In y ys -> (0 <= y < k)%Z) ->
              length (flat_map (fun y => flat_map (f y) (Js.loop_lt n)) ys) =
              (length ys * (Z.to_nat n * 6))%nat).
    { induction ys as [|y ys IH]; intros Hl; cbn [flat_map length]; [reflexivity|].
      rewrite length_app, IH by (intros z Hz; apply Hl; now right).
      assert (Hin : forall l, (forall x, In x l -> (0 <= x < n)%Z) ->
                length (flat_map (f y) l) = (length l * 6)%nat).
      { induction l as [|x l IHl]; intros Hx; cbn [flat_map length]; [reflexivity|].
        rewrite length_app, IHl by (intros z Hz; apply Hx; now right).
        destruct (H y x (Hl y (or_introl eq_refl)) (Hx x (or_introl eq_refl)))
          as [-> _]. lia. }
      rewrite Hin by (intros x Hx; now apply In_loop_lt).
      rewrite length_loop_lt. lia. }
    rewrite Hlen by (intros y Hy; now apply In_loop_lt).
    rewrite length_loop_lt. lia.
Qed.

Lemma fan_distinct (f : Z -> list Z) (n : Z) (c : nat) :
  (forall x, (0 <= x < n)%Z ->
     length (f x) = (3 * c)%nat /\ Forall distinct3 (chunk3 (f x))) ->
  Forall distinct3 (chunk3 (flat_map f (Js.loop_lt n))) /\
  length (flat_map f (Js.loop_lt n)) = (3 * (c * Z.to_nat n))%nat.
Proof.
  intros H. split.
  - apply (Forall_chunk3_flat_map _ _ _ c).
    intros x Hx. apply In_loop_lt in Hx. now apply H.
  - assert (Hlen : forall l, (forall x, In x l -> (0 <= x < n)%Z) ->
              length (flat_map f l) = (length l * (3 * c))%nat).
    { induction l as [|x l IH]; intros Hl; cbn [flat_map length]; [reflexivity|].
      rewrite length_app, IH by (intros z Hz; apply Hl; now right).
      destruct (H x (Hl x (or_introl eq_refl))) as [-> _]. lia. }
    rewrite Hlen by (intros x Hx; now apply In_loop_lt).
    rewrite length_loop_lt. lia.
Qed.

Ltac two_triangles :=
  split; [reflexivity|];
  cbn [addQuad app chunk3]; repeat constructor; nia.

(** X25.  For a non-negative number of layers, every triangle of the
    mesh, in both modes, names three different vertices, and the faces
    written to the PLY file are these triangles. *)
Theorem triangles_have_distinct_corners (params : VesselParams)
    (textureData : option TextureData) :
  (0 <= layers params)%Z ->
  let m := generateVesselMesh params textureData in
  Forall distinct3 (chunk3 (indices m)) /\
  ply_faces (exportPLY params textureData) =
    map (fun t => let '(a, b, c) := t in (3%Z, a, b, c)) (chunk3 (indices m)).
Proof.
  intros HL m. split.
  - unfold m, generateVesselMesh.
    destruct (Rle_dec (wallThickness params) 0) as [Hw|Hw]; cbn [indices].
    + unfold vaseIndices. apply quads_distinct.
      intros y x Hy Hx. two_triangles.
    + set (g := ((layers params + 1) * (segments params + 1))%Z).
      rewrite length_app, !length_push3, !length_shellPoints.
      replace (Z.of_nat (Z.to_nat (layers params + 1) *
                         Z.to_nat (segments params + 1) * 3 +
                         Z.to_nat (layers params + 1) *
                         Z.to_nat (segments params + 1) * 3) / 3)%Z
        with (Z.of_nat (2 * (Z.to_nat (layers params + 1) *
                             Z.to_nat (segments params + 1))))
        by (rewrite <- div3; f_equal; f_equal; lia).
      set (c := Z.of_nat (2 * (Z.to_nat (layers params + 1) *
                               Z.to_nat (segments params + 1)))).
      destruct (quads_distinct
                  (fun y x => addQuad (y * (segments params + 1) + x)
                     ((y + 1) * (segments params + 1) + x)
                     (y * (segments params + 1) + x + 1)
                     ((y + 1) * (segments params + 1) + x + 1))%Z
                  (layers params) (segments params)) as [Ho Lo].
      { intros y x Hy Hx. two_triangles. }
      destruct (quads_distinct
                  (fun y x => addQuad (g + y * (segments params + 1) + x + 1)
                     (g + (y + 1) * (segments params + 1) + x + 1)
                     (g + y * (segments params + 1) + x)
                     (g + (y + 1) * (segments params + 1) + x))%Z
                  (layers params) (segments params)) as [Hi Li].
      { intros y x Hy Hx. two_triangles. }
      destruct (fan_distinct
                  (fun x => addQuad (layers params * (segments params + 1) + x)
                     (layers params * (segments params + 1) + x + 1)
                     (g + layers params * (segments params + 1) + x)
                     (g + layers params * (segments params + 1) + x + 1))%Z
                  (segments params) 2) as [Hr Lr].
      { intros x Hx. split; [reflexivity|].
        cbn [addQuad app chunk3]. unfold g. repeat constructor; nia. }
      destruct (fan_distinct (fun x => [c; 0 + x + 1; 0 + x])%Z
                  (segments params) 1) as [Hb Lb].
      { intros x Hx. split; [reflexivity|].
        cbn [chunk3]. unfold c. repeat constructor; nia. }
      destruct (fan_distinct (fun x => [c + 1; g + x; g + x + 1])%Z
                  (segments params) 1) as [Hf Lf].
      { intros x Hx. split; [reflexivity|].
        cbn [chunk3]. unfold c, g. repeat constructor; nia. }
      unfold outerShellIndices, innerShellIndices, rimIndices,
        outerCapIndices, innerCapIndices. fold g.
      rewrite <- !app_assoc.
      eapply Forall_chunk3_app; [exact Lo | exact Ho |].
      eapply Forall_chunk3_app; [exact Li | exact Hi |].
      eapply Forall_chunk3_app; [exact Lr | exact Hr |].
      eapply Forall_chunk3_app; [exact Lb | exact Hb |].
      exact Hf.
  - destruct (length_indices params textureData) as [k Hk]. fold m in Hk.
    unfold exportPLY. cbn [ply_faces]. fold m.
    rewrite <- (read_triangles (indices m) k Hk), map_map. reflexivity.
Qed.

Lemma triangles_have_distinct_corners_witness :
  let m := generateVesselMesh INITIAL_PARAMS None in
  Forall distinct3 (chunk3 (indices m)) /\
  ply_faces (exportPLY INITIAL_PARAMS None) =
    map (fun t => let '(a, b, c) := t in (3%Z, a, b, c)) (chunk3 (indices m)).
Proof.
  apply (triangles_have_distinct_corners INITIAL_PARAMS None). cbn. lia.
Defined.

Lemma In_quads (f : Z -> Z -> list Z) (k n i y x : Z) :
  (0 <= y < k)%Z -> (0 <= x < n)%Z -> In i (f y x) ->
  In i (flat_map (fun y => flat_map (f y) (Js.loop_lt n)) (Js.loop_lt k)).
Proof.
  intros Hy Hx Hi. apply in_flat_map. exists y. split; [now apply In_loop_lt|].
  apply in_flat_map. exists x. split; [now apply In_loop_lt | exact Hi].
Qed.

(** A grid index is a corner of some cell of the grid. *)
Lemma grid_cell (L S i : Z) :
  (1 <= L)%Z -> (1 <= S)%Z -> (0 <= i < (L + 1) * (S + 1))%Z ->
  exists y x, (0 <= y < L)%Z /\ (0 <= x < S)%Z /\
    (i = y * (S + 1) + x \/ i = y * (S + 1) + x + 1 \/
     i = (y + 1) * (S + 1) + x \/ i = (y + 1) * (S + 1) + x + 1)%Z.
Proof.
  intros HL HS Hi.
  pose proof (Z.div_mod i (S + 1) ltac:(lia)) as Hdm.
  pose proof (Z.mod_pos_bound i (S + 1) ltac:(lia)) as Hm.
  set (q := (i / (S + 1))%Z) in *. set (r := (i mod (S + 1))%Z) in *.
  assert (Hq : (0 <= q <= L)%Z).
  { split; [apply Z.div_pos; lia|].
    assert (q < L + 1)%Z; [|lia].
    apply Z.div_lt_upper_bound; [lia|]. rewrite Z.mul_comm. lia. }
  destruct (Z.eq_dec q L) as [Eq|Nq], (Z.eq_dec r S) as [Er|Nr].
  - exists (L - 1)%Z, (S - 1)%Z. split; [lia|]. split; [lia|].
    right; right; right. nia.
  - exists (L - 1)%Z, r. split; [lia|]. split; [lia|].
    right; right; left. nia.
  - exists q, (S - 1)%Z. split; [lia|]. split; [lia|].
    right; left. nia.
  - exists q, r. split; [lia|]. split; [lia|].
    left. nia.
Qed.

(** X26.  With at least one layer and one segment, the mesh has no
    unused vertex: every vertex index below the vertex count, the two floor
    apexes of the solid included, is a corner of some triangle. *)
Theorem no_unused_vertex (params : VesselParams)
    (textureData : option TextureData) (i : Z) :
  (1 <= layers params)%Z -> (1 <= segments params)%Z ->
  let m := generateVesselMesh params textureData in
  (0 <= i < vertexCount m)%Z -> In i (indices m).
Proof.
  intros HL HS m Hi.
  destruct (Rle_dec (wallThickness params) 0) as [Hw|Hw].
  - unfold m in Hi. rewrite vertexCount_vase in Hi by (try lia; assumption).
    unfold m, generateVesselMesh.
    destruct (Rle_dec (wallThickness params) 0); [|contradiction].
    cbn [indices]. unfold vaseIndices, gridSize in *.
    destruct (grid_cell _ _ i HL HS Hi) as (y & x & Hy & Hx & Hc).
    apply (In_quads _ _ _ i y x Hy Hx). cbn [app In].
    destruct Hc as [-> | [-> | [-> | ->]]]; auto 10.
  - assert (Hw' : 0 < wallThickness params) by lra.
    unfold m in Hi. rewrite vertexCount_solid in Hi by (try lia; assumption).
    unfold m. rewrite indices_solid by (try lia; assumption).
    unfold gridSize in *.
    set (g := ((layers params + 1) * (segments params + 1))%Z) in *.
    assert (Hcase : (0 <= i < g \/ 0 <= i - g < g \/ i = 2 * g \/ i = 2 * g + 1)%Z)
      by lia.
    destruct Hcase as [Ho | [Hin | [-> | ->]]].
    + apply in_or_app. left. unfold outerShellIndices.
      destruct (grid_cell _ _ i HL HS Ho) as (y & x & Hy & Hx & Hc).
      apply (In_quads _ _ _ i y x Hy Hx). unfold addQuad. cbn [app In].
      destruct Hc as [-> | [-> | [-> | ->]]]; auto 10.
    + apply in_or_app. right. apply in_or_app. left. unfold innerShellIndices.
      destruct (grid_cell _ _ (i - g) HL HS Hin) as (y & x & Hy & Hx & Hc).
      apply (In_quads _ _ _ i y x Hy Hx). unfold addQuad. cbn [app In].
      destruct Hc as [Hc|[Hc|[Hc|Hc]]].
      * right; right; left. lia.
      * left. lia.
      * right; right; right; right; right; left. lia.
      * right; left. lia.
    + apply in_or_app. right. apply in_or_app. right.
      apply in_or_app. right. apply in_or_app. left.
      unfold outerCapIndices. apply in_flat_map. exists 0%Z.
      split; [apply In_loop_lt; lia | now left].
    + apply in_or_app. right. apply in_or_app. right.
      apply in_or_app. right. apply in_or_app. right.
      unfold innerCapIndices. apply in_flat_map. exists 0%Z.
      split; [apply In_loop_lt; lia | now left].
Qed.

Lemma no_unused_vertex_witness :
  In 54%Z (indices (generateVesselMesh cylinderParams None)).
Proof.
  apply (no_unused_vertex cylinderParams None 54).
  - cbn. lia.
  - cbn. lia.
  - rewrite vertexCount_vase.
    + unfold gridSize. cbn. lia.
    + cbn. lia.
    + cbn. lia.
    + cbn. lra.
Defined.

(** ** The solid extends the open surface *)

Lemma shellPoints_sameShape (p q : VesselParams) (textureData : option TextureData)
    (ro ho hs : R) :
  sameShape p q -> layers p = layers q -> segments p = segments q ->
  shellPoints p textureData ro ho hs = shellPoints q textureData ro ho hs.
Proof.
  intros Hs HL HS. unfold shellPoints. rewrite HL, HS.
  apply flat_map_ext. intros y. apply map_ext. intros x.
  now apply point_sameShape.
Qed.

(** X27.  Giving a wall thickness to an open surface keeps its mesh and
    adds to it: the vertex buffer and the index buffer of the solid start
    with those of the vase of the same shape and resolution, vertex for
    vertex and triangle for triangle. *)
Theorem solid_extends_vase (p q : VesselParams) (textureData : option TextureData) :
  sameShape p q -> layers p = layers q -> segments p = segments q ->
  wallThickness p <= 0 -> 0 < wallThickness q ->
  (0 <= layers p)%Z -> (0 <= segments p)%Z ->
  let vase := generateVesselMesh p textureData in
  let solid := generateVesselMesh q textureData in
  exists moreVertices moreIndices,
    vertices solid = vertices vase ++ moreVertices /\
    indices solid = indices vase ++ moreIndices /\
    Z.of_nat (length moreVertices) = (3 * (vertexCount vase + 2))%Z.
Proof.
  intros Hs HL HS Hp Hq HL0 HS0 vase solid.
  assert (Hv : vertices vase = flat_map push3 (shellPoints p textureData 0 0 1)).
  { unfold vase, generateVesselMesh.
    destruct (Rle_dec (wallThickness p) 0); [reflexivity | contradiction]. }
  assert (Hi : indices vase = vaseIndices p).
  { unfold vase, generateVesselMesh.
    destruct (Rle_dec (wallThickness p) 0); [reflexivity | contradiction]. }
  assert (Hc : vertexCount vase = gridSize p)
    by (unfold vase; now apply vertexCount_vase).
  exists (flat_map push3
            (shellPoints q textureData (- wallThickness q) (wallThickness q)
               ((height q - wallThickness q) / height q)) ++
          [0; 0; 0] ++ [0; wallThickness q; 0]).
  eexists. split; [|split].
  - unfold solid. rewrite (vertices_solid q textureData Hq), Hv.
    rewrite (shellPoints_sameShape p q) by assumption.
    now rewrite <- app_assoc.
  - unfold solid. rewrite indices_solid by (try assumption; lia).
    rewrite Hi. unfold outerShellIndices, vaseIndices, addQuad.
    rewrite HL, HS. reflexivity.
  - rewrite length_app, Nat2Z.inj_add, length_grid by lia.
    rewrite Hc. unfold gridSize. rewrite HL, HS. cbn [length app]. lia.
Qed.

Lemma solid_extends_vase_witness :
  let vase := generateVesselMesh
                {| height := 150; baseRadius := 40; noiseScale := 10;
                   noiseFrequency := 5; layers := 150; twist := 1;
                   segments := 120; wallThickness := 0; exportFormat := obj;
                   textureImage := None; textureInfluence := 10;
                   printerType := marlin; nozzleDiameter := 1.2;
                   filamentDiameter := 1.75; printSpeed := 1200 |} None in
  let solid := generateVesselMesh INITIAL_PARAMS None in
  exists moreVertices moreIndices,
    vertices solid = vertices vase ++ moreVertices /\
    indices solid = indices vase ++ moreIndices /\
    Z.of_nat (length moreVertices) = (3 * (vertexCount vase + 2))%Z.
Proof.
  apply solid_extends_vase; try (cbn; lia); try (cbn; lra).
  unfold sameShape. repeat split; reflexivity.
Defined.

(** ** The estimate against the envelope *)

Lemma sumTo_le (n : nat) (f : nat -> R) (c : R) :
  (forall k, (k < n)%nat -> f k <= c) -> sumTo n f <= INR n * c.
Proof.
  induction n as [|n IH]; intros Hf.
  - cbn. lra.
  - rewrite S_INR. cbn [sumTo].
    pose proof (Hf n ltac:(lia)). pose proof (IH ltac:(intros k Hk; apply Hf; lia)).
    lra.
Qed.

Lemma radiusAt_max (params : VesselParams) (textureData : option TextureData)
    (u v : R) :
  0 <= v <= 1 ->
  radiusAt params textureData u v <=
  Rmax 0.1 (baseRadius params + Rabs (noiseScale params) +
            Rmax 0 (textureInfluence params)).
Proof.
  intros Hv. unfold radiusAt. rewrite radius_formula.
  pose proof (noiseRadius_range params u v Hv) as Hn.
  assert (Hd : match textureData with
               | Some t => if Rlt_dec 0 (textureInfluence params)
                           then textureValue t u v * textureInfluence params
                           else 0
               | None => 0
               end <= Rmax 0 (textureInfluence params)).
  { pose proof (Rmax_l 0 (textureInfluence params)).
    pose proof (Rmax_r 0 (textureInfluence params)).
    destruct textureData as [t|]; [|lra].
    destruct (Rlt_dec 0 (textureInfluence params)); [|lra].
    pose proof (textureValue_range t u v). nra. }
  apply Rle_max_compat_l. lra.
Qed.

(** X28.  With at least one layer and a positive print speed, the
    estimated time is at most the time of [layers] rings of the largest
    radius the envelope allows,
    [max(0.1, baseRadius + |noiseScale| + max(0, textureInfluence))]. *)
Theorem print_time_upper_bound (params : VesselParams)
    (textureData : option TextureData) :
  (1 <= layers params)%Z -> 0 < printSpeed params ->
  (forall t, textureData = Some t -> wellFormedTexture t) ->
  estimatedTime (calculatePrintStats params textureData) <=
  2 * PI *
  Rmax 0.1 (baseRadius params + Rabs (noiseScale params) +
            Rmax 0 (textureInfluence params)) *
  IZR (layers params) / printSpeed params.
Proof.
  intros HL Hp _.
  pose proof PI_RGT_0 as Hpi.
  set (rmax := Rmax 0.1 (baseRadius params + Rabs (noiseScale params) +
                         Rmax 0 (textureInfluence params))).
  assert (Hn : INR (Z.to_nat (layers params)) = IZR (layers params))
    by (rewrite INR_IZR_INZ, Z2Nat.id by lia; reflexivity).
  assert (Hs : spiralDist params textureData <=
               2 * PI * rmax * IZR (layers params)).
  { rewrite spiralDist_spec. unfold spiralDistance_spec.
    apply Rle_trans with (INR (Z.to_nat (layers params)) * (2 * PI * rmax));
      [|rewrite Hn; lra].
    apply sumTo_le. intros k Hk. cbv zeta.
    assert (Hv : 0 <= INR k / IZR (layers params) <= 1).
    { rewrite INR_IZR_INZ. apply row_fraction; lia. }
    set (v := INR k / IZR (layers params)) in *.
    pose proof (radiusAt_max params textureData 0 v Hv).
    pose proof (radiusAt_max params textureData (1 / 4) v Hv).
    pose proof (radiusAt_max params textureData (1 / 2) v Hv).
    pose proof (radiusAt_max params textureData (3 / 4) v Hv).
    fold rmax in H, H0, H1, H2.
    apply Rmult_le_compat_l; lra. }
  unfold calculatePrintStats. cbn [estimatedTime].
  unfold Rdiv. apply Rmult_le_compat_r; [|exact Hs].
  left. now apply Rinv_0_lt_compat.
Qed.

Lemma print_time_upper_bound_witness :
  estimatedTime (calculatePrintStats INITIAL_PARAMS None) <=
  2 * PI * Rmax 0.1 (40 + Rabs 10 + Rmax 0 10) * 150 / 1200.
Proof.
  apply (print_time_upper_bound INITIAL_PARAMS None).
  - cbn. lia.
  - cbn. lra.
  - intros t Ht. discriminate Ht.
Defined.

(** ** A degenerate facet that exportSTL writes *)

Lemma clampedRim_point (u v ro ho hs : R) :
  ro <= 0 ->
  let q := calculateVesselPoint clampedRimParams u v ro ho hs None in
  xyz q = (0.1 * cos (u * PI * 2), v * 100 * hs + ho, 0.1 * sin (u * PI * 2)).
Proof.
  intros Hro q.
  assert (Hr : sp_r q = 0.1).
  { unfold q. rewrite radius_formula. unfold noiseRadius.
    cbn [clampedRimParams baseRadius noiseScale].
    rewrite Rmax_left; [reflexivity|]. lra. }
  assert (Hx : sp_x q = sp_r q * cos (u * PI * 2)) by reflexivity.
  assert (Hz : sp_z q = sp_r q * sin (u * PI * 2)) by reflexivity.
  assert (Hy : sp_y q = v * 100 * hs + ho) by reflexivity.
  unfold xyz. now rewrite Hx, Hz, Hy, Hr.
Qed.

(** C4 as stated fails on the fallback, on a facet that [exportSTL]
    writes: with a base radius of zero and no noise both shells are
    clamped to the radius 0.1, so at the rim the outer and the inner top
    vertex of each column coincide; the first rim triangle (the thirteenth
    facet, vertices 4, 5 and 12) has a zero cross product and is written
    with the normal [(0, 0, 0)], of length 0, not a unit vector. *)
Lemma facet_normal_counterexample :
  (1 <= layers clampedRimParams)%Z /\ (3 <= segments clampedRimParams)%Z /\
  exists f,
    nth_error (exportSTL clampedRimParams None) 12 = Some f /\
    facet_v1 f = facet_v3 f /\
    norm (faceCross (facet_v1 f) (facet_v2 f) (facet_v3 f)) = 0 /\
    facet_normal f = {| vx := 0; vy := 0; vz := 0 |} /\
    norm (facet_normal f) <> 1.
Proof.
  split; [cbn; lia|]. split; [cbn; lia|].
  set (m := generateVesselMesh clampedRimParams None).
  assert (Hw : 0 < wallThickness clampedRimParams) by (cbn; lra).
  assert (Hidx : indices m =
            [0; 4; 1; 1; 4; 5; 1; 5; 2; 2; 5; 6; 2; 6; 3; 3; 6; 7;
             9; 13; 8; 8; 13; 12; 10; 14; 9; 9; 14; 13; 11; 15; 10; 10; 15; 14;
             4; 5; 12; 12; 5; 13; 5; 6; 13; 13; 6; 14; 6; 7; 14; 14; 7; 15;
             16; 1; 0; 16; 2; 1; 16; 3; 2;
             17; 8; 9; 17; 9; 10; 17; 10; 11]%Z).
  { unfold m. rewrite indices_solid by (try exact Hw; cbn; lia). reflexivity. }
  assert (H4 : vertexAt m 4 = (0.1 * cos (IZR 0 / IZR 3 * PI * 2), 100,
                               0.1 * sin (IZR 0 / IZR 3 * PI * 2))).
  { change 4%Z with (gridIndex clampedRimParams 1 0).
    unfold m. rewrite outer_vertex by (cbn; lia).
    cbn [clampedRimParams layers segments].
    rewrite clampedRim_point by lra. f_equal. f_equal. field. }
  assert (H12 : vertexAt m 12 = (0.1 * cos (IZR 0 / IZR 3 * PI * 2), 100,
                                 0.1 * sin (IZR 0 / IZR 3 * PI * 2))).
  { change 12%Z with (gridSize clampedRimParams + gridIndex clampedRimParams 1 0)%Z.
    unfold m. rewrite inner_vertex by (try exact Hw; cbn; lia).
    cbn [clampedRimParams layers segments wallThickness height].
    rewrite clampedRim_point by lra. f_equal. f_equal. field. }
  set (v1 := vec3 (vertexAt m 4)).
  set (v2 := vec3 (vertexAt m 5)).
  set (v3 := vec3 (vertexAt m 12)).
  assert (H13 : v1 = v3) by (unfold v1, v3; now rewrite H4, H12).
  assert (Hf : nth_error (exportSTL clampedRimParams None) 12 =
               Some {| facet_normal := facetNormal v1 v2 v3;
                       facet_v1 := v1; facet_v2 := v2; facet_v3 := v3 |}).
  { unfold exportSTL. fold m. rewrite Hidx.
    change (Js.loop_lt_by3 (Z.of_nat (length _)))
      with (map (fun k => (3 * Z.of_nat k)%Z) (seq 0 24)).
    rewrite map_map.
    rewrite (nth_error_map _ 12 (seq 0 24)).
    change (nth_error (seq 0 24) 12) with (Some 12%nat).
    cbn [option_map]. reflexivity. }
  assert (Hc : norm (faceCross v1 v2 v3) = 0).
  { rewrite <- H13. unfold norm, faceCross. cbn [vx vy vz].
    replace (_ + _) with 0 by ring. apply sqrt_0. }
  destruct (facetNormal_degenerate v1 v2 v3 Hc) as [_ Hz].
  eexists. split; [exact Hf|]. cbn [facet_v1 facet_v2 facet_v3 facet_normal].
  split; [exact H13|]. split; [exact Hc|]. split; [exact Hz|].
  rewrite Hz. unfold norm. cbn [vx vy vz]. replace (_ + _) with 0 by ring.
  rewrite sqrt_0. lra.
Qed.
